(** * BitGuard wallet: key management and vault encryption

    A shallow embedding of [src/src/App.tsx]: the [WalletService] class
    (mnemonic handling, BIP84 key derivation, password-based envelope
    encryption over the Web Crypto API) and the handlers of the [App]
    component that drive it ([handleCreateWallet], [handleUnlock],
    [handleLogout]).

    The file is organised as the program is:
    - [Platform]: the runtime the service calls into -- typed arrays,
      [Buffer]'s base64 codec, [TextEncoder]/[TextDecoder], and the
      Web Crypto primitives (PBKDF2-HMAC-SHA-256 and AES-GCM written out
      over an abstract hash, keystream and tag);
    - [Bip]: the bip39/bip32/bitcoinjs interface used by [createWallet];
    - [WalletService]: the five static methods, statement by statement;
    - [App]: the component state and its handlers;
    - the theorems, claim by claim. *)

From Stdlib Require Import ZArith List Bool Lia Ascii String.
From Stdlib.Strings Require Import Byte.
From stdpp Require Import gmap.
Import ListNotations.
Local Open Scope Z_scope.

(** ** Bytes and JavaScript strings *)

(** An element of a [Uint8Array]. *)
Abbreviation byte := Byte.byte.

Definition b2z (b : byte) : Z := Z.of_N (Byte.to_N b).

(** Storing a number in a [Uint8Array] keeps it modulo 256. *)
Definition z2b (z : Z) : byte :=
  match Byte.of_N (Z.to_N (z mod 256)) with
  | Some b => b
  | None => Byte.x00
  end.

(** A JavaScript string is a sequence of UTF-16 code units. *)
Definition jsstring := list Z.

Definition code_unit (c : Z) : bool := (0 <=? c) && (c <? 65536).

(** Every element is a 16-bit code unit. *)
Definition js_valid (s : jsstring) : bool := forallb code_unit s.

(** A string literal of the source (ASCII only). *)
Definition str (s : string) : jsstring :=
  List.map (fun a => Z.of_N (N_of_ascii a)) (list_ascii_of_string s).

(** ** Typed arrays *)

(** [new Uint8Array(n)]: [n] zero bytes. *)
Definition Uint8Array_new (n : nat) : list byte := repeat Byte.x00 n.

(** [dst.set(src, offset)]: copies [src] into [dst] from index [offset];
    a source that does not fit raises RangeError ([None]). *)
Definition Uint8Array_set (dst src : list byte) (offset : nat) : option (list byte) :=
  if (offset + length src <=? length dst)%nat
  then Some (firstn offset dst ++ src ++ skipn (offset + length src) dst)
  else None.

(** [buf.slice(start, end)] with both indices inside [0, 2^53): the
    indices are clamped to the length, so the result may be shorter than
    [end - start], and is empty when [start] is past the end. *)
Definition slice (buf : list byte) (start stop : nat) : list byte :=
  firstn (stop - start) (skipn start buf).

(** [buf.slice(start)]. *)
Definition slice_from (buf : list byte) (start : nat) : list byte :=
  skipn start buf.

(** ** Buffer's base64 codec

    [Buffer] is the [buffer] package, whose base64 codec is base64-js
    behind a cleaning step.  The encoder follows [fromByteArray], the
    decoder [base64clean] followed by [toByteArray]. *)

Definition b64_code : jsstring :=
  str "ABCDEFGHIJKLMNOPQRSTUVWXYZabcdefghijklmnopqrstuvwxyz0123456789+/".

(** ['='], the placeholder. *)
Definition b64_pad : Z := 61.

Definition lookup_code (i : Z) : Z := nth (Z.to_nat i) b64_code 0.

Fixpoint index_of (c : Z) (l : list Z) (i : Z) : option Z :=
  match l with
  | [] => None
  | x :: l' => if x =? c then Some i else index_of c l' (i + 1)
  end.

(** [revLookup[c]]: the position of [c] in the code, with the URL-safe
    ['-'] and ['_'] as 62 and 63.  An entry that was never set is
    [undefined], which the bit operators read as 0. *)
Definition revLookup (c : Z) : Z :=
  match index_of c b64_code 0 with
  | Some i => i
  | None => if c =? 45 then 62 else if c =? 95 then 63 else 0
  end.

Definition tripletToBase64 (num : Z) : jsstring :=
  [ lookup_code (Z.land (Z.shiftr num 18) 0x3F);
    lookup_code (Z.land (Z.shiftr num 12) 0x3F);
    lookup_code (Z.land (Z.shiftr num 6) 0x3F);
    lookup_code (Z.land num 0x3F) ].

(** [fromByteArray]: three bytes at a time, then the one or two bytes
    left over with their placeholders. *)
Fixpoint fromByteArray (uint8 : list byte) : jsstring :=
  match uint8 with
  | [] => []
  | [b1] =>
      let tmp := b2z b1 in
      [ lookup_code (Z.shiftr tmp 2); lookup_code (Z.land (Z.shiftl tmp 4) 0x3F);
        b64_pad; b64_pad ]
  | [b1; b2] =>
      let tmp := Z.shiftl (b2z b1) 8 + b2z b2 in
      [ lookup_code (Z.shiftr tmp 10); lookup_code (Z.land (Z.shiftr tmp 4) 0x3F);
        lookup_code (Z.land (Z.shiftl tmp 2) 0x3F); b64_pad ]
  | b1 :: b2 :: b3 :: rest =>
      let tmp := Z.land (Z.shiftl (b2z b1) 16) 0xFF0000
                 + Z.land (Z.shiftl (b2z b2) 8) 0xFF00
                 + Z.land (b2z b3) 0xFF in
      tripletToBase64 tmp ++ fromByteArray rest
  end.

(** [Buffer.from(bytes).toString('base64')]. *)
Definition Buffer_toString_base64 (bytes : list byte) : jsstring :=
  fromByteArray bytes.

(** The characters [base64clean] keeps: [/[^+/0-9A-Za-z-_]/g] are removed. *)
Definition b64_char (c : Z) : bool :=
  (c =? 43) || (c =? 47) || ((48 <=? c) && (c <=? 57))
  || ((65 <=? c) && (c <=? 90)) || ((97 <=? c) && (c <=? 122))
  || (c =? 45) || (c =? 95).

(** The prefix of [s] before its first ['=']. *)
Fixpoint before_pad (s : jsstring) : jsstring :=
  match s with
  | [] => []
  | c :: s' => if c =? b64_pad then [] else c :: before_pad s'
  end.

(** [base64clean]: cut at the first ['='], drop every character outside
    the alphabet (which covers the [trim]), give up on fewer than two
    characters, and pad with ['='] to a multiple of four. *)
Definition base64clean (s : jsstring) : jsstring :=
  let s1 := List.filter b64_char (before_pad s) in
  if (length s1 <? 2)%nat then []
  else s1 ++ repeat b64_pad ((4 - length s1 mod 4) mod 4)%nat.

(** The loop and the tail of [toByteArray], over the characters before
    the first placeholder: whole groups of four give three bytes, three
    left-over characters two bytes, two left-over characters one byte. *)
Fixpoint decode_groups (v : jsstring) : list byte :=
  match v with
  | c1 :: c2 :: c3 :: c4 :: rest =>
      let tmp := Z.lor (Z.lor (Z.lor (Z.shiftl (revLookup c1) 18)
                                     (Z.shiftl (revLookup c2) 12))
                              (Z.shiftl (revLookup c3) 6))
                       (revLookup c4) in
      z2b (Z.land (Z.shiftr tmp 16) 0xFF)
      :: z2b (Z.land (Z.shiftr tmp 8) 0xFF)
      :: z2b (Z.land tmp 0xFF)
      :: decode_groups rest
  | [c1; c2; c3] =>
      let tmp := Z.lor (Z.lor (Z.shiftl (revLookup c1) 10)
                              (Z.shiftl (revLookup c2) 4))
                       (Z.shiftr (revLookup c3) 2) in
      [ z2b (Z.land (Z.shiftr tmp 8) 0xFF); z2b (Z.land tmp 0xFF) ]
  | [c1; c2] =>
      let tmp := Z.lor (Z.shiftl (revLookup c1) 2)
                       (Z.shiftr (revLookup c2) 4) in
      [ z2b (Z.land tmp 0xFF) ]
  | _ => []
  end.

(** [toByteArray]: throws ([None]) unless the length is a multiple of 4. *)
Definition toByteArray (b64 : jsstring) : option (list byte) :=
  if (length b64 mod 4 =? 0)%nat then Some (decode_groups (before_pad b64))
  else None.

(** [Buffer.from(s, 'base64')]. *)
Definition Buffer_from_base64 (s : jsstring) : option (list byte) :=
  toByteArray (base64clean s).

(** ** TextEncoder and TextDecoder

    [new TextEncoder().encode(s)] converts [s] to scalar values (an
    unpaired surrogate becomes U+FFFD) and writes them as UTF-8.
    [new TextDecoder().decode(bytes)] runs the UTF-8 decoder in
    replacement mode, drops one leading U+FEFF (the default
    [ignoreBOM = false]) and returns the scalar values as UTF-16. *)

Definition is_high_surrogate (c : Z) : bool := (0xD800 <=? c) && (c <=? 0xDBFF).
Definition is_low_surrogate (c : Z) : bool := (0xDC00 <=? c) && (c <=? 0xDFFF).
Definition is_surrogate (c : Z) : bool := (0xD800 <=? c) && (c <=? 0xDFFF).

(** A Unicode scalar value: a code point that is no surrogate. *)
Definition is_scalar (cp : Z) : bool :=
  (0 <=? cp) && (cp <? 0x110000) && negb (is_surrogate cp).

(** Converting a string to scalar values: a surrogate pair is one
    supplementary code point, a surrogate on its own is U+FFFD. *)
Fixpoint to_scalars (s : jsstring) : list Z :=
  match s with
  | [] => []
  | c :: s' =>
      if is_high_surrogate c then
        match s' with
        | d :: s'' =>
            if is_low_surrogate d
            then (0x10000 + Z.shiftl (c - 0xD800) 10 + (d - 0xDC00)) :: to_scalars s''
            else 0xFFFD :: to_scalars s'
        | [] => [0xFFFD]
        end
      else if is_low_surrogate c then 0xFFFD :: to_scalars s'
      else c :: to_scalars s'
  end.

(** [String.prototype.isWellFormed]: no unpaired surrogate. *)
Fixpoint isWellFormed (s : jsstring) : bool :=
  match s with
  | [] => true
  | c :: s' =>
      if is_high_surrogate c then
        match s' with
        | d :: s'' => is_low_surrogate d && isWellFormed s''
        | [] => false
        end
      else negb (is_low_surrogate c) && isWellFormed s'
  end.

(** The UTF-8 encoder's handler for one scalar value. *)
Definition utf8_encode_scalar (cp : Z) : list byte :=
  if cp <=? 0x7F then [z2b cp]
  else if cp <=? 0x7FF then
    [ z2b (Z.shiftr cp 6 + 0xC0); z2b (Z.lor 0x80 (Z.land cp 0x3F)) ]
  else if cp <=? 0xFFFF then
    [ z2b (Z.shiftr cp 12 + 0xE0);
      z2b (Z.lor 0x80 (Z.land (Z.shiftr cp 6) 0x3F));
      z2b (Z.lor 0x80 (Z.land cp 0x3F)) ]
  else
    [ z2b (Z.shiftr cp 18 + 0xF0);
      z2b (Z.lor 0x80 (Z.land (Z.shiftr cp 12) 0x3F));
      z2b (Z.lor 0x80 (Z.land (Z.shiftr cp 6) 0x3F));
      z2b (Z.lor 0x80 (Z.land cp 0x3F)) ].

Definition TextEncoder_encode (s : jsstring) : list byte :=
  flat_map utf8_encode_scalar (to_scalars s).

(** The state of the UTF-8 decoder. *)
Record utf8_decoder : Type := mk_utf8_decoder
  { code_point : Z; bytes_seen : Z; bytes_needed : Z;
    lower_boundary : Z; upper_boundary : Z }.

Definition utf8_decoder_init : utf8_decoder :=
  mk_utf8_decoder 0 0 0 0x80 0xBF.

(** The handler when no byte is pending: a lead byte opens a sequence,
    an ASCII byte is itself, anything else is an error (U+FFFD). *)
Definition utf8_lead (b : Z) : utf8_decoder * list Z :=
  if b <=? 0x7F then (utf8_decoder_init, [b])
  else if (0xC2 <=? b) && (b <=? 0xDF) then
    (mk_utf8_decoder (Z.land b 0x1F) 0 1 0x80 0xBF, [])
  else if (0xE0 <=? b) && (b <=? 0xEF) then
    (mk_utf8_decoder (Z.land b 0xF) 0 2
       (if b =? 0xE0 then 0xA0 else 0x80) (if b =? 0xED then 0x9F else 0xBF), [])
  else if (0xF0 <=? b) && (b <=? 0xF4) then
    (mk_utf8_decoder (Z.land b 0x7) 0 3
       (if b =? 0xF0 then 0x90 else 0x80) (if b =? 0xF4 then 0x8F else 0xBF), [])
  else (utf8_decoder_init, [0xFFFD]).

(** The handler for one byte.  A byte outside the boundaries ends the
    pending sequence with an error and is itself handled again. *)
Definition utf8_handler (st : utf8_decoder) (b : Z) : utf8_decoder * list Z :=
  if bytes_needed st =? 0 then utf8_lead b
  else if negb ((lower_boundary st <=? b) && (b <=? upper_boundary st)) then
    let '(st', out) := utf8_lead b in (st', 0xFFFD :: out)
  else
    let cp := Z.lor (Z.shiftl (code_point st) 6) (Z.land b 0x3F) in
    if bytes_seen st + 1 =? bytes_needed st
    then (utf8_decoder_init, [cp])
    else (mk_utf8_decoder cp (bytes_seen st + 1) (bytes_needed st) 0x80 0xBF, []).

(** Running the decoder to the end of the queue; a sequence still
    pending there is an error. *)
Fixpoint utf8_decode_from (st : utf8_decoder) (bytes : list byte) : list Z :=
  match bytes with
  | [] => if bytes_needed st =? 0 then [] else [0xFFFD]
  | b :: bytes' =>
      let '(st', out) := utf8_handler st (b2z b) in
      out ++ utf8_decode_from st' bytes'
  end.

Definition utf8_decode (bytes : list byte) : list Z :=
  utf8_decode_from utf8_decoder_init bytes.

(** One leading byte order mark is not part of the output. *)
Definition strip_BOM (cps : list Z) : list Z :=
  match cps with
  | cp :: cps' => if cp =? 0xFEFF then cps' else cps
  | [] => []
  end.

(** A scalar value as UTF-16 code units. *)
Definition utf16_of_scalar (cp : Z) : jsstring :=
  if cp <? 0x10000 then [cp]
  else [ 0xD800 + Z.shiftr (cp - 0x10000) 10; 0xDC00 + Z.land (cp - 0x10000) 0x3FF ].

Definition TextDecoder_decode (bytes : list byte) : jsstring :=
  flat_map utf16_of_scalar (strip_BOM (utf8_decode bytes)).

(** ** Exceptions and the state the program runs in *)

Inductive exn : Type :=
  | OperationError        (* Web Crypto: the operation failed *)
  | InvalidAccessError    (* Web Crypto: the key does not allow the use *)
  | RangeError
  | TypeError
  | SyntaxError           (* JSON.parse *)
  | Error (message : jsstring).

Inductive result (A : Type) : Type :=
  | Ok (a : A)
  | Throw (e : exn).
Arguments Ok {A} a.
Arguments Throw {A} e.

(** The strings ['bitcoin'] and ['testnet'] of [WalletData.network]. *)
Inductive Network : Type := bitcoin | testnet.

(** [bitcoin.networks.bitcoin] and [bitcoin.networks.testnet]. *)
Inductive NetworkParams : Type := networks_bitcoin | networks_testnet.

(** [interface WalletData]. *)
Record WalletData : Type := mkWalletData
  { mnemonic : jsstring;
    address : jsstring;
    publicKey : jsstring;
    network : Network }.

(** [type AppState]. *)
Inductive AppState : Type := onboarding | create | import | locked | dashboard.

(** The [useState] cells of [App] that the handlers read or write (the
    display-only cells [isPasswordVisible], [copied], [balance] and
    [isRefreshing] are left out). *)
Record AppModel : Type := mkAppModel
  { appState : AppState;
    password : jsstring;
    confirmPassword : jsstring;
    mnemonicCell : jsstring;
    wallet : option WalletData;
    error : jsstring }.

(** What a call can read and change: [localStorage], the stream of bytes
    [crypto.getRandomValues] will hand out next, and the component. *)
Record World : Type := mkWorld
  { localStorage : gmap jsstring jsstring;
    csprng : nat -> byte;
    component : AppModel }.

(** A computation that may throw and may change the world; the changes
    made before a throw stay. *)
Definition M (A : Type) : Type := World -> result A * World.

Definition ret {A} (a : A) : M A := fun w => (Ok a, w).
Definition throw {A} (e : exn) : M A := fun w => (Throw e, w).
Definition bind {A B} (c : M A) (k : A -> M B) : M B :=
  fun w => match c w with
           | (Ok a, w') => k a w'
           | (Throw e, w') => (Throw e, w')
           end.
Definition try_catch {A} (c : M A) (handler : exn -> M A) : M A :=
  fun w => match c w with
           | (Ok a, w') => (Ok a, w')
           | (Throw e, w') => handler e w'
           end.
Definition of_option {A} (e : exn) (o : option A) : M A :=
  match o with Some a => ret a | None => throw e end.
Definition of_result {A} (r : result A) : M A :=
  match r with Ok a => ret a | Throw e => throw e end.

Notation "'let*' x ':=' c 'in' k" := (bind c (fun x => k))
  (at level 10, x name, c at level 100, k at level 200).
Notation "c ';;;' k" := (bind c (fun _ => k))
  (at level 100, k at level 200, right associativity).

(** [crypto.getRandomValues(new Uint8Array(n))]: the next [n] bytes. *)
Definition getRandomValues (n : nat) : M (list byte) :=
  fun w => (Ok (List.map (csprng w) (seq 0 n)),
            mkWorld (localStorage w) (fun i => csprng w (n + i)%nat) (component w)).

(** ** Web Crypto

    The primitives below SHA-256 and the AES block cipher are not
    computed: the hash, the counter-mode keystream and the
    authentication tag are the three operations of a [WebCrypto]
    implementation.  HMAC, PBKDF2 and the AES-GCM framing are written
    out over them. *)

Class WebCrypto : Type :=
  { (** SHA-256 of a message. *)
    SHA256 : list byte -> list byte;
    (** GCTR: the input xored with the AES-CTR keystream of key and IV. *)
    GCTR : list byte -> list byte -> list byte -> list byte;
    (** The 128-bit tag over a ciphertext (no additional data). *)
    GTAG : list byte -> list byte -> list byte -> list byte }.

(** What every implementation guarantees. *)
Class WebCryptoLaws (wc : WebCrypto) : Prop :=
  { SHA256_length : forall m, length (SHA256 m) = 32%nat;
    GCTR_length : forall k iv p, length (GCTR k iv p) = length p;
    GCTR_involutive : forall k iv p, GCTR k iv (GCTR k iv p) = p;
    GTAG_length : forall k iv c, length (GTAG k iv c) = 16%nat }.

Section WebCryptoOps.
Context {wc : WebCrypto}.

Definition xor_byte (a b : byte) : byte := z2b (Z.lxor (b2z a) (b2z b)).

Fixpoint xor_bytes (a b : list byte) : list byte :=
  match a, b with
  | x :: a', y :: b' => xor_byte x y :: xor_bytes a' b'
  | _, _ => []
  end.

(** HMAC-SHA-256 (block size 64): a key longer than a block is hashed,
    a shorter one is filled up with zero bytes. *)
Definition hmac_key (key : list byte) : list byte :=
  let k0 := if (64 <? length key)%nat then SHA256 key else key in
  k0 ++ repeat Byte.x00 (64 - length k0).

Definition HMAC_SHA256 (key msg : list byte) : list byte :=
  let k := hmac_key key in
  SHA256 (List.map (xor_byte Byte.x5c) k ++ SHA256 (List.map (xor_byte Byte.x36) k ++ msg)).

(** [INT(i)]: four bytes, most significant first. *)
Definition be32 (i : Z) : list byte :=
  [ z2b (Z.shiftr i 24); z2b (Z.shiftr i 16); z2b (Z.shiftr i 8); z2b i ].

(** PBKDF2's [F]: the xor of [c] chained HMACs. *)
Definition pbkdf2_F (pw salt : list byte) (c : N) (i : Z) : list byte :=
  let u1 := HMAC_SHA256 pw (salt ++ be32 i) in
  snd (N.iter (c - 1)
         (fun '(u, t) => let u' := HMAC_SHA256 pw u in (u', xor_bytes t u'))
         (u1, u1)).

(** PBKDF2-HMAC-SHA-256 with [dkLen] bytes of output. *)
Definition PBKDF2 (pw salt : list byte) (c : N) (dkLen : nat) : list byte :=
  firstn dkLen
    (flat_map (fun i => pbkdf2_F pw salt c (Z.of_nat i)) (seq 1 ((dkLen + 31) / 32))).

Inductive KeyUsage : Type := usage_encrypt | usage_decrypt | usage_deriveKey.
Inductive KeyAlgorithm : Type := alg_PBKDF2 | alg_AES_GCM.

Record CryptoKey : Type := mkCryptoKey
  { key_algorithm : KeyAlgorithm;
    key_data : list byte;
    key_usages : list KeyUsage }.

Definition usage_eqb (a b : KeyUsage) : bool :=
  match a, b with
  | usage_encrypt, usage_encrypt | usage_decrypt, usage_decrypt
  | usage_deriveKey, usage_deriveKey => true
  | _, _ => false
  end.

Definition has_usage (u : KeyUsage) (k : CryptoKey) : bool :=
  existsb (usage_eqb u) (key_usages k).

(** [subtle.importKey('raw', keyData, 'PBKDF2', false, usages)]. *)
Definition importKey_raw_PBKDF2 (keyData : list byte) (usages : list KeyUsage) : M CryptoKey :=
  ret (mkCryptoKey alg_PBKDF2 keyData usages).

(** [subtle.deriveKey({name: 'PBKDF2', salt, iterations, hash: 'SHA-256'},
    baseKey, {name: 'AES-GCM', length}, false, usages)]. *)
Definition deriveKey_PBKDF2_AES_GCM (salt : list byte) (iterations : N)
    (baseKey : CryptoKey) (length_bits : nat) (usages : list KeyUsage) : M CryptoKey :=
  match key_algorithm baseKey with
  | alg_PBKDF2 =>
      if has_usage usage_deriveKey baseKey
      then ret (mkCryptoKey alg_AES_GCM
                  (PBKDF2 (key_data baseKey) salt iterations (length_bits / 8)) usages)
      else throw InvalidAccessError
  | alg_AES_GCM => throw InvalidAccessError
  end.

(** [subtle.encrypt({name: 'AES-GCM', iv}, key, data)]: the ciphertext
    followed by its tag. *)
Definition encrypt_AES_GCM (iv : list byte) (key : CryptoKey) (data : list byte) : M (list byte) :=
  match key_algorithm key with
  | alg_AES_GCM =>
      if has_usage usage_encrypt key
      then let c := GCTR (key_data key) iv data in
           ret (c ++ GTAG (key_data key) iv c)
      else throw InvalidAccessError
  | alg_PBKDF2 => throw InvalidAccessError
  end.

Fixpoint bytes_eqb (a b : list byte) : bool :=
  match a, b with
  | [], [] => true
  | x :: a', y :: b' => Byte.eqb x y && bytes_eqb a' b'
  | _, _ => false
  end.

(** [subtle.decrypt({name: 'AES-GCM', iv}, key, data)]: an input shorter
    than the tag, or whose last 16 bytes are not the tag of what
    precedes them, is an OperationError; nothing is decrypted then. *)
Definition decrypt_AES_GCM (iv : list byte) (key : CryptoKey) (data : list byte) : M (list byte) :=
  match key_algorithm key with
  | alg_AES_GCM =>
      if has_usage usage_decrypt key then
        if (length data <? 16)%nat then throw OperationError
        else
          let c := firstn (length data - 16) data in
          let t := skipn (length data - 16) data in
          if bytes_eqb t (GTAG (key_data key) iv c)
          then ret (GCTR (key_data key) iv c)
          else throw OperationError
      else throw InvalidAccessError
  | alg_PBKDF2 => throw InvalidAccessError
  end.

End WebCryptoOps.

(** The hundred thousand rounds are never run by a proof. *)
Strategy 1000 [pbkdf2_F PBKDF2].
Arguments PBKDF2 : simpl never.
Arguments pbkdf2_F : simpl never.

(** ** Strings of the source *)

(** [s.split(sep)] for a separator of one character. *)
Fixpoint split_on (sep : Z) (s : jsstring) : list jsstring :=
  match s with
  | [] => [[]]
  | c :: s' =>
      if c =? sep then [] :: split_on sep s'
      else match split_on sep s' with
           | h :: t => (c :: h) :: t
           | [] => [[c]]
           end
  end.

(** [words.join(sep)]. *)
Fixpoint join_with (sep : Z) (words : list jsstring) : jsstring :=
  match words with
  | [] => []
  | [w] => w
  | w :: ws => w ++ sep :: join_with sep ws
  end.

Fixpoint jsstring_eqb (a b : jsstring) : bool :=
  match a, b with
  | [], [] => true
  | x :: a', y :: b' => (x =? y) && jsstring_eqb a' b'
  | _, _ => false
  end.

Definition is_digit (c : Z) : bool := (48 <=? c) && (c <=? 57).

(** [parseInt(s, 10)] on a string of decimal digits. *)
Definition parseInt (s : jsstring) : Z :=
  fold_left (fun acc c => 10 * acc + (c - 48)) s 0.

Definition hex_digit (n : Z) : Z := nth (Z.to_nat n) (str "0123456789abcdef") 0.

(** [Buffer.from(bytes).toString('hex')]. *)
Definition Buffer_toString_hex (bytes : list byte) : jsstring :=
  flat_map (fun b => [hex_digit (Z.shiftr (b2z b) 4); hex_digit (Z.land (b2z b) 0xF)]) bytes.

(** ** The bip39, bip32 and bitcoinjs-lib interface

    [createWallet] calls three libraries.  Their hashing and elliptic
    curve arithmetic is not computed: the seed function, the master
    node, the child derivation and the address encoding are the
    operations of a [BitcoinLibs] implementation.  The path walk of
    [derivePath] is written out over them. *)

Class BitcoinLibs : Type :=
  { (** bip39's English word list. *)
    wordlist : list jsstring;
    (** [bip39.mnemonicToSeed(mnemonic)]: PBKDF2-HMAC-SHA-512 of the
        phrase; defined on every string. *)
    mnemonicToSeed : jsstring -> list byte;
    (** [BIP32Interface]. *)
    HDNode : Type;
    (** [bip32.fromSeed(seed, network)]: throws on a seed of the wrong
        size or a master key outside the curve order. *)
    fromSeed : list byte -> NetworkParams -> result HDNode;
    (** [node.derive(index)] for a 32-bit index (an invalid child key
        moves on to the next index inside the library). *)
    derive : HDNode -> Z -> HDNode;
    node_publicKey : HDNode -> list byte;
    node_parentFingerprint : HDNode -> Z;
    (** [bitcoin.payments.p2wpkh({pubkey, network}).address]. *)
    p2wpkh_address : list byte -> NetworkParams -> option jsstring }.

Class BitcoinLibsLaws (bl : BitcoinLibs) : Prop :=
  { wordlist_length : length wordlist = 2048%nat;
    wordlist_NoDup : List.NoDup wordlist;
    wordlist_no_space : forall w, In w wordlist -> ~ In 32 w;
    (** A node built from a seed is a master node. *)
    fromSeed_master : forall seed net root,
      fromSeed seed net = Ok root -> node_parentFingerprint root = 0 }.

Section Bip32Path.
Context {bl : BitcoinLibs}.

(** [0x80000000]. *)
Definition HIGHEST_BIT : Z := 0x80000000.

(** One step of a path: an index, hardened or not. *)
Inductive PathStep : Type :=
  | Hardened (index : Z)
  | Normal (index : Z).

(** A path segment [\d+'?]. *)
Definition parse_segment (seg : jsstring) : option PathStep :=
  match rev seg with
  | [] => None
  | c :: digits_rev =>
      if c =? 39 (* ' *) then
        match digits_rev with
        | [] => None
        | _ => if forallb is_digit digits_rev
               then Some (Hardened (parseInt (rev digits_rev))) else None
        end
      else if forallb is_digit seg then Some (Normal (parseInt seg)) else None
  end.

Fixpoint parse_segments (segs : list jsstring) : option (list PathStep) :=
  match segs with
  | [] => Some []
  | seg :: segs' =>
      match parse_segment seg, parse_segments segs' with
      | Some st, Some sts => Some (st :: sts)
      | _, _ => None
      end
  end.

(** The steps of a path accepted by [/^(m\/)?(\d+'?\/)*\d+'?$/], and
    whether it starts at the master node. *)
Definition parse_path (path : jsstring) : option (bool * list PathStep) :=
  let splitPath := split_on 47 (* / *) path in
  let '(master, segs) :=
    match splitPath with
    | m :: rest => if jsstring_eqb m (str "m") then (true, rest) else (false, splitPath)
    | [] => (false, splitPath)
    end in
  match segs with
  | [] => None
  | _ => option_map (pair master) (parse_segments segs)
  end.

(** [deriveHardened(index)] wants a 31-bit index, [derive(index)] a
    32-bit one. *)
Definition derive_step (prevHd : result HDNode) (st : PathStep) : result HDNode :=
  match prevHd with
  | Throw e => Throw e
  | Ok hd =>
      match st with
      | Hardened index =>
          if (0 <=? index) && (index <? HIGHEST_BIT)
          then Ok (derive hd (index + HIGHEST_BIT)) else Throw TypeError
      | Normal index =>
          if (0 <=? index) && (index <? 2 * HIGHEST_BIT)
          then Ok (derive hd index) else Throw TypeError
      end
  end.

(** [node.derivePath(path)]. *)
Definition derivePath (node : HDNode) (path : jsstring) : result HDNode :=
  match parse_path path with
  | None => Throw TypeError
  | Some (master, steps) =>
      if master && negb (node_parentFingerprint node =? 0)
      then Throw TypeError   (* Expected master, got child *)
      else fold_left derive_step steps (Ok node)
  end.

End Bip32Path.

(** ** bip39's mnemonic functions *)

Section Bip39.
Context {wc : WebCrypto} {bl : BitcoinLibs}.

(** The eight bits of a byte, most significant first. *)
Definition bits_of_byte (b : byte) : list bool :=
  List.map (fun i => Z.testbit (b2z b) i) [7; 6; 5; 4; 3; 2; 1; 0].

Definition bytesToBinary (bytes : list byte) : list bool :=
  flat_map bits_of_byte bytes.

(** A group of bits read as a binary number. *)
Definition binaryToNat (bits : list bool) : nat :=
  fold_left (fun acc (b : bool) => (2 * acc + (if b then 1 else 0))%nat) bits 0%nat.

(** The [width] low bits of [n], most significant first. *)
Fixpoint natToBinary (width n : nat) : list bool :=
  match width with
  | O => []
  | S width' => natToBinary width' (n / 2) ++ [Nat.odd n]
  end.

(** Cuts [l] into groups of [n] (the last one may be shorter); [fuel]
    bounds the number of groups. *)
Fixpoint chunks {A} (fuel n : nat) (l : list A) : list (list A) :=
  match fuel, l with
  | O, _ | _, [] => []
  | S fuel', _ => firstn n l :: chunks fuel' n (skipn n l)
  end.

Definition groups_of {A} (n : nat) (l : list A) : list (list A) :=
  chunks (length l) n l.

Fixpoint indexOf (w : jsstring) (l : list jsstring) : option nat :=
  match l with
  | [] => None
  | x :: l' => if jsstring_eqb x w then Some O else option_map S (indexOf w l')
  end.

Fixpoint bits_eqb (a b : list bool) : bool :=
  match a, b with
  | [], [] => true
  | x :: a', y :: b' => Bool.eqb x y && bits_eqb a' b'
  | _, _ => false
  end.

(** Modelled from the spec: bip39's [deriveChecksumBits] is not under
    src/; section 4.1 has the checksum as the first bits of the
    entropy's hash, one bit for every 32 bits of entropy. *)
Definition deriveChecksumBits (entropy : list byte) : list bool :=
  firstn (length entropy * 8 / 32) (bytesToBinary (SHA256 entropy)).

(** Modelled from the spec: bip39's [entropyToMnemonic] is not under
    src/; section 4.1 maps entropy followed by checksum, in groups of
    11 bits, to word list indices, and the words are separated by one
    space. *)
Definition entropyToMnemonic (entropy : list byte) : jsstring :=
  let bits := bytesToBinary entropy ++ deriveChecksumBits entropy in
  join_with 32 (List.map (fun g => nth (binaryToNat g) wordlist []) (groups_of 11 bits)).

(** Modelled from the spec: [bip39.generateMnemonic()] is not under
    src/; section 4.1 draws 128 bits of entropy from the secure random
    source and encodes them as 12 words. *)
Definition bip39_generateMnemonic : M jsstring :=
  let* entropy := getRandomValues 16 in
  ret (entropyToMnemonic entropy).

Fixpoint words_to_bits (words : list jsstring) : option (list bool) :=
  match words with
  | [] => Some []
  | w :: ws =>
      match indexOf w wordlist, words_to_bits ws with
      | Some i, Some bits => Some (natToBinary 11 i ++ bits)
      | _, _ => None
      end
  end.

(** Modelled from the spec: [bip39.validateMnemonic] is not under src/;
    sections 3 and 4.1 accept 12, 15, 18, 21 or 24 words of the list
    whose checksum bits equal the checksum re-derived from the entropy
    bits, and answer false for anything else. *)
Definition bip39_validateMnemonic (phrase : jsstring) : bool :=
  let words := split_on 32 phrase in
  let n := length words in
  if negb ((n mod 3 =? 0) && (12 <=? n) && (n <=? 24))%nat then false
  else
    match words_to_bits words with
    | None => false
    | Some bits =>
        let dividerIndex := (length bits / 33 * 32)%nat in
        let entropyBits := firstn dividerIndex bits in
        let checksumBits := skipn dividerIndex bits in
        let entropy := List.map (fun g => z2b (Z.of_nat (binaryToNat g)))
                         (groups_of 8 entropyBits) in
        bits_eqb (deriveChecksumBits entropy) checksumBits
    end.

End Bip39.

(** ** JSON

    [JSON.stringify] of a [WalletData] object and [JSON.parse] of a text
    that is stored as one ([None]: SyntaxError). *)

Class JsonLib : Type :=
  { JSON_stringify : WalletData -> jsstring;
    JSON_parse : jsstring -> option WalletData }.

(** The strings of a record are made of code units. *)
Definition wallet_valid (wd : WalletData) : bool :=
  js_valid (mnemonic wd) && js_valid (address wd) && js_valid (publicKey wd).

Class JsonLaws (js : JsonLib) : Prop :=
  { JSON_parse_stringify : forall w,
      wallet_valid w = true -> JSON_parse (JSON_stringify w) = Some w;
    (** The text of an object is made of code units and opens with a brace. *)
    JSON_stringify_valid : forall w, js_valid (JSON_stringify w) = true;
    JSON_stringify_brace : forall w, exists s, JSON_stringify w = 123 :: s;
    (** Well-formed [JSON.stringify]: an unpaired surrogate is written
        as an escape. *)
    JSON_stringify_wellFormed : forall w, isWellFormed (JSON_stringify w) = true }.

(** ** class WalletService *)

Module WalletService.
Section Methods.
Context {wc : WebCrypto} {bl : BitcoinLibs}.

(** [static generateMnemonic(): string]. *)
Definition generateMnemonic : M jsstring :=
  bip39_generateMnemonic.

(** The path of [createWallet]'s template literal. *)
Definition wallet_path (network : Network) : jsstring :=
  str "m/84'/" ++ (match network with bitcoin => str "0" | testnet => str "1" end)
  ++ str "'/0'/0/0".

(** [static async createWallet(mnemonic, network = 'bitcoin')]; an
    omitted [network] is [None]. *)
Definition createWallet (mnemonic : jsstring) (network : option Network) : M WalletData :=
  let network := match network with Some n => n | None => bitcoin end in
  let seed := mnemonicToSeed mnemonic in
  let bitcoinNetwork :=
    match network with bitcoin => networks_bitcoin | testnet => networks_testnet end in
  let* root := of_result (fromSeed seed bitcoinNetwork) in
  let path := wallet_path network in
  let* child := of_result (derivePath root path) in
  match p2wpkh_address (node_publicKey child) bitcoinNetwork with
  | None | Some [] => throw (Error (str "Failed to generate address"))
  | Some address =>
      ret (mkWalletData mnemonic address
             (Buffer_toString_hex (node_publicKey child)) network)
  end.

(** [static validateMnemonic(mnemonic): boolean]. *)
Definition validateMnemonic (mnemonic : jsstring) : bool :=
  bip39_validateMnemonic mnemonic.

(** [static async encryptData(data, password)]. *)
Definition encryptData (data password : jsstring) : M jsstring :=
  let* salt := getRandomValues 16 in
  let* keyMaterial :=
    importKey_raw_PBKDF2 (TextEncoder_encode password) [usage_deriveKey] in
  let* key :=
    deriveKey_PBKDF2_AES_GCM salt 100000 keyMaterial 256 [usage_encrypt] in
  let* iv := getRandomValues 12 in
  let* encrypted := encrypt_AES_GCM iv key (TextEncoder_encode data) in
  let combined := Uint8Array_new (length salt + length iv + length encrypted) in
  let* combined := of_option RangeError (Uint8Array_set combined salt 0) in
  let* combined := of_option RangeError (Uint8Array_set combined iv (length salt)) in
  let* combined :=
    of_option RangeError (Uint8Array_set combined encrypted (length salt + length iv)) in
  ret (Buffer_toString_base64 combined).

(** [static async decryptData(encryptedBase64, password)]. *)
Definition decryptData (encryptedBase64 password : jsstring) : M jsstring :=
  let* combined :=
    of_option (Error (str "Invalid string. Length must be a multiple of 4"))
      (Buffer_from_base64 encryptedBase64) in
  let salt := slice combined 0 16 in
  let iv := slice combined 16 28 in
  let data := slice_from combined 28 in
  let* keyMaterial :=
    importKey_raw_PBKDF2 (TextEncoder_encode password) [usage_deriveKey] in
  let* key :=
    deriveKey_PBKDF2_AES_GCM salt 100000 keyMaterial 256 [usage_decrypt] in
  let* decrypted := decrypt_AES_GCM iv key data in
  ret (TextDecoder_decode decrypted).

End Methods.
End WalletService.

(** ** The App component *)

Module App.
Import WalletService.
Section Handlers.
Context {wc : WebCrypto} {bl : BitcoinLibs} {js : JsonLib}.

Definition storage_key : jsstring := str "bitguard_wallet".

Definition set_app (f : AppModel -> AppModel) : M unit :=
  fun w => (Ok tt, mkWorld (localStorage w) (csprng w) (f (component w))).

Definition setAppState (v : AppState) : M unit :=
  set_app (fun a => mkAppModel v (password a) (confirmPassword a) (mnemonicCell a) (wallet a) (error a)).
Definition setPassword (v : jsstring) : M unit :=
  set_app (fun a => mkAppModel (appState a) v (confirmPassword a) (mnemonicCell a) (wallet a) (error a)).
Definition setMnemonic (v : jsstring) : M unit :=
  set_app (fun a => mkAppModel (appState a) (password a) (confirmPassword a) v (wallet a) (error a)).
Definition setWallet (v : option WalletData) : M unit :=
  set_app (fun a => mkAppModel (appState a) (password a) (confirmPassword a) (mnemonicCell a) v (error a)).
Definition setError (v : jsstring) : M unit :=
  set_app (fun a => mkAppModel (appState a) (password a) (confirmPassword a) (mnemonicCell a) (wallet a) v).

Definition localStorage_getItem (k : jsstring) : M (option jsstring) :=
  fun w => (Ok (localStorage w !! k), w).
Definition localStorage_setItem (k v : jsstring) : M unit :=
  fun w => (Ok tt, mkWorld (<[k := v]> (localStorage w)) (csprng w) (component w)).
Definition localStorage_removeItem (k : jsstring) : M unit :=
  fun w => (Ok tt, mkWorld (delete k (localStorage w)) (csprng w) (component w)).

(** The state cells as the handler's closure sees them. *)
Definition read_app : M AppModel := fun w => (Ok (component w), w).

(** The messages shown to the user. *)
Definition msg_mismatch : jsstring := str "As senhas n" ++ [227] ++ str "o coincidem".
Definition msg_too_short : jsstring := str "A senha deve ter pelo menos 8 caracteres".
Definition msg_create_failed : jsstring := str "Erro ao criar carteira".
Definition msg_wrong_password : jsstring := str "Senha incorreta".

(** The [useEffect] run on mount. *)
Definition onMount : M unit :=
  let* savedWallet := localStorage_getItem storage_key in
  match savedWallet with
  | None | Some [] => ret tt
  | Some _ => setAppState locked
  end.

(** [handleCreateWallet]. *)
Definition handleCreateWallet : M unit :=
  let* st := read_app in
  if negb (jsstring_eqb (password st) (confirmPassword st)) then setError msg_mismatch
  else if (length (password st) <? 8)%nat then setError msg_too_short
  else
    try_catch
      (let* newMnemonic := generateMnemonic in
       setMnemonic newMnemonic ;;;
       let* newWallet := createWallet newMnemonic None in
       setWallet (Some newWallet) ;;;
       let* encrypted := encryptData (JSON_stringify newWallet) (password st) in
       localStorage_setItem storage_key encrypted ;;;
       setAppState create)
      (fun _ => setError msg_create_failed).

(** [handleUnlock]. *)
Definition handleUnlock : M unit :=
  let* st := read_app in
  let* savedWallet := localStorage_getItem storage_key in
  match savedWallet with
  | None | Some [] => ret tt
  | Some savedWallet =>
      try_catch
        (let* decrypted := decryptData savedWallet (password st) in
         let* walletData := of_option SyntaxError (JSON_parse decrypted) in
         setWallet (Some walletData) ;;;
         setAppState dashboard ;;;
         setError [])
        (fun _ => setError msg_wrong_password)
  end.

(** [handleLogout]. *)
Definition handleLogout : M unit :=
  setWallet None ;;;
  setPassword [] ;;;
  setAppState locked.

(** The confirmed click on the locked screen's wipe button. *)
Definition wipe : M unit :=
  localStorage_removeItem storage_key ;;;
  setAppState onboarding.

End Handlers.
End App.

(** ** Auxiliary definitions for the proofs *)

(** The decoder run over some bytes without reaching the end of the
    queue: the state it is left in and what it has emitted. *)
Fixpoint utf8_run (st : utf8_decoder) (bytes : list byte) : utf8_decoder * list Z :=
  match bytes with
  | [] => (st, [])
  | b :: bytes' =>
      let '(st', out) := utf8_handler st (b2z b) in
      let '(st'', out') := utf8_run st' bytes' in
      (st'', out ++ out')
  end.

Definition utf8_decoder_eqb (a b : utf8_decoder) : bool :=
  (code_point a =? code_point b) && (bytes_seen a =? bytes_seen b)
  && (bytes_needed a =? bytes_needed b) && (lower_boundary a =? lower_boundary b)
  && (upper_boundary a =? upper_boundary b).

(** Encoding a scalar value and running the decoder over the bytes
    emits that value and leaves the decoder in its initial state. *)
Definition utf8_scalar_ok (cp : Z) : bool :=
  if is_scalar cp then
    let '(st, out) := utf8_run utf8_decoder_init (utf8_encode_scalar cp) in
    utf8_decoder_eqb st utf8_decoder_init && jsstring_eqb out [cp]
  else true.

(** [f] holds on the [n] integers from [lo]. *)
Definition check_range (f : Z -> bool) (lo : Z) (n : N) : bool :=
  snd (N.iter n (fun '(z, ok) => (z + 1, ok && f z)) (lo, true)).

(** The string starts with U+FEFF. *)
Definition starts_with_BOM (s : jsstring) : bool :=
  match s with
  | c :: _ => c =? 0xFEFF
  | [] => false
  end.

(** The world after [n] bytes were drawn. *)
Definition drawn (n : nat) (w : World) : World :=
  mkWorld (localStorage w) (fun i => csprng w (n + i)%nat) (component w).

(** The bytes a call of [encryptData] draws: the salt first, then the
    nonce. *)
Definition seal_salt (w : World) : list byte := List.map (csprng w) (seq 0 16).
Definition seal_iv (w : World) : list byte := List.map (csprng w) (seq 16 12).

Section Envelope.
Context {wc : WebCrypto}.

(** The AES-256 key both directions derive from a password and a salt. *)
Definition derived_key (password : jsstring) (salt : list byte) : list byte :=
  PBKDF2 (TextEncoder_encode password) salt 100000 32.

(** The AES-GCM output for a plaintext: ciphertext, then tag. *)
Definition sealed_box (key iv plaintext : list byte) : list byte :=
  GCTR key iv plaintext ++ GTAG key iv (GCTR key iv plaintext).

(** The bytes of the envelope for given salt and nonce. *)
Definition envelope_bytes (data password : jsstring) (salt iv : list byte) : list byte :=
  salt ++ iv ++ sealed_box (derived_key password salt) iv (TextEncoder_encode data).

End Envelope.

(** The parameters [createWallet] picks for a network name. *)
Definition network_params (network : Network) : NetworkParams :=
  match network with bitcoin => networks_bitcoin | testnet => networks_testnet end.

(** BIP44's coin type: 0 for mainnet, 1 for testnet. *)
Definition coin_type (network : Network) : Z :=
  match network with bitcoin => 0 | testnet => 1 end.

Definition is_hardened (st : PathStep) : bool :=
  match st with Hardened _ => true | Normal _ => false end.

(** The node at m/84'/coin'/0'/0/0 under a master node. *)
Definition bip84_child {bl : BitcoinLibs} (root : HDNode) (network : Network) : HDNode :=
  derive (derive (derive (derive (derive root (84 + HIGHEST_BIT))
                                 (coin_type network + HIGHEST_BIT))
                         (0 + HIGHEST_BIT)) 0) 0.

(** The network an omitted argument stands for. *)
Definition network_or_default (network : option Network) : Network :=
  match network with Some n => n | None => bitcoin end.

(** The component after a failed unlock: only the message changes. *)
Definition unlock_failed (a : AppModel) : AppModel :=
  mkAppModel (appState a) (password a) (confirmPassword a) (mnemonicCell a) (wallet a)
    App.msg_wrong_password.

(** The component after a successful unlock. *)
Definition unlocked (a : AppModel) (wd : WalletData) : AppModel :=
  mkAppModel dashboard (password a) (confirmPassword a) (mnemonicCell a) (Some wd) [].

Definition with_component (w : World) (a : AppModel) : World :=
  mkWorld (localStorage w) (csprng w) a.

(** ** A reference implementation of the interfaces

    Small functions that meet the laws of [WebCrypto], [BitcoinLibs] and
    [JsonLib].  They stand in for the libraries where a statement is
    evaluated on a concrete input. *)

Module Reference.

(** The xor of all bytes. *)
Definition digest (m : list byte) : byte := fold_left xor_byte m Byte.x00.

Definition crypto : WebCrypto :=
  {| SHA256 := fun m => repeat (digest m) 32;
     GCTR := fun k iv p => List.map (xor_byte (digest (k ++ iv))) p;
     GTAG := fun k iv c => repeat (digest (k ++ iv ++ c)) 16 |}.

(** Word [i] spells the 11 bits of [i] with the letters a and b. *)
Definition word (i : nat) : jsstring :=
  List.map (fun b : bool => if b then 98 else 97) (natToBinary 11 i).

Definition libs : BitcoinLibs :=
  {| wordlist := List.map word (seq 0 2048);
     mnemonicToSeed := fun m => firstn 64 (TextEncoder_encode m ++ repeat Byte.x00 64);
     HDNode := list Z;
     fromSeed := fun seed _ =>
       if (length seed =? 64)%nat then Ok [] else Throw TypeError;
     derive := fun node index => index :: node;
     node_publicKey := fun node =>
       Byte.x02 :: firstn 32 (List.map z2b node ++ repeat Byte.x00 32);
     node_parentFingerprint := fun node => Z.of_nat (length node);
     p2wpkh_address := fun pubkey net =>
       Some ((match net with
              | networks_bitcoin => str "bc1q"
              | networks_testnet => str "tb1q"
              end) ++ Buffer_toString_hex pubkey) |}.

(** A code unit as four hexadecimal digits, and back. *)
Definition hex4 (c : Z) : jsstring :=
  [ hex_digit ((c / 4096) mod 16); hex_digit ((c / 256) mod 16);
    hex_digit ((c / 16) mod 16); hex_digit (c mod 16) ].

Definition unhex_digit (c : Z) : Z := if is_digit c then c - 48 else c - 87.

Definition unhex4 (g : jsstring) : Z :=
  fold_left (fun acc c => 16 * acc + unhex_digit c) g 0.

Definition encode_string (s : jsstring) : jsstring := flat_map hex4 s.
Definition decode_string (t : jsstring) : jsstring := List.map unhex4 (groups_of 4 t).

(** A record as a brace followed by its four fields, comma separated. *)
Definition stringify (wd : WalletData) : jsstring :=
  123 :: join_with 44
           [ encode_string (mnemonic wd); encode_string (address wd);
             encode_string (publicKey wd);
             match network wd with bitcoin => [48] | testnet => [49] end ].

Definition parse (s : jsstring) : option WalletData :=
  match s with
  | 123 :: rest =>
      match split_on 44 rest with
      | [m; a; p; [n]] =>
          if n =? 48 then
            Some (mkWalletData (decode_string m) (decode_string a) (decode_string p) bitcoin)
          else if n =? 49 then
            Some (mkWalletData (decode_string m) (decode_string a) (decode_string p) testnet)
          else None
      | _ => None
      end
  | _ => None
  end.

Definition json : JsonLib := {| JSON_stringify := stringify; JSON_parse := parse |}.

(** A CSPRNG that counts. *)
Definition counter : nat -> byte := fun i => z2b (Z.of_nat i).

Definition fresh_app : AppModel := mkAppModel onboarding [] [] [] None [].

(** The world of a first visit. *)
Definition world0 : World := mkWorld ∅ counter fresh_app.

(** A record, the password it is sealed under, and the envelope the
    first call of [encryptData] makes of it. *)
Definition sample_record : WalletData :=
  mkWalletData
    (str "abandon abandon abandon abandon abandon abandon abandon abandon abandon abandon abandon about")
    (str "bc1qcr8te4kr609gcawutmrza0j4xv80jy8z306fyu")
    (str "0330d54fd0dd420a6e5f8d3624f5f3482cae350f79d5f0753bf5beef9c2d91af3c")
    bitcoin.

Definition sample_password : jsstring := str "correcthorsebattery".

Definition sample_envelope : jsstring :=
  Buffer_toString_base64
    (envelope_bytes (wc := crypto) (stringify sample_record) sample_password
       (seal_salt world0) (seal_iv world0)).

(** The locked screen over the stored envelope, with [typed] in the
    password field. *)
Definition locked_world (typed : jsstring) : World :=
  mkWorld {[ App.storage_key := sample_envelope ]} counter
    (mkAppModel locked typed [] [] None []).

Definition is_ascii (c : Z) : bool := (0 <=? c) && (c <? 128).

Fixpoint nodupb (l : list jsstring) : bool :=
  match l with
  | [] => true
  | x :: l' => negb (existsb (jsstring_eqb x) l') && nodupb l'
  end.

End Reference.

(** ** More of the component *)

(** The initial values of the [useState] cells. *)
Definition initial_app : AppModel := mkAppModel onboarding [] [] [] None [].

(** The phrase [handleCreateWallet] generates in a world: the mnemonic
    of the next 16 bytes of the CSPRNG. *)
Definition new_phrase {wc : WebCrypto} {bl : BitcoinLibs} (w : World) : jsstring :=
  entropyToMnemonic (List.map (csprng w) (seq 0 16)).

(** The envelope [handleCreateWallet] stores for a record: sealed under
    the password cell with the 28 bytes that follow the entropy. *)
Definition new_envelope {wc : WebCrypto} {js : JsonLib} (w : World) (rec : WalletData) : jsstring :=
  Buffer_toString_base64
    (envelope_bytes (JSON_stringify rec) (password (component w))
       (seal_salt (drawn 16 w)) (seal_iv (drawn 16 w))).

(** The component after a successful [handleCreateWallet]. *)
Definition created (a : AppModel) (phrase : jsstring) (rec : WalletData) : AppModel :=
  mkAppModel create (password a) (confirmPassword a) phrase (Some rec) (error a).

(** The component after [handleCreateWallet] caught an exception thrown
    by [createWallet]. *)
Definition create_failed (a : AppModel) (phrase : jsstring) : AppModel :=
  mkAppModel (appState a) (password a) (confirmPassword a) phrase (wallet a)
    App.msg_create_failed.

Definition with_error (a : AppModel) (msg : jsstring) : AppModel :=
  mkAppModel (appState a) (password a) (confirmPassword a) (mnemonicCell a) (wallet a) msg.

(** Typing into the password field of the locked screen
    ([onChange] calls [setPassword]), then pressing the unlock button. *)
Definition type_and_unlock {wc : WebCrypto} {js : JsonLib} (typed : jsstring) : M unit :=
  App.setPassword typed ;;; App.handleUnlock.

(** The characters [Buffer]'s hex encoder writes. *)
Definition is_lower_hex (c : Z) : bool :=
  ((48 <=? c) && (c <=? 57)) || ((97 <=? c) && (c <=? 102)).

(** A reference implementation of the libraries whose [fromSeed]
    rejects every seed. *)
Definition failing_libs : BitcoinLibs :=
  {| wordlist := wordlist (BitcoinLibs := Reference.libs);
     mnemonicToSeed := mnemonicToSeed (BitcoinLibs := Reference.libs);
     HDNode := list Z;
     fromSeed := fun _ _ => Throw TypeError;
     derive := fun node index => index :: node;
     node_publicKey := node_publicKey (BitcoinLibs := Reference.libs);
     node_parentFingerprint := fun node => Z.of_nat (length node);
     p2wpkh_address := fun _ _ => None |}.

(** The onboarding screen with [pw] typed into the password field and
    [confirm] into the confirmation field. *)
Definition onboarding_world (pw confirm : jsstring) : World :=
  mkWorld ∅ Reference.counter (mkAppModel onboarding pw confirm [] None []).

(** The record the reference libraries derive for the phrase generated
    in [onboarding_world]. *)
Definition reference_record (w : World) : WalletData :=
  mkWalletData (new_phrase (wc := Reference.crypto) (bl := Reference.libs) w)
    (str "bc1q" ++ Buffer_toString_hex
                     (node_publicKey (BitcoinLibs := Reference.libs)
                        (bip84_child (bl := Reference.libs) [] bitcoin)))
    (Buffer_toString_hex
       (node_publicKey (BitcoinLibs := Reference.libs)
          (bip84_child (bl := Reference.libs) [] bitcoin)))
    bitcoin.

(** Reloading the page: the storage stays, the component starts over. *)
Definition restart (w : World) : World :=
  mkWorld (localStorage w) (csprng w) initial_app.

(** ** The screens and their controls *)

(** [setConfirmPassword]. *)
Definition setConfirmPassword (v : jsstring) : M unit :=
  App.set_app (fun a => mkAppModel (appState a) (password a) v (mnemonicCell a) (wallet a)
                          (error a)).

(** What can happen to the page: it is loaded, or one of the [onChange]
    and [onClick] handlers of the JSX runs.  [UnlockPressed] is also the
    Enter key of the locked screen's field; [WipePressed] carries the
    answer given to [confirm]. *)
Inductive Event : Type :=
  | PageLoaded
  | PasswordTyped (v : jsstring)
  | ConfirmPasswordTyped (v : jsstring)
  | VisibilityToggled
  | CreatePressed
  | HaveWalletPressed
  | PhraseSavedPressed
  | UnlockPressed
  | WipePressed (confirmed : bool)
  | LogoutPressed
  | RefreshPressed
  | CopyPressed.

Definition is_some {A} (o : option A) : bool :=
  match o with Some _ => true | None => false end.

(** The controls a render offers: each screen's condition in the JSX,
    [appState === ...] and, for two of them, [&& wallet]. *)
Definition offered (a : AppModel) (e : Event) : bool :=
  match e with
  | PageLoaded => true
  | PasswordTyped _ =>
      match appState a with onboarding | locked => true | _ => false end
  | ConfirmPasswordTyped _ | VisibilityToggled | CreatePressed | HaveWalletPressed =>
      match appState a with onboarding => true | _ => false end
  | PhraseSavedPressed =>
      match appState a with create => is_some (wallet a) | _ => false end
  | UnlockPressed | WipePressed _ =>
      match appState a with locked => true | _ => false end
  | LogoutPressed | RefreshPressed | CopyPressed =>
      match appState a with dashboard => is_some (wallet a) | _ => false end
  end.

(** What an event runs.  A load starts the cells over and runs the
    effect; [VisibilityToggled], [RefreshPressed] and [CopyPressed]
    write only display cells and the clipboard. *)
Definition fire {wc : WebCrypto} {bl : BitcoinLibs} {js : JsonLib} (e : Event) : M unit :=
  match e with
  | PageLoaded => fun w => App.onMount (restart w)
  | PasswordTyped v => App.setPassword v
  | ConfirmPasswordTyped v => setConfirmPassword v
  | VisibilityToggled => ret tt
  | CreatePressed => App.handleCreateWallet
  | HaveWalletPressed => App.setAppState import
  | PhraseSavedPressed => App.setAppState dashboard
  | UnlockPressed => App.handleUnlock
  | WipePressed confirmed => if confirmed then App.wipe else ret tt
  | LogoutPressed => App.handleLogout
  | RefreshPressed => ret tt
  | CopyPressed => ret tt
  end.

(** A session: the events one after the other, each handler run to its
    end before the next event; [None] when an event is not offered by
    the screen it meets. *)
Fixpoint play {wc : WebCrypto} {bl : BitcoinLibs} {js : JsonLib}
    (events : list Event) (w : World) : option World :=
  match events with
  | [] => Some w
  | e :: rest =>
      if offered (component w) e then play rest (snd (fire e w)) else None
  end.

(** Whether [localStorage] holds a non-empty value under the wallet's key. *)
Definition has_envelope (w : World) : bool :=
  match localStorage w !! App.storage_key with
  | Some (_ :: _) => true
  | _ => false
  end.

(** The states whose screens belong to an existing wallet. *)
Definition wallet_screen (s : AppState) : bool :=
  match s with create | locked | dashboard => true | onboarding | import => false end.

(** A session with the reference libraries: a first visit, the same
    password typed twice, a wallet created, the phrase acknowledged, and
    a logout; and the world it ends in. *)
Definition sample_session : list Event :=
  [ PageLoaded; PasswordTyped Reference.sample_password;
    ConfirmPasswordTyped Reference.sample_password; CreatePressed;
    PhraseSavedPressed; LogoutPressed ].

Definition sample_session_end : World :=
  let w := onboarding_world Reference.sample_password Reference.sample_password in
  mkWorld (<[App.storage_key := new_envelope (wc := Reference.crypto) (js := Reference.json)
                                  w (reference_record w)]> ∅)
    (csprng (drawn 44 w))
    (mkAppModel locked [] Reference.sample_password
       (new_phrase (wc := Reference.crypto) (bl := Reference.libs) w) None []).

(** What holds between the events of a session. *)
Definition session_invariant (w : World) : Prop :=
  has_envelope w = wallet_screen (appState (component w))
  /\ (appState (component w) = locked -> wallet (component w) = None)
  /\ (appState (component w) = create -> wallet (component w) <> None).

Import WalletService App.

(** * Lemmas on the platform *)

Lemma b2z_range (b : byte) : 0 <= b2z b < 256.
Proof.
  unfold b2z. pose proof (Byte.to_N_bounded b) as H. lia.
Qed.

Lemma z2b_b2z (b : byte) : z2b (b2z b) = b.
Proof.
  unfold z2b, b2z.
  rewrite Z.mod_small by (pose proof (Byte.to_N_bounded b); lia).
  rewrite N2Z.id, Byte.of_to_N. reflexivity.
Qed.

Lemma b2z_z2b (z : Z) : 0 <= z < 256 -> b2z (z2b z) = z.
Proof.
  intros Hz. unfold z2b, b2z. rewrite Z.mod_small by lia.
  destruct (Byte.of_N (Z.to_N z)) as [b|] eqn:E.
  - apply Byte.to_of_N in E. rewrite E. lia.
  - apply Byte.of_N_None_iff in E. lia.
Qed.

(** A check run over an initial segment of the integers holds on it. *)
Lemma forallb_Z_range (f : Z -> bool) (n : nat) :
  forallb f (List.map Z.of_nat (seq 0 n)) = true ->
  forall z, 0 <= z < Z.of_nat n -> f z = true.
Proof.
  intros H z Hz. rewrite forallb_forall in H. apply H.
  apply in_map_iff. exists (Z.to_nat z). split; [lia|].
  apply in_seq. lia.
Qed.

(** Or-ing a number below [2^n] into a multiple of [2^n] adds it. *)
Lemma lor_add (a lo n : Z) :
  0 <= n -> 0 <= lo < 2 ^ n -> a mod 2 ^ n = 0 -> Z.lor a lo = a + lo.
Proof.
  intros Hn Hlo Ha. symmetry. apply Z.add_nocarry_lor.
  apply Z.bits_inj'. intros i Hi.
  rewrite Z.land_spec, Z.bits_0.
  destruct (Z.lt_ge_cases i n) as [Hlt|Hge].
  - rewrite <- (Z.mod_pow2_bits_low a n i) by lia. rewrite Ha, Z.bits_0. reflexivity.
  - rewrite <- (Z.mod_small lo (2 ^ n)) by lia.
    rewrite Z.mod_pow2_bits_high by lia. apply andb_false_r.
Qed.

Ltac pow2_consts :=
  repeat match goal with
         | |- context [2 ^ ?k] =>
             let v := eval cbv in (2 ^ k) in change (2 ^ k) with v
         | H : context [2 ^ ?k] |- _ =>
             let v := eval cbv in (2 ^ k) in change (2 ^ k) with v in H
         end.

Ltac zlia := pow2_consts; Z.to_euclidean_division_equations; lia.

Lemma lookup_code_facts (i : Z) :
  0 <= i < 64 ->
  revLookup (lookup_code i) = i /\ b64_char (lookup_code i) = true
  /\ (lookup_code i =? b64_pad) = false.
Proof.
  intros Hi.
  assert (H : forallb (fun i => (revLookup (lookup_code i) =? i) && b64_char (lookup_code i)
                                && negb (lookup_code i =? b64_pad))
                (List.map Z.of_nat (seq 0 64)) = true) by (vm_compute; reflexivity).
  pose proof (forallb_Z_range _ _ H i ltac:(lia)) as Hc. cbv beta in Hc.
  apply andb_true_iff in Hc as [Hc H3]. apply andb_true_iff in Hc as [H1 H2].
  apply Z.eqb_eq in H1. apply negb_true_iff in H3. auto.
Qed.

(** The triple of the encoder's main loop, as a number. *)
Lemma encode_tmp (a b c : byte) :
  Z.land (Z.shiftl (b2z a) 16) 0xFF0000 + Z.land (Z.shiftl (b2z b) 8) 0xFF00
  + Z.land (b2z c) 0xFF = b2z a * 65536 + b2z b * 256 + b2z c.
Proof.
  assert (Ha : forall x, 0 <= x < 256 -> Z.land (Z.shiftl x 16) 0xFF0000 = x * 65536).
  { intros x Hx.
    assert (H : forallb (fun x => Z.land (Z.shiftl x 16) 0xFF0000 =? x * 65536)
                  (List.map Z.of_nat (seq 0 256)) = true) by (vm_compute; reflexivity).
    apply Z.eqb_eq. apply (forallb_Z_range _ _ H x). lia. }
  assert (Hb : forall x, 0 <= x < 256 -> Z.land (Z.shiftl x 8) 0xFF00 = x * 256).
  { intros x Hx.
    assert (H : forallb (fun x => Z.land (Z.shiftl x 8) 0xFF00 =? x * 256)
                  (List.map Z.of_nat (seq 0 256)) = true) by (vm_compute; reflexivity).
    apply Z.eqb_eq. apply (forallb_Z_range _ _ H x). lia. }
  rewrite Ha, Hb by apply b2z_range.
  change 0xFF with (Z.ones 8). rewrite Z.land_ones by lia.
  rewrite Z.mod_small by apply b2z_range. reflexivity.
Qed.

(** Four sextets put together by the decoder's main loop. *)
Lemma decode_tmp (s1 s2 s3 s4 : Z) :
  0 <= s1 < 64 -> 0 <= s2 < 64 -> 0 <= s3 < 64 -> 0 <= s4 < 64 ->
  Z.lor (Z.lor (Z.lor (Z.shiftl s1 18) (Z.shiftl s2 12)) (Z.shiftl s3 6)) s4
  = s1 * 262144 + s2 * 4096 + s3 * 64 + s4.
Proof.
  intros H1 H2 H3 H4. rewrite !Z.shiftl_mul_pow2 by lia. pow2_consts.
  rewrite (lor_add (s1 * 262144) (s2 * 4096) 18) by zlia.
  rewrite (lor_add _ (s3 * 64) 12) by zlia.
  rewrite (lor_add _ s4 6) by zlia.
  reflexivity.
Qed.

Ltac land_to_mod :=
  change 0x3F with (Z.ones 6); change 0xFF with (Z.ones 8);
  rewrite ?Z.land_ones by lia; rewrite ?Z.shiftr_div_pow2 by lia; pow2_consts.

Lemma decode_group4 (a b c : byte) (rest : jsstring) :
  decode_groups (tripletToBase64 (b2z a * 65536 + b2z b * 256 + b2z c) ++ rest)
  = a :: b :: c :: decode_groups rest.
Proof.
  pose proof (b2z_range a) as Ha. pose proof (b2z_range b) as Hb.
  pose proof (b2z_range c) as Hc.
  set (tmp := b2z a * 65536 + b2z b * 256 + b2z c).
  unfold tripletToBase64. cbn [List.app decode_groups].
  land_to_mod.
  assert (H1 : 0 <= (tmp / 262144) mod 64 < 64) by (apply Z.mod_pos_bound; lia).
  assert (H2 : 0 <= (tmp / 4096) mod 64 < 64) by (apply Z.mod_pos_bound; lia).
  assert (H3 : 0 <= (tmp / 64) mod 64 < 64) by (apply Z.mod_pos_bound; lia).
  assert (H4 : 0 <= tmp mod 64 < 64) by (apply Z.mod_pos_bound; lia).
  destruct (lookup_code_facts _ H1) as [-> _]. destruct (lookup_code_facts _ H2) as [-> _].
  destruct (lookup_code_facts _ H3) as [-> _]. destruct (lookup_code_facts _ H4) as [-> _].
  rewrite decode_tmp by assumption.
  replace ((tmp / 262144) mod 64 * 262144 + (tmp / 4096) mod 64 * 4096
           + (tmp / 64) mod 64 * 64 + tmp mod 64) with tmp by (subst tmp; zlia).
  replace ((tmp / 65536) mod 256) with (b2z a) by (subst tmp; zlia).
  replace ((tmp / 256) mod 256) with (b2z b) by (subst tmp; zlia).
  replace (tmp mod 256) with (b2z c) by (subst tmp; zlia).
  rewrite !z2b_b2z. reflexivity.
Qed.

Lemma decode_group2 (a b : byte) :
  let tmp := Z.shiftl (b2z a) 8 + b2z b in
  decode_groups [ lookup_code (Z.shiftr tmp 10); lookup_code (Z.land (Z.shiftr tmp 4) 0x3F);
                  lookup_code (Z.land (Z.shiftl tmp 2) 0x3F) ] = [a; b].
Proof.
  pose proof (b2z_range a) as Ha. pose proof (b2z_range b) as Hb.
  intros tmp. subst tmp. rewrite !Z.shiftl_mul_pow2 by lia. pow2_consts.
  set (tmp := b2z a * 256 + b2z b).
  cbn [decode_groups]. land_to_mod.
  assert (H1 : 0 <= tmp / 1024 < 64) by (subst tmp; zlia).
  assert (H2 : 0 <= (tmp / 16) mod 64 < 64) by (apply Z.mod_pos_bound; lia).
  assert (H3 : 0 <= (tmp * 4) mod 64 < 64) by (apply Z.mod_pos_bound; lia).
  destruct (lookup_code_facts _ H1) as [-> _]. destruct (lookup_code_facts _ H2) as [-> _].
  destruct (lookup_code_facts _ H3) as [-> _].
  rewrite !Z.shiftl_mul_pow2 by lia. pow2_consts.
  rewrite (lor_add (tmp / 1024 * 1024) ((tmp / 16) mod 64 * 16) 10) by zlia.
  rewrite (lor_add _ ((tmp * 4) mod 64 / 4) 4) by zlia.
  replace ((tmp / 1024 * 1024 + (tmp / 16) mod 64 * 16 + (tmp * 4) mod 64 / 4)) with tmp
    by zlia.
  replace ((tmp / 256) mod 256) with (b2z a) by (subst tmp; zlia).
  replace (tmp mod 256) with (b2z b) by (subst tmp; zlia).
  rewrite !z2b_b2z. reflexivity.
Qed.

Lemma decode_group1 (a : byte) :
  decode_groups [ lookup_code (Z.shiftr (b2z a) 2);
                  lookup_code (Z.land (Z.shiftl (b2z a) 4) 0x3F) ] = [a].
Proof.
  pose proof (b2z_range a) as Ha.
  cbn [decode_groups]. rewrite (Z.shiftl_mul_pow2 (b2z a)) by lia. land_to_mod.
  assert (H1 : 0 <= b2z a / 4 < 64) by zlia.
  assert (H2 : 0 <= (b2z a * 16) mod 64 < 64) by (apply Z.mod_pos_bound; lia).
  destruct (lookup_code_facts _ H1) as [-> _]. destruct (lookup_code_facts _ H2) as [-> _].
  rewrite !Z.shiftl_mul_pow2 by lia. pow2_consts.
  rewrite (lor_add (b2z a / 4 * 4) ((b2z a * 16) mod 64 / 16) 2) by zlia.
  replace ((b2z a / 4 * 4 + (b2z a * 16) mod 64 / 16) mod 256) with (b2z a) by zlia.
  rewrite z2b_b2z. reflexivity.
Qed.

(** Lists three elements at a time. *)
Lemma list_ind3 {A} (P : list A -> Prop) :
  P [] -> (forall a, P [a]) -> (forall a b, P [a; b]) ->
  (forall a b c l, P l -> P (a :: b :: c :: l)) ->
  forall l, P l.
Proof.
  intros H0 H1 H2 H3.
  fix IH 1.
  intros [|a [|b [|c l]]]; [exact H0 | apply H1 | apply H2 | apply H3; apply IH].
Qed.

Lemma before_pad_sextet (i : Z) (s : jsstring) :
  0 <= i < 64 -> before_pad (lookup_code i :: s) = lookup_code i :: before_pad s.
Proof.
  intros Hi. cbn [before_pad].
  destruct (lookup_code_facts i Hi) as (_ & _ & ->). reflexivity.
Qed.

Lemma sextet_bound (x : Z) : 0 <= Z.land x 0x3F < 64.
Proof. change 0x3F with (Z.ones 6). rewrite Z.land_ones by lia. apply Z.mod_pos_bound. lia. Qed.

(** The characters before the placeholders of an encoding: they are
    in the alphabet, they decode to the bytes, and there are at least
    two of them unless there is no byte. *)
Lemma fromByteArray_chars (bs : list byte) :
  let v := before_pad (fromByteArray bs) in
  forallb b64_char v = true /\ decode_groups v = bs /\ (bs <> [] -> (2 <= length v)%nat).
Proof.
  induction bs as [|a|a b|a b c l IH] using list_ind3; cbv zeta.
  - cbn. repeat split; try reflexivity. congruence.
  - pose proof (b2z_range a) as Ha. cbn [fromByteArray].
    assert (H1 : 0 <= Z.shiftr (b2z a) 2 < 64) by (rewrite Z.shiftr_div_pow2 by lia; zlia).
    pose proof (sextet_bound (Z.shiftl (b2z a) 4)) as H2.
    rewrite !before_pad_sextet by assumption. cbn [before_pad]. rewrite Z.eqb_refl.
    repeat split.
    + cbn [forallb].
      destruct (lookup_code_facts _ H1) as (_ & -> & _).
      destruct (lookup_code_facts _ H2) as (_ & -> & _). reflexivity.
    + apply decode_group1.
    + cbn [length]. lia.
  - pose proof (b2z_range a) as Ha. pose proof (b2z_range b) as Hb.
    cbn [fromByteArray]. cbv zeta.
    set (tmp := Z.shiftl (b2z a) 8 + b2z b).
    assert (H1 : 0 <= Z.shiftr tmp 10 < 64).
    { subst tmp. rewrite Z.shiftl_mul_pow2, Z.shiftr_div_pow2 by lia. zlia. }
    pose proof (sextet_bound (Z.shiftr tmp 4)) as H2.
    pose proof (sextet_bound (Z.shiftl tmp 2)) as H3.
    rewrite !before_pad_sextet by assumption. cbn [before_pad]. rewrite Z.eqb_refl.
    repeat split.
    + cbn [forallb].
      destruct (lookup_code_facts _ H1) as (_ & -> & _).
      destruct (lookup_code_facts _ H2) as (_ & -> & _).
      destruct (lookup_code_facts _ H3) as (_ & -> & _). reflexivity.
    + apply decode_group2.
    + cbn [length]. lia.
  - cbv zeta in IH. destruct IH as (IH1 & IH2 & IH3).
    cbn [fromByteArray]. cbv zeta. rewrite encode_tmp.
    set (tmp := b2z a * 65536 + b2z b * 256 + b2z c).
    unfold tripletToBase64. cbn [List.app].
    pose proof (sextet_bound (Z.shiftr tmp 18)) as H1.
    pose proof (sextet_bound (Z.shiftr tmp 12)) as H2.
    pose proof (sextet_bound (Z.shiftr tmp 6)) as H3.
    pose proof (sextet_bound tmp) as H4.
    rewrite !before_pad_sextet by assumption.
    repeat split.
    + cbn [forallb].
      destruct (lookup_code_facts _ H1) as (_ & -> & _).
      destruct (lookup_code_facts _ H2) as (_ & -> & _).
      destruct (lookup_code_facts _ H3) as (_ & -> & _).
      destruct (lookup_code_facts _ H4) as (_ & -> & _). exact IH1.
    + pose proof (decode_group4 a b c (before_pad (fromByteArray l))) as E.
      unfold tripletToBase64 in E. cbn [List.app] in E. fold tmp in E.
      rewrite E, IH2. reflexivity.
    + cbn [length]. lia.
Qed.

Lemma filter_all {A} (p : A -> bool) (l : list A) :
  forallb p l = true -> List.filter p l = l.
Proof.
  induction l as [|x l IH]; cbn; [reflexivity|].
  intros H. apply andb_true_iff in H as [Hx Hl]. rewrite Hx, IH by assumption. reflexivity.
Qed.

Lemma before_pad_app_pads (v : jsstring) (k : nat) :
  forallb b64_char v = true -> before_pad (v ++ repeat b64_pad k) = v.
Proof.
  induction v as [|c v IH]; cbn [forallb List.app before_pad].
  - intros _. destruct k; cbn; [reflexivity|]. reflexivity.
  - intros H. apply andb_true_iff in H as [Hc Hv].
    destruct (c =? b64_pad) eqn:E.
    + apply Z.eqb_eq in E. subst c. discriminate Hc.
    + rewrite IH by assumption. reflexivity.
Qed.

Lemma pad_mod4 (n : nat) : ((n + (4 - n mod 4) mod 4) mod 4 = 0)%nat.
Proof.
  pose proof (Nat.mod_upper_bound n 4 ltac:(lia)) as Hm.
  rewrite (Nat.div_mod_eq n 4) at 1.
  set (q := (n / 4)%nat). set (r := (n mod 4)%nat) in *.
  destruct r as [|[|[|[|r]]]]; try lia.
  - change ((4 - 0) mod 4)%nat with 0%nat.
    replace (4 * q + 0 + 0)%nat with (q * 4)%nat by lia. apply Nat.Div0.mod_mul.
  - change ((4 - 1) mod 4)%nat with 3%nat.
    replace (4 * q + 1 + 3)%nat with ((q + 1) * 4)%nat by lia. apply Nat.Div0.mod_mul.
  - change ((4 - 2) mod 4)%nat with 2%nat.
    replace (4 * q + 2 + 2)%nat with ((q + 1) * 4)%nat by lia. apply Nat.Div0.mod_mul.
  - change ((4 - 3) mod 4)%nat with 1%nat.
    replace (4 * q + 3 + 1)%nat with ((q + 1) * 4)%nat by lia. apply Nat.Div0.mod_mul.
Qed.

(** Decoding an encoding gives the bytes back. *)
Lemma Buffer_base64_roundtrip (bs : list byte) :
  Buffer_from_base64 (Buffer_toString_base64 bs) = Some bs.
Proof.
  unfold Buffer_from_base64, Buffer_toString_base64, base64clean.
  destruct (fromByteArray_chars bs) as (Hv & Hd & Hlen).
  set (v := before_pad (fromByteArray bs)) in *.
  rewrite (filter_all _ _ Hv).
  destruct (length v <? 2)%nat eqn:E.
  - apply Nat.ltb_lt in E. destruct bs as [|b bs].
    + reflexivity.
    + exfalso. assert (2 <= length v)%nat by (apply Hlen; discriminate). lia.
  - unfold toByteArray. rewrite length_app, repeat_length.
    replace ((length v + (4 - length v mod 4) mod 4) mod 4 =? 0)%nat with true.
    + rewrite before_pad_app_pads by assumption. rewrite Hd. reflexivity.
    + symmetry. apply Nat.eqb_eq. apply pad_mod4.
Qed.

Lemma check_range_spec (f : Z -> bool) (lo : Z) (n : N) :
  check_range f lo n = true -> forall z, lo <= z < lo + Z.of_N n -> f z = true.
Proof.
  unfold check_range.
  assert (H : forall n, fst (N.iter n (fun '(z, ok) => (z + 1, ok && f z)) (lo, true)) = lo + Z.of_N n
              /\ (snd (N.iter n (fun '(z, ok) => (z + 1, ok && f z)) (lo, true)) = true ->
                  forall z, lo <= z < lo + Z.of_N n -> f z = true)).
  { clear n. intros n. induction n as [|n IH] using N.peano_ind.
    - cbn. split; [lia|]. intros _ z Hz. lia.
    - rewrite N.iter_succ.
      destruct (N.iter n _ (lo, true)) as [z0 ok] eqn:E. cbn [fst snd] in *.
      destruct IH as [IH1 IH2]. split; [lia|].
      intros Hok z Hz. apply andb_true_iff in Hok as [Hok Hf].
      destruct (Z.eq_dec z z0) as [->|Hne]; [assumption|].
      apply IH2; [assumption|lia]. }
  intros Hc. apply (H n). exact Hc.
Qed.

(** The scalar values of one to three bytes, one by one. *)
Lemma utf8_bmp_scalars_ok : check_range utf8_scalar_ok 0 0x10000 = true.
Proof. vm_compute. reflexivity. Qed.

Lemma jsstring_eqb_eq (a b : jsstring) : jsstring_eqb a b = true <-> a = b.
Proof.
  revert b. induction a as [|x a IH]; intros [|y b]; cbn; split; try congruence.
  - intros H. apply andb_true_iff in H as [H1 H2]. apply Z.eqb_eq in H1.
    apply IH in H2. congruence.
  - intros H. injection H as -> ->. rewrite Z.eqb_refl. cbn. apply IH. reflexivity.
Qed.

Lemma utf8_decoder_eqb_eq (a b : utf8_decoder) : utf8_decoder_eqb a b = true -> a = b.
Proof.
  destruct a, b. unfold utf8_decoder_eqb. cbn.
  rewrite !andb_true_iff, !Z.eqb_eq. intros [[[[-> ->] ->] ->] ->]. reflexivity.
Qed.

(** A continuation byte inside the boundaries. *)
Lemma utf8_handler_continuation (st : utf8_decoder) (x : Z) :
  bytes_needed st <> 0 -> 0 <= x < 64 -> 0 <= code_point st ->
  lower_boundary st <= 0x80 + x <= upper_boundary st ->
  utf8_handler st (b2z (z2b (Z.lor 0x80 x)))
  = if bytes_seen st + 1 =? bytes_needed st
    then (utf8_decoder_init, [code_point st * 64 + x])
    else (mk_utf8_decoder (code_point st * 64 + x) (bytes_seen st + 1) (bytes_needed st)
            0x80 0xBF, []).
Proof.
  intros Hn Hx Hcp Hb.
  rewrite (lor_add 0x80 x 6) by zlia.
  rewrite b2z_z2b by lia.
  unfold utf8_handler.
  destruct (bytes_needed st =? 0) eqn:E; [apply Z.eqb_eq in E; contradiction|].
  replace ((lower_boundary st <=? 128 + x) && (128 + x <=? upper_boundary st)) with true
    by (symmetry; apply andb_true_iff; split; apply Z.leb_le; lia).
  cbn [negb].
  change 0x3F with (Z.ones 6). rewrite Z.land_ones by lia.
  rewrite Z.shiftl_mul_pow2 by lia.
  rewrite (lor_add (code_point st * 2 ^ 6) ((128 + x) mod 2 ^ 6) 6) by zlia.
  replace ((128 + x) mod 2 ^ 6) with x by zlia.
  reflexivity.
Qed.

Lemma utf8_run_cons (st : utf8_decoder) (b : byte) (bs : list byte) :
  utf8_run st (b :: bs)
  = (fst (utf8_run (fst (utf8_handler st (b2z b))) bs),
     snd (utf8_handler st (b2z b)) ++ snd (utf8_run (fst (utf8_handler st (b2z b))) bs)).
Proof.
  cbn [utf8_run]. destruct (utf8_handler st (b2z b)) as [st' out]. cbn [fst snd].
  destruct (utf8_run st' bs). reflexivity.
Qed.

Ltac utf8_simpl :=
  cbn [fst snd bytes_needed bytes_seen code_point lower_boundary upper_boundary
       Z.add Z.eqb Pos.eqb Pos.add List.app].

(** The scalar values of four bytes. *)
Lemma utf8_run_supplementary (cp : Z) :
  0x10000 <= cp < 0x110000 ->
  utf8_run utf8_decoder_init (utf8_encode_scalar cp) = (utf8_decoder_init, [cp]).
Proof.
  intros Hcp. unfold utf8_encode_scalar.
  destruct (cp <=? 0x7F) eqn:E1; [apply Z.leb_le in E1; lia|].
  destruct (cp <=? 0x7FF) eqn:E2; [apply Z.leb_le in E2; lia|].
  destruct (cp <=? 0xFFFF) eqn:E3; [apply Z.leb_le in E3; lia|].
  clear E1 E2 E3.
  rewrite !Z.shiftr_div_pow2 by lia. change 0x3F with (Z.ones 6).
  rewrite !Z.land_ones by lia. pow2_consts.
  set (lead := cp / 262144 + 240).
  assert (Hlead : 240 <= lead <= 244) by (subst lead; zlia).
  rewrite utf8_run_cons, (b2z_z2b lead) by zlia.
  assert (El : utf8_handler utf8_decoder_init lead
               = (mk_utf8_decoder (cp / 262144) 0 3
                    (if lead =? 0xF0 then 0x90 else 0x80)
                    (if lead =? 0xF4 then 0x8F else 0xBF), [])).
  { unfold utf8_handler, utf8_lead. cbn [bytes_needed utf8_decoder_init]. cbn [Z.eqb].
    destruct (lead <=? 0x7F) eqn:F1; [apply Z.leb_le in F1; zlia|].
    replace ((0xC2 <=? lead) && (lead <=? 0xDF)) with false
      by (symmetry; apply andb_false_iff; right; apply Z.leb_gt; zlia).
    replace ((0xE0 <=? lead) && (lead <=? 0xEF)) with false
      by (symmetry; apply andb_false_iff; right; apply Z.leb_gt; zlia).
    replace ((0xF0 <=? lead) && (lead <=? 0xF4)) with true
      by (symmetry; apply andb_true_iff; split; apply Z.leb_le; zlia).
    change 0x7 with (Z.ones 3). rewrite Z.land_ones by lia.
    replace (lead mod 2 ^ 3) with (cp / 262144) by (subst lead; zlia).
    reflexivity. }
  rewrite El. clear El. utf8_simpl.
  rewrite utf8_run_cons, utf8_handler_continuation; utf8_simpl;
    [ | zlia | zlia | zlia | ].
  2:{ destruct (lead =? 0xF0) eqn:F0; destruct (lead =? 0xF4) eqn:F4;
      rewrite ?Z.eqb_eq, ?Z.eqb_neq in *; subst lead; zlia. }
  change (0 + 1 =? 3) with false. change (0 + 1) with 1. utf8_simpl.
  rewrite utf8_run_cons, utf8_handler_continuation; utf8_simpl;
    [ | zlia | zlia | zlia | zlia ].
  change (1 + 1 =? 3) with false. change (1 + 1) with 2. utf8_simpl.
  rewrite utf8_run_cons, utf8_handler_continuation; utf8_simpl;
    [ | zlia | zlia | zlia | zlia ].
  change (2 + 1 =? 3) with true. utf8_simpl.
  cbn [utf8_run fst snd List.app].
  f_equal. f_equal. zlia.
Qed.

Lemma utf8_run_scalar (cp : Z) :
  is_scalar cp = true ->
  utf8_run utf8_decoder_init (utf8_encode_scalar cp) = (utf8_decoder_init, [cp]).
Proof.
  intros Hs.
  destruct (Z.lt_ge_cases cp 0x10000) as [Hlt|Hge].
  - assert (H0 : 0 <= cp).
    { unfold is_scalar in Hs. rewrite !andb_true_iff in Hs.
      destruct Hs as [[H0 _] _]. apply Z.leb_le in H0. exact H0. }
    pose proof (check_range_spec _ _ _ utf8_bmp_scalars_ok cp ltac:(lia)) as Hok.
    unfold utf8_scalar_ok in Hok. rewrite Hs in Hok.
    destruct (utf8_run utf8_decoder_init (utf8_encode_scalar cp)) as [st out].
    apply andb_true_iff in Hok as [H1 H2].
    apply utf8_decoder_eqb_eq in H1. apply jsstring_eqb_eq in H2. congruence.
  - apply utf8_run_supplementary.
    unfold is_scalar in Hs. rewrite !andb_true_iff in Hs.
    destruct Hs as [[_ H1] _]. apply Z.ltb_lt in H1. lia.
Qed.

Lemma utf8_decode_from_app (st : utf8_decoder) (xs ys : list byte) :
  utf8_decode_from st (xs ++ ys)
  = snd (utf8_run st xs) ++ utf8_decode_from (fst (utf8_run st xs)) ys.
Proof.
  revert st. induction xs as [|x xs IH]; intros st.
  - reflexivity.
  - cbn [List.app utf8_decode_from]. rewrite utf8_run_cons.
    destruct (utf8_handler st (b2z x)) as [st' out]. cbn [fst snd].
    rewrite IH, <- app_assoc. reflexivity.
Qed.

(** The decoder reads back what the encoder wrote. *)
Lemma utf8_decode_encode (cps : list Z) :
  forallb is_scalar cps = true ->
  utf8_decode (flat_map utf8_encode_scalar cps) = cps.
Proof.
  unfold utf8_decode. induction cps as [|cp cps IH]; intros H.
  - reflexivity.
  - cbn [forallb] in H. apply andb_true_iff in H as [Hcp Hcps].
    cbn [flat_map]. rewrite utf8_decode_from_app, utf8_run_scalar by assumption.
    cbn [fst snd List.app]. rewrite IH by assumption. reflexivity.
Qed.

(** Lists two elements at a time, with both tails at hand. *)
Lemma list_ind2 {A} (P : list A -> Prop) :
  P [] -> (forall a, P [a]) ->
  (forall a b l, P l -> P (b :: l) -> P (a :: b :: l)) ->
  forall l, P l.
Proof.
  intros H0 H1 H2.
  assert (H : forall l, P l /\ forall a, P (a :: l)).
  { induction l as [|b l [IHl IHc]]; split; auto. }
  intros l. apply H.
Qed.

Ltac bool_to_Z :=
  repeat match goal with
         | H : _ && _ = true |- _ => apply andb_true_iff in H; destruct H
         | H : _ && _ = false |- _ => apply andb_false_iff in H
         | H : negb _ = true |- _ => apply negb_true_iff in H
         | H : negb _ = false |- _ => apply negb_false_iff in H
         | H : (_ <=? _) = true |- _ => apply Z.leb_le in H
         | H : (_ <=? _) = false |- _ => apply Z.leb_gt in H
         | H : (_ <? _) = true |- _ => apply Z.ltb_lt in H
         | H : (_ <? _) = false |- _ => apply Z.ltb_ge in H
         | H : (_ =? _) = true |- _ => apply Z.eqb_eq in H
         | H : (_ =? _) = false |- _ => apply Z.eqb_neq in H
         end.

Lemma is_scalar_intro (cp : Z) :
  0 <= cp < 0x110000 -> (cp < 0xD800 \/ 0xDFFF < cp) -> is_scalar cp = true.
Proof.
  intros H1 H2. unfold is_scalar, is_surrogate.
  apply andb_true_iff; split; [apply andb_true_iff; split|].
  - apply Z.leb_le; lia.
  - apply Z.ltb_lt; lia.
  - apply negb_true_iff. apply andb_false_iff.
    destruct H2; [left; apply Z.leb_gt|right; apply Z.leb_gt]; lia.
Qed.

(** The scalar value of a surrogate pair. *)
Lemma pair_value (c d : Z) :
  is_high_surrogate c = true -> is_low_surrogate d = true ->
  0x10000 + Z.shiftl (c - 0xD800) 10 + (d - 0xDC00)
  = 0x10000 + (c - 0xD800) * 1024 + (d - 0xDC00).
Proof. intros _ _. rewrite Z.shiftl_mul_pow2 by lia. reflexivity. Qed.

Lemma to_scalars_cons (c : Z) (s : jsstring) :
  to_scalars (c :: s)
  = if is_high_surrogate c then
      match s with
      | d :: s'' =>
          if is_low_surrogate d
          then (0x10000 + Z.shiftl (c - 0xD800) 10 + (d - 0xDC00)) :: to_scalars s''
          else 0xFFFD :: to_scalars s
      | [] => [0xFFFD]
      end
    else if is_low_surrogate c then 0xFFFD :: to_scalars s
    else c :: to_scalars s.
Proof. destruct s; reflexivity. Qed.

Lemma isWellFormed_cons (c : Z) (s : jsstring) :
  isWellFormed (c :: s)
  = if is_high_surrogate c then
      match s with
      | d :: s'' => is_low_surrogate d && isWellFormed s''
      | [] => false
      end
    else negb (is_low_surrogate c) && isWellFormed s.
Proof. destruct s; reflexivity. Qed.

(** Converting a string of code units gives scalar values. *)
Lemma to_scalars_scalar (s : jsstring) :
  js_valid s = true -> forallb is_scalar (to_scalars s) = true.
Proof.
  induction s as [|a|a b l IHl IHbl] using list_ind2; intros Hv.
  - reflexivity.
  - cbn in Hv. rewrite andb_true_r in Hv. unfold code_unit in Hv.
    cbn [to_scalars].
    destruct (is_high_surrogate a) eqn:Eh; [reflexivity|].
    destruct (is_low_surrogate a) eqn:El; [reflexivity|].
    cbn [forallb]. rewrite andb_true_r.
    unfold is_high_surrogate, is_low_surrogate in *. bool_to_Z.
    apply is_scalar_intro; lia.
  - cbn [js_valid forallb] in Hv.
    apply andb_true_iff in Hv as [Ha Hbl].
    assert (Hl : js_valid l = true).
    { cbn [js_valid forallb] in Hbl. apply andb_true_iff in Hbl as [_ Hl]. exact Hl. }
    assert (Hb : code_unit b = true).
    { cbn [js_valid forallb] in Hbl. apply andb_true_iff in Hbl as [Hb _]. exact Hb. }
    specialize (IHl Hl). specialize (IHbl Hbl).
    rewrite to_scalars_cons.
    destruct (is_high_surrogate a) eqn:Eh.
    + destruct (is_low_surrogate b) eqn:El.
      * cbn [forallb]. rewrite IHl, andb_true_r.
        rewrite pair_value by assumption.
        unfold is_high_surrogate, is_low_surrogate in *. bool_to_Z.
        apply is_scalar_intro; lia.
      * cbn [forallb]. rewrite IHbl. reflexivity.
    + destruct (is_low_surrogate a) eqn:El.
      * cbn [forallb]. rewrite IHbl. reflexivity.
      * cbn [forallb]. rewrite IHbl, andb_true_r.
        unfold code_unit, is_high_surrogate, is_low_surrogate in *. bool_to_Z.
        apply is_scalar_intro; lia.
Qed.

(** A well-formed string is the UTF-16 form of its scalar values. *)
Lemma utf16_of_to_scalars (s : jsstring) :
  js_valid s = true -> isWellFormed s = true ->
  flat_map utf16_of_scalar (to_scalars s) = s.
Proof.
  induction s as [|a|a b l IHl IHbl] using list_ind2; intros Hv Hw.
  - reflexivity.
  - cbn [isWellFormed] in Hw. cbn [to_scalars].
    destruct (is_high_surrogate a) eqn:Eh; [discriminate|].
    rewrite andb_true_r in Hw. apply negb_true_iff in Hw. rewrite Hw.
    cbn [flat_map List.app]. unfold utf16_of_scalar.
    cbn in Hv. rewrite andb_true_r in Hv. unfold code_unit in Hv. bool_to_Z.
    destruct (a <? 0x10000) eqn:E; [reflexivity|]. bool_to_Z. lia.
  - cbn [js_valid forallb] in Hv.
    apply andb_true_iff in Hv as [Ha Hbl].
    assert (Hl : js_valid l = true).
    { cbn [js_valid forallb] in Hbl. apply andb_true_iff in Hbl as [_ Hl]. exact Hl. }
    rewrite isWellFormed_cons in Hw. rewrite to_scalars_cons.
    destruct (is_high_surrogate a) eqn:Eh.
    + apply andb_true_iff in Hw as [Hb Hw]. rewrite Hb.
      cbn [flat_map]. rewrite (IHl Hl Hw).
      rewrite pair_value by assumption.
      unfold utf16_of_scalar, is_high_surrogate, is_low_surrogate in *. bool_to_Z.
      destruct (_ <? 0x10000) eqn:E; bool_to_Z; [lia|].
      rewrite Z.shiftr_div_pow2 by lia. change 0x3FF with (Z.ones 10).
      rewrite Z.land_ones by lia. cbn [List.app].
      f_equal; [zlia|]. f_equal. zlia.
    + apply andb_true_iff in Hw as [Hna Hw]. apply negb_true_iff in Hna. rewrite Hna.
      cbn [flat_map]. rewrite (IHbl Hbl Hw).
      unfold utf16_of_scalar. unfold code_unit in Ha. bool_to_Z.
      destruct (a <? 0x10000) eqn:E; [reflexivity|]. bool_to_Z. lia.
Qed.

(** The scalar values start with U+FEFF only if the string does. *)
Lemma strip_BOM_to_scalars (s : jsstring) :
  starts_with_BOM s = false -> strip_BOM (to_scalars s) = to_scalars s.
Proof.
  destruct s as [|c s]; [reflexivity|]. cbn [starts_with_BOM]. intros Hc.
  cbn [to_scalars].
  destruct (is_high_surrogate c) eqn:Eh.
  - destruct s as [|d s]; [reflexivity|].
    destruct (is_low_surrogate d) eqn:El; [|reflexivity].
    cbn [strip_BOM]. rewrite pair_value by assumption.
    unfold is_high_surrogate, is_low_surrogate in *. bool_to_Z.
    destruct (_ =? 0xFEFF) eqn:E; [bool_to_Z; lia|reflexivity].
  - destruct (is_low_surrogate c) eqn:El; [reflexivity|].
    cbn [strip_BOM]. rewrite Hc. reflexivity.
Qed.

(** Decoding the encoding of a well-formed string that does not start
    with a byte order mark gives the string back. *)
Lemma TextDecoder_TextEncoder (s : jsstring) :
  js_valid s = true -> isWellFormed s = true -> starts_with_BOM s = false ->
  TextDecoder_decode (TextEncoder_encode s) = s.
Proof.
  intros Hv Hw Hb. unfold TextDecoder_decode, TextEncoder_encode.
  rewrite utf8_decode_encode by (apply to_scalars_scalar; assumption).
  rewrite strip_BOM_to_scalars by assumption.
  apply utf16_of_to_scalars; assumption.
Qed.

(** * Lemmas on the service *)

Lemma getRandomValues_eq (n : nat) (w : World) :
  getRandomValues n w = (Ok (List.map (csprng w) (seq 0 n)), drawn n w).
Proof. reflexivity. Qed.

Lemma Uint8Array_set_fits (dst src : list byte) (off : nat) :
  (off + length src <= length dst)%nat ->
  Uint8Array_set dst src off
  = Some (firstn off dst ++ src ++ skipn (off + length src) dst).
Proof.
  intros H. unfold Uint8Array_set.
  destruct (off + length src <=? length dst)%nat eqn:E; [reflexivity|].
  apply Nat.leb_gt in E. lia.
Qed.

Lemma skipn_repeat_byte {A} (x : A) (n m : nat) :
  skipn n (repeat x m) = repeat x (m - n).
Proof.
  revert m. induction n as [|n IH]; intros m.
  - rewrite Nat.sub_0_r. reflexivity.
  - destruct m as [|m]; [reflexivity|]. cbn [repeat skipn]. apply IH.
Qed.

(** Three parts written one after the other into a fresh array of
    their total length: the array is their concatenation. *)
Lemma combined_parts (salt iv encrypted : list byte) :
  exists c1 c2,
    Uint8Array_set (Uint8Array_new (length salt + length iv + length encrypted)) salt 0 = Some c1
    /\ Uint8Array_set c1 iv (length salt) = Some c2
    /\ Uint8Array_set c2 encrypted (length salt + length iv) = Some (salt ++ iv ++ encrypted).
Proof.
  unfold Uint8Array_new.
  set (n := (length salt + length iv + length encrypted)%nat).
  exists (salt ++ repeat Byte.x00 (length iv + length encrypted)).
  exists (salt ++ iv ++ repeat Byte.x00 (length encrypted)).
  subst n. split; [|split].
  - rewrite Uint8Array_set_fits by (rewrite repeat_length; lia).
    rewrite firstn_O, skipn_repeat_byte. cbn [List.app Nat.add].
    do 3 f_equal. lia.
  - rewrite Uint8Array_set_fits by (rewrite length_app, repeat_length; lia).
    rewrite firstn_app, firstn_all, Nat.sub_diag, firstn_O, app_nil_r.
    rewrite skipn_app, skipn_all2 by lia. cbn [List.app].
    rewrite skipn_repeat_byte. do 4 f_equal. lia.
  - rewrite Uint8Array_set_fits by (rewrite !length_app, repeat_length; lia).
    rewrite (app_assoc salt iv), firstn_app.
    rewrite firstn_all2 by (rewrite length_app; lia).
    replace (length salt + length iv - length (salt ++ iv))%nat with 0%nat
      by (rewrite length_app; lia).
    rewrite firstn_O, app_nil_r.
    rewrite skipn_all2 by (rewrite !length_app, repeat_length; lia).
    rewrite app_nil_r, <- app_assoc. reflexivity.
Qed.

Section ServiceLemmas.
Context {wc : WebCrypto}.

(** What [encryptData] computes, for every plaintext, password and world. *)
Lemma encryptData_eq (data password : jsstring) (w : World) :
  encryptData data password w
  = (Ok (Buffer_toString_base64
           (envelope_bytes data password (seal_salt w) (seal_iv w))),
     drawn 28 w).
Proof.
  unfold encryptData, bind. cbv zeta. rewrite getRandomValues_eq.
  unfold importKey_raw_PBKDF2, deriveKey_PBKDF2_AES_GCM, ret.
  cbn [key_algorithm key_data key_usages has_usage existsb usage_eqb orb].
  rewrite getRandomValues_eq.
  unfold encrypt_AES_GCM.
  cbn [key_algorithm key_data key_usages has_usage existsb usage_eqb orb].
  change (256 / 8)%nat with 32%nat.
  set (salt := List.map (csprng w) (seq 0 16)).
  set (iv := List.map (csprng (drawn 16 w)) (seq 0 12)).
  set (key := PBKDF2 (TextEncoder_encode password) salt 100000 32).
  set (encrypted := GCTR key iv (TextEncoder_encode data) ++ GTAG key iv (GCTR key iv (TextEncoder_encode data))).
  unfold ret. cbv beta iota.
  destruct (combined_parts salt iv encrypted) as (c1 & c2 & E1 & E2 & E3).
  rewrite E1. unfold of_option, ret. cbv beta iota.
  rewrite E2. cbv beta iota. rewrite E3. cbv beta iota.
  assert (Eiv : iv = seal_iv w) by reflexivity.
  assert (Ew : drawn 12 (drawn 16 w) = drawn 28 w) by reflexivity.
  rewrite Ew. clear E1 E2 E3 Ew. subst encrypted key. rewrite Eiv. fold (seal_salt w) in *.
  subst salt. unfold envelope_bytes, sealed_box, derived_key. reflexivity.
Qed.

Lemma seal_salt_length (w : World) : length (seal_salt w) = 16%nat.
Proof. reflexivity. Qed.

Lemma seal_iv_length (w : World) : length (seal_iv w) = 12%nat.
Proof. reflexivity. Qed.

Lemma bytes_eqb_refl (a : list byte) : bytes_eqb a a = true.
Proof.
  induction a as [|x a IH]; [reflexivity|]. cbn [bytes_eqb].
  rewrite IH, andb_true_r. apply Byte.byte_dec_lb. reflexivity.
Qed.

Lemma bytes_eqb_eq (a b : list byte) : bytes_eqb a b = true -> a = b.
Proof.
  revert b. induction a as [|x a IH]; intros [|y b] H; cbn in H; try discriminate.
  - reflexivity.
  - apply andb_true_iff in H as [H1 H2]. apply Byte.byte_dec_bl in H1.
    apply IH in H2. congruence.
Qed.

(** What [decryptData] computes once the base64 text is decoded. *)
Lemma decryptData_eq (env password : jsstring) (combined : list byte) (w : World) :
  Buffer_from_base64 env = Some combined ->
  decryptData env password w
  = let salt := slice combined 0 16 in
    let iv := slice combined 16 28 in
    let data := slice_from combined 28 in
    let key := derived_key password salt in
    if (length data <? 16)%nat then (Throw OperationError, w)
    else if bytes_eqb (skipn (length data - 16) data)
              (GTAG key iv (firstn (length data - 16) data))
    then (Ok (TextDecoder_decode (GCTR key iv (firstn (length data - 16) data))), w)
    else (Throw OperationError, w).
Proof.
  intros E. unfold decryptData, bind. rewrite E. unfold of_option, ret. cbv beta iota zeta.
  unfold importKey_raw_PBKDF2, deriveKey_PBKDF2_AES_GCM, ret.
  cbn [key_algorithm key_data key_usages has_usage existsb usage_eqb orb].
  unfold decrypt_AES_GCM.
  cbn [key_algorithm key_data key_usages has_usage existsb usage_eqb orb].
  change (256 / 8)%nat with 32%nat. fold (derived_key password (slice combined 0 16)).
  destruct (length (slice_from combined 28) <? 16)%nat; [reflexivity|].
  destruct (bytes_eqb _ _); reflexivity.
Qed.

Section WithLaws.
Context {laws : WebCryptoLaws wc}.

Lemma sealed_box_length (key iv p : list byte) :
  length (sealed_box key iv p) = (length p + 16)%nat.
Proof. unfold sealed_box. rewrite length_app, GCTR_length, GTAG_length. reflexivity. Qed.

(** The three slices of an envelope are its three parts. *)
Lemma envelope_slices (salt iv box : list byte) :
  length salt = 16%nat -> length iv = 12%nat ->
  slice (salt ++ iv ++ box) 0 16 = salt
  /\ slice (salt ++ iv ++ box) 16 28 = iv
  /\ slice_from (salt ++ iv ++ box) 28 = box.
Proof.
  intros Hs Hi. unfold slice, slice_from. repeat split.
  - change (16 - 0)%nat with 16%nat. rewrite skipn_O.
    rewrite firstn_app, Hs, Nat.sub_diag, firstn_O, app_nil_r.
    apply firstn_all2. lia.
  - rewrite skipn_app, Hs, Nat.sub_diag, skipn_O.
    rewrite skipn_all2 by lia. cbn [List.app].
    change (28 - 16)%nat with 12%nat.
    rewrite firstn_app, Hi, Nat.sub_diag, firstn_O, app_nil_r.
    apply firstn_all2. lia.
  - rewrite app_assoc, skipn_app.
    rewrite skipn_all2 by (rewrite length_app; lia).
    rewrite length_app, Hs, Hi. change (28 - (16 + 12))%nat with 0%nat.
    rewrite skipn_O. reflexivity.
Qed.

(** Opening the envelope that [encryptData] builds from salt and nonce. *)
Lemma decryptData_envelope (data password : jsstring) (salt iv : list byte) (w : World) :
  length salt = 16%nat -> length iv = 12%nat ->
  decryptData (Buffer_toString_base64 (envelope_bytes data password salt iv)) password w
  = (Ok (TextDecoder_decode (TextEncoder_encode data)), w).
Proof.
  intros Hs Hi.
  rewrite (decryptData_eq _ _ _ _ (Buffer_base64_roundtrip _)).
  unfold envelope_bytes.
  destruct (envelope_slices salt iv
              (sealed_box (derived_key password salt) iv (TextEncoder_encode data)) Hs Hi)
    as (E1 & E2 & E3).
  cbv zeta. rewrite E1, E2, E3.
  set (key := derived_key password salt). set (p := TextEncoder_encode data).
  rewrite sealed_box_length.
  replace (length p + 16 <? 16)%nat with false by (symmetry; apply Nat.ltb_ge; lia).
  replace (length p + 16 - 16)%nat with (length (GCTR key iv p))
    by (rewrite GCTR_length; lia).
  unfold sealed_box.
  rewrite skipn_app, skipn_all, Nat.sub_diag. cbn [skipn List.app].
  rewrite firstn_app, firstn_all, Nat.sub_diag, firstn_O, app_nil_r.
  rewrite bytes_eqb_refl, GCTR_involutive. reflexivity.
Qed.

End WithLaws.
End ServiceLemmas.

(** Every text decodes: the cleaned text has a length that is a
    multiple of four. *)
Lemma Buffer_from_base64_total (s : jsstring) :
  exists combined, Buffer_from_base64 s = Some combined.
Proof.
  unfold Buffer_from_base64, base64clean, toByteArray.
  set (s1 := List.filter b64_char (before_pad s)).
  destruct (length s1 <? 2)%nat.
  - eexists. reflexivity.
  - rewrite length_app, repeat_length, pad_mod4. eexists. reflexivity.
Qed.

Lemma N_iter_ext {A} (f g : A -> A) (n : N) (a : A) :
  (forall x, f x = g x) -> N.iter n f a = N.iter n g a.
Proof.
  intros H. induction n as [|n IH] using N.peano_ind.
  - reflexivity.
  - rewrite !N.iter_succ, IH. apply H.
Qed.

Section KeyDerivation.
Context {wc : WebCrypto}.

(** A zero byte appended to a key shorter than a block is part of the
    filling the key gets anyway. *)
Lemma hmac_key_NUL (key : list byte) :
  (length key < 64)%nat -> hmac_key (key ++ [Byte.x00]) = hmac_key key.
Proof.
  intros H. unfold hmac_key. rewrite length_app. cbn [length].
  replace (64 <? length key + 1)%nat with false by (symmetry; apply Nat.ltb_ge; lia).
  replace (64 <? length key)%nat with false by (symmetry; apply Nat.ltb_ge; lia).
  rewrite length_app. cbn [length]. rewrite <- app_assoc. f_equal.
  replace (64 - length key)%nat with (S (64 - (length key + 1))) by lia.
  reflexivity.
Qed.

Lemma HMAC_SHA256_key_ext (k1 k2 msg : list byte) :
  hmac_key k1 = hmac_key k2 -> HMAC_SHA256 k1 msg = HMAC_SHA256 k2 msg.
Proof. intros H. unfold HMAC_SHA256. rewrite H. reflexivity. Qed.

(** PBKDF2 sees the password through the HMAC key only. *)
Lemma PBKDF2_key_ext (k1 k2 salt : list byte) (c : N) (dkLen : nat) :
  hmac_key k1 = hmac_key k2 -> PBKDF2 k1 salt c dkLen = PBKDF2 k2 salt c dkLen.
Proof.
  intros H. unfold PBKDF2. f_equal. apply flat_map_ext. intros i.
  unfold pbkdf2_F. rewrite (HMAC_SHA256_key_ext k1 k2) by assumption.
  f_equal. apply N_iter_ext. intros [u t].
  rewrite (HMAC_SHA256_key_ext k1 k2) by assumption. reflexivity.
Qed.

End KeyDerivation.

Lemma to_scalars_snoc_NUL (s : jsstring) : to_scalars (s ++ [0]) = to_scalars s ++ [0].
Proof.
  induction s as [|a|a b l IHl IHbl] using list_ind2.
  - reflexivity.
  - cbn [List.app]. rewrite !to_scalars_cons.
    destruct (is_high_surrogate a); [reflexivity|].
    destruct (is_low_surrogate a); reflexivity.
  - change ((a :: b :: l) ++ [0]) with (a :: b :: (l ++ [0])).
    rewrite (to_scalars_cons a (b :: l ++ [0])), (to_scalars_cons a (b :: l)).
    change (b :: l ++ [0]) with ((b :: l) ++ [0]).
    destruct (is_high_surrogate a).
    + destruct (is_low_surrogate b).
      * rewrite IHl. reflexivity.
      * rewrite IHbl. reflexivity.
    + destruct (is_low_surrogate a); rewrite IHbl; reflexivity.
Qed.

Lemma TextEncoder_encode_snoc_NUL (s : jsstring) :
  TextEncoder_encode (s ++ [0]) = TextEncoder_encode s ++ [Byte.x00].
Proof.
  unfold TextEncoder_encode. rewrite to_scalars_snoc_NUL, flat_map_app. reflexivity.
Qed.

Section Opening.
Context {wc : WebCrypto}.

(** A password followed by U+0000 derives the key of the password. *)
Lemma derived_key_NUL (password : jsstring) (salt : list byte) :
  (length (TextEncoder_encode password) < 64)%nat ->
  derived_key (password ++ [0]) salt = derived_key password salt.
Proof.
  intros H. unfold derived_key. rewrite TextEncoder_encode_snoc_NUL.
  apply PBKDF2_key_ext. apply hmac_key_NUL. exact H.
Qed.

(** [decryptData] neither reads nor changes the world, and what it
    answers is decided by the tag check alone. *)
Lemma decryptData_cases (env password : jsstring) (w : World) :
  exists combined,
    Buffer_from_base64 env = Some combined
    /\ let salt := slice combined 0 16 in
       let iv := slice combined 16 28 in
       let data := slice_from combined 28 in
       let key := derived_key password salt in
       decryptData env password w
       = (if (length combined <? 44)%nat then Throw OperationError
          else if bytes_eqb (skipn (length data - 16) data)
                    (GTAG key iv (firstn (length data - 16) data))
          then Ok (TextDecoder_decode (GCTR key iv (firstn (length data - 16) data)))
          else Throw OperationError, w).
Proof.
  destruct (Buffer_from_base64_total env) as [combined E].
  exists combined. split; [exact E|]. cbv zeta.
  rewrite (decryptData_eq _ _ _ _ E). cbv zeta.
  unfold slice_from at 1. rewrite length_skipn.
  destruct (length combined <? 44)%nat eqn:E44.
  - apply Nat.ltb_lt in E44.
    replace (length combined - 28 <? 16)%nat with true
      by (symmetry; apply Nat.ltb_lt; lia).
    reflexivity.
  - apply Nat.ltb_ge in E44.
    replace (length combined - 28 <? 16)%nat with false
      by (symmetry; apply Nat.ltb_ge; lia).
    destruct (bytes_eqb _ _); reflexivity.
Qed.

Context {laws : WebCryptoLaws wc}.

(** Opening an envelope with any password that derives the sealing key. *)
Lemma decryptData_same_key (data password password' : jsstring)
    (salt iv : list byte) (w : World) :
  length salt = 16%nat -> length iv = 12%nat ->
  derived_key password' salt = derived_key password salt ->
  decryptData (Buffer_toString_base64 (envelope_bytes data password salt iv)) password' w
  = (Ok (TextDecoder_decode (TextEncoder_encode data)), w).
Proof.
  intros Hs Hi Hk.
  rewrite (decryptData_eq _ _ _ _ (Buffer_base64_roundtrip _)).
  unfold envelope_bytes.
  destruct (envelope_slices salt iv
              (sealed_box (derived_key password salt) iv (TextEncoder_encode data)) Hs Hi)
    as (E1 & E2 & E3).
  cbv zeta. rewrite E1, E2, E3, Hk.
  set (key := derived_key password salt). set (p := TextEncoder_encode data).
  rewrite sealed_box_length.
  replace (length p + 16 <? 16)%nat with false by (symmetry; apply Nat.ltb_ge; lia).
  replace (length p + 16 - 16)%nat with (length (GCTR key iv p))
    by (rewrite GCTR_length; lia).
  unfold sealed_box.
  rewrite skipn_app, skipn_all, Nat.sub_diag. cbn [skipn List.app].
  rewrite firstn_app, firstn_all, Nat.sub_diag, firstn_O, app_nil_r.
  rewrite bytes_eqb_refl, GCTR_involutive. reflexivity.
Qed.

(** The password with U+0000 appended opens what the password sealed. *)
Lemma decryptData_NUL_password (data password : jsstring) (w w' : World) :
  (length (TextEncoder_encode password) < 64)%nat ->
  exists env,
    encryptData data password w = (Ok env, drawn 28 w)
    /\ decryptData env (password ++ [0]) w'
       = (Ok (TextDecoder_decode (TextEncoder_encode data)), w').
Proof.
  intros H. eexists. split; [apply encryptData_eq|].
  apply decryptData_same_key; [reflexivity|reflexivity|].
  apply derived_key_NUL. exact H.
Qed.

End Opening.

(** * Lemmas on createWallet *)

(** The path of both networks, parsed. *)
Lemma parse_wallet_path (net : Network) :
  parse_path (wallet_path net)
  = Some (true, [Hardened 84; Hardened (coin_type net); Hardened 0; Normal 0; Normal 0]).
Proof. destruct net; vm_compute; reflexivity. Qed.

Section CreateWallet.
Context {bl : BitcoinLibs}.

(** Walking the wallet's path from a master node. *)
Lemma derivePath_wallet_path (root : HDNode) (net : Network) :
  node_parentFingerprint root = 0 ->
  derivePath root (wallet_path net) = Ok (bip84_child root net).
Proof.
  intros Hm. unfold derivePath. rewrite parse_wallet_path, Hm.
  cbn [andb negb Z.eqb fold_left derive_step].
  destruct net; reflexivity.
Qed.

(** [createWallet] leaves the world alone, and its answer is a function
    of the mnemonic and the network. *)
Lemma createWallet_eq (m : jsstring) (net : option Network) (w : World) :
  createWallet m net w
  = (let network := network_or_default net in
     match fromSeed (mnemonicToSeed m) (network_params network) with
     | Throw e => Throw e
     | Ok root =>
         match derivePath root (wallet_path network) with
         | Throw e => Throw e
         | Ok child =>
             match p2wpkh_address (node_publicKey child) (network_params network) with
             | None | Some [] => Throw (Error (str "Failed to generate address"))
             | Some address =>
                 Ok (mkWalletData m address (Buffer_toString_hex (node_publicKey child))
                       network)
             end
         end
     end, w).
Proof.
  unfold createWallet, bind. cbv zeta.
  fold (network_or_default net). fold (network_params (network_or_default net)).
  destruct (fromSeed _ _) as [root|e]; [|reflexivity].
  cbn [of_result]. unfold ret at 1. cbv beta iota.
  destruct (derivePath _ _) as [child|e]; [|reflexivity].
  cbn [of_result]. unfold ret at 1. cbv beta iota.
  destruct (p2wpkh_address _ _) as [[|c a]|]; reflexivity.
Qed.

End CreateWallet.

(** * Lemmas on the mnemonic functions *)

Lemma binaryToNat_snoc (g : list bool) (b : bool) :
  binaryToNat (g ++ [b]) = (2 * binaryToNat g + (if b then 1 else 0))%nat.
Proof. unfold binaryToNat. rewrite fold_left_app. reflexivity. Qed.

Lemma binaryToNat_bound (g : list bool) : (binaryToNat g < 2 ^ length g)%nat.
Proof.
  induction g as [|b g IH] using rev_ind.
  - cbn. lia.
  - rewrite binaryToNat_snoc.
    replace (length (g ++ [b])) with (S (length g)) by (rewrite length_app; cbn; lia).
    rewrite Nat.pow_succ_r'. destruct b; lia.
Qed.

(** Writing a group's number back in as many bits gives the group. *)
Lemma natToBinary_binaryToNat (g : list bool) :
  natToBinary (length g) (binaryToNat g) = g.
Proof.
  induction g as [|b g IH] using rev_ind.
  - reflexivity.
  - rewrite binaryToNat_snoc.
    replace (length (g ++ [b])) with (S (length g)) by (rewrite length_app; cbn; lia).
    cbn [natToBinary].
    replace ((2 * binaryToNat g + (if b then 1 else 0)) / 2)%nat with (binaryToNat g).
    + rewrite IH. f_equal. f_equal.
      rewrite Nat.odd_add, Nat.odd_mul. cbn [Nat.odd andb xorb]. destruct b; reflexivity.
    + destruct b.
      * rewrite Nat.mul_comm, Nat.div_add_l by lia. cbn. lia.
      * rewrite Nat.add_0_r, Nat.mul_comm, Nat.div_mul by lia. reflexivity.
Qed.

(** Cutting a concatenation of groups of one size gives the groups. *)
Lemma chunks_concat {A} (n : nat) (ls : list (list A)) (fuel : nat) :
  (0 < n)%nat -> Forall (fun g => length g = n) ls -> (length ls <= fuel)%nat ->
  chunks fuel n (concat ls) = ls.
Proof.
  intros Hn Hall. revert fuel. induction Hall as [|g ls Hg Hall IH]; intros fuel Hf.
  - destruct fuel; reflexivity.
  - destruct fuel as [|fuel]; [cbn in Hf; lia|].
    cbn [concat chunks].
    destruct (g ++ concat ls) as [|x rest] eqn:E.
    + destruct g; [cbn in Hg; lia|discriminate].
    + rewrite <- E. rewrite firstn_app, skipn_app, Hg, Nat.sub_diag.
      rewrite firstn_O, skipn_O, app_nil_r.
      rewrite firstn_all2 by lia. rewrite skipn_all2 by lia. cbn [List.app].
      rewrite IH by (cbn in Hf; lia). reflexivity.
Qed.

Lemma length_concat_groups {A} (n : nat) (ls : list (list A)) :
  Forall (fun g => length g = n) ls -> length (concat ls) = (length ls * n)%nat.
Proof.
  induction 1 as [|g ls Hg Hall IH]; [reflexivity|].
  cbn [concat length]. rewrite length_app, IH, Hg. cbn. lia.
Qed.

Lemma groups_of_concat {A} (n : nat) (ls : list (list A)) :
  (0 < n)%nat -> Forall (fun g => length g = n) ls -> groups_of n (concat ls) = ls.
Proof.
  intros Hn Hall. unfold groups_of. apply chunks_concat; try assumption.
  rewrite (length_concat_groups n) by assumption. nia.
Qed.

(** A list of [k * n] elements is [k] groups of [n]. *)
Lemma exists_groups {A} (n k : nat) (l : list A) :
  length l = (k * n)%nat ->
  exists ls, l = concat ls /\ Forall (fun g => length g = n) ls /\ length ls = k.
Proof.
  revert l. induction k as [|k IH]; intros l Hl.
  - exists []. destruct l; [auto|discriminate].
  - destruct (IH (skipn n l)) as (ls & E & Hall & Hlen).
    { rewrite length_skipn. lia. }
    exists (firstn n l :: ls). repeat split.
    + cbn [concat]. rewrite <- E. symmetry. apply firstn_skipn.
    + constructor; [|assumption]. apply firstn_length_le. lia.
    + cbn. lia.
Qed.

Lemma flat_map_concat_map {A B} (f : A -> list B) (l : list A) :
  flat_map f l = concat (List.map f l).
Proof. induction l as [|x l IH]; [reflexivity|]. cbn. rewrite IH. reflexivity. Qed.

Lemma byte_of_bits (b : byte) : z2b (Z.of_nat (binaryToNat (bits_of_byte b))) = b.
Proof. destruct b; vm_compute; reflexivity. Qed.

Lemma bits_of_byte_length (b : byte) : length (bits_of_byte b) = 8%nat.
Proof. reflexivity. Qed.

(** The bytes of a bit string written from bytes. *)
Lemma bytes_of_bytesToBinary (bytes : list byte) :
  List.map (fun g => z2b (Z.of_nat (binaryToNat g))) (groups_of 8 (bytesToBinary bytes))
  = bytes.
Proof.
  unfold bytesToBinary. rewrite flat_map_concat_map.
  rewrite groups_of_concat; [|lia|].
  - rewrite map_map. rewrite <- (map_id bytes) at 2.
    apply map_ext. intros b. apply byte_of_bits.
  - apply List.Forall_forall. intros g Hg. apply in_map_iff in Hg as (b & <- & _).
    reflexivity.
Qed.

Lemma bytesToBinary_length (bytes : list byte) :
  length (bytesToBinary bytes) = (length bytes * 8)%nat.
Proof.
  unfold bytesToBinary. rewrite flat_map_concat_map.
  rewrite (length_concat_groups 8), length_map; [reflexivity|].
  apply List.Forall_forall. intros g Hg. apply in_map_iff in Hg as (b & <- & _). reflexivity.
Qed.

Lemma split_on_not_nil (sep : Z) (s : jsstring) : split_on sep s <> [].
Proof.
  destruct s as [|c s]; cbn; [discriminate|].
  destruct (c =? sep); [discriminate|].
  destruct (split_on sep s); discriminate.
Qed.

Lemma split_on_word (sep : Z) (w : jsstring) :
  ~ In sep w -> split_on sep w = [w].
Proof.
  induction w as [|c w IH]; intros Hn; [reflexivity|].
  cbn [split_on]. destruct (c =? sep) eqn:E.
  - apply Z.eqb_eq in E. subst c. exfalso. apply Hn. left. reflexivity.
  - rewrite IH by (intros Hin; apply Hn; right; exact Hin). reflexivity.
Qed.

Lemma split_on_word_sep (sep : Z) (w rest : jsstring) :
  ~ In sep w -> split_on sep (w ++ sep :: rest) = w :: split_on sep rest.
Proof.
  induction w as [|c w IH]; intros Hn.
  - cbn [List.app split_on]. rewrite Z.eqb_refl. reflexivity.
  - cbn [List.app split_on]. destruct (c =? sep) eqn:E.
    + apply Z.eqb_eq in E. subst c. exfalso. apply Hn. left. reflexivity.
    + rewrite IH by (intros Hin; apply Hn; right; exact Hin). reflexivity.
Qed.

(** Splitting what was joined gives the words back. *)
Lemma split_on_join_with (sep : Z) (words : list jsstring) :
  words <> [] -> Forall (fun w => ~ In sep w) words ->
  split_on sep (join_with sep words) = words.
Proof.
  induction words as [|w ws IH]; intros Hne Hall; [congruence|].
  apply Forall_cons_iff in Hall as [Hw Hall].
  destruct ws as [|w' ws].
  - cbn [join_with]. apply split_on_word. exact Hw.
  - change (join_with sep (w :: w' :: ws)) with (w ++ sep :: join_with sep (w' :: ws)).
    rewrite split_on_word_sep by exact Hw.
    rewrite IH by (try discriminate; assumption). reflexivity.
Qed.

Lemma indexOf_nth (l : list jsstring) (i : nat) :
  List.NoDup l -> (i < length l)%nat -> indexOf (nth i l []) l = Some i.
Proof.
  intros Hnd. revert i. induction Hnd as [|x l Hx Hnd IH]; intros i Hi.
  - cbn in Hi. lia.
  - destruct i as [|i].
    + cbn [nth indexOf].
      replace (jsstring_eqb x x) with true by (symmetry; apply jsstring_eqb_eq; reflexivity).
      reflexivity.
    + cbn [nth indexOf]. cbn [length] in Hi.
      destruct (jsstring_eqb x (nth i l [])) eqn:E.
      * apply jsstring_eqb_eq in E. exfalso. apply Hx. rewrite E. apply nth_In. lia.
      * rewrite IH by lia. reflexivity.
Qed.

Lemma bits_eqb_refl (a : list bool) : bits_eqb a a = true.
Proof. induction a as [|[|] a IH]; cbn; auto. Qed.

Section Mnemonic.
Context {wc : WebCrypto} {bl : BitcoinLibs}.
Context {wcl : WebCryptoLaws wc} {bll : BitcoinLibsLaws bl}.

Lemma words_to_bits_groups (gs : list (list bool)) :
  Forall (fun g => length g = 11%nat) gs ->
  words_to_bits (List.map (fun g => nth (binaryToNat g) wordlist []) gs)
  = Some (concat gs).
Proof.
  induction 1 as [|g gs Hg Hall IH]; [reflexivity|].
  cbn [List.map words_to_bits concat].
  assert (Hb : (binaryToNat g < length wordlist)%nat).
  { rewrite wordlist_length. pose proof (binaryToNat_bound g) as Hb.
    rewrite Hg in Hb. exact Hb. }
  rewrite (indexOf_nth _ _ wordlist_NoDup Hb), IH.
  rewrite <- Hg at 1. rewrite natToBinary_binaryToNat. reflexivity.
Qed.

Lemma deriveChecksumBits_length (entropy : list byte) :
  length entropy = 16%nat -> length (deriveChecksumBits entropy) = 4%nat.
Proof.
  intros H. unfold deriveChecksumBits. rewrite H.
  change (16 * 8 / 32)%nat with 4%nat.
  apply firstn_length_le. rewrite bytesToBinary_length, SHA256_length. lia.
Qed.

(** The phrase of 16 bytes of entropy has 12 words and is valid. *)
Lemma entropyToMnemonic_valid (entropy : list byte) :
  length entropy = 16%nat ->
  length (split_on 32 (entropyToMnemonic entropy)) = 12%nat
  /\ bip39_validateMnemonic (entropyToMnemonic entropy) = true.
Proof.
  intros Hlen.
  pose proof (deriveChecksumBits_length entropy Hlen) as Hcs.
  assert (Hebits : length (bytesToBinary entropy) = 128%nat)
    by (rewrite bytesToBinary_length, Hlen; reflexivity).
  set (bits := bytesToBinary entropy ++ deriveChecksumBits entropy).
  assert (Hbits : length bits = (12 * 11)%nat)
    by (subst bits; rewrite length_app, Hebits, Hcs; reflexivity).
  destruct (exists_groups 11 12 bits Hbits) as (gs & Egs & Hall & Hgs).
  set (words := List.map (fun g => nth (binaryToNat g) wordlist []) gs).
  assert (Em : entropyToMnemonic entropy = join_with 32 words).
  { unfold entropyToMnemonic. fold bits. rewrite Egs.
    rewrite groups_of_concat by (try lia; assumption). reflexivity. }
  assert (Hwords : length words = 12%nat) by (subst words; rewrite length_map; exact Hgs).
  assert (Esplit : split_on 32 (join_with 32 words) = words).
  { apply split_on_join_with.
    - intros E. rewrite E in Hwords. discriminate.
    - subst words. apply List.Forall_forall. intros wd Hin.
      apply in_map_iff in Hin as (g & <- & Hg).
      apply wordlist_no_space. apply nth_In. rewrite wordlist_length.
      pose proof (binaryToNat_bound g) as Hb.
      rewrite List.Forall_forall in Hall. rewrite (Hall g Hg) in Hb. exact Hb. }
  rewrite Em, Esplit. split; [exact Hwords|].
  unfold bip39_validateMnemonic. rewrite Esplit, Hwords.
  cbn [Nat.modulo Nat.eqb Nat.leb andb negb].
  change ((12 mod 3 =? 0) && (12 <=? 12) && (12 <=? 24))%nat with true. cbn [negb].
  subst words. rewrite (words_to_bits_groups gs Hall), <- Egs. rewrite Hbits.
  change (12 * 11 / 33 * 32)%nat with 128%nat.
  subst bits. rewrite firstn_app, skipn_app, Hebits, Nat.sub_diag, firstn_O, skipn_O.
  rewrite app_nil_r, firstn_all2, skipn_all2 by lia. cbn [List.app].
  rewrite bytes_of_bytesToBinary. apply bits_eqb_refl.
Qed.

Lemma generateMnemonic_eq (w : World) :
  generateMnemonic w
  = (Ok (entropyToMnemonic (List.map (csprng w) (seq 0 16))), drawn 16 w).
Proof. reflexivity. Qed.

End Mnemonic.

(** * Lemmas on the component *)

Section AppLemmas.
Context {wc : WebCrypto} {bl : BitcoinLibs} {js : JsonLib}.

(** [handleUnlock] in terms of what [decryptData] and [JSON.parse] answer. *)
Lemma handleUnlock_eq (w : World) :
  handleUnlock w
  = match localStorage w !! storage_key with
    | None | Some [] => (Ok tt, w)
    | Some savedWallet =>
        match fst (decryptData savedWallet (password (component w)) w) with
        | Throw _ => (Ok tt, with_component w (unlock_failed (component w)))
        | Ok decrypted =>
            match JSON_parse decrypted with
            | None => (Ok tt, with_component w (unlock_failed (component w)))
            | Some walletData =>
                (Ok tt, with_component w (unlocked (component w) walletData))
            end
        end
    end.
Proof.
  unfold handleUnlock, bind, read_app, localStorage_getItem. cbv beta iota.
  destruct (localStorage w !! storage_key) as [[|c saved]|]; try reflexivity.
  unfold try_catch, bind.
  destruct (decryptData_cases (c :: saved) (password (component w)) w) as (combined & _ & E).
  cbv zeta in E. rewrite E. cbn [fst].
  destruct w as [ls rng a].
  destruct (length combined <? 44)%nat; [reflexivity|].
  destruct (bytes_eqb _ _); [|reflexivity].
  destruct (JSON_parse _) as [wd|]; reflexivity.
Qed.

End AppLemmas.

(** * The reference implementation meets the laws *)

Lemma xor_byte_involutive (a b : byte) : xor_byte a (xor_byte a b) = b.
Proof.
  assert (H : forallb (fun x => forallb (fun y =>
                Byte.eqb (xor_byte (z2b x) (xor_byte (z2b x) (z2b y))) (z2b y))
                (List.map Z.of_nat (seq 0 256))) (List.map Z.of_nat (seq 0 256)) = true)
    by (vm_compute; reflexivity).
  pose proof (forallb_Z_range _ _ H (b2z a) (b2z_range a)) as Ha. cbv beta in Ha.
  pose proof (forallb_Z_range _ _ Ha (b2z b) (b2z_range b)) as Hb. cbv beta in Hb.
  rewrite !z2b_b2z in Hb. apply Byte.byte_dec_bl. exact Hb.
Qed.

Lemma reference_crypto_laws : WebCryptoLaws Reference.crypto.
Proof.
  constructor; cbn [SHA256 GCTR GTAG Reference.crypto].
  - intros m. apply repeat_length.
  - intros k iv p. apply length_map.
  - intros k iv p. rewrite map_map. rewrite <- (map_id p) at 2.
    apply map_ext. intros b. apply xor_byte_involutive.
  - intros k iv c. apply repeat_length.
Qed.

Lemma nodupb_NoDup (l : list jsstring) : Reference.nodupb l = true -> List.NoDup l.
Proof.
  induction l as [|x l IH]; intros H; constructor.
  - cbn in H. apply andb_true_iff in H as [H _]. apply negb_true_iff in H.
    intros Hin. assert (E : existsb (jsstring_eqb x) l = true).
    { apply existsb_exists. exists x. split; [exact Hin|]. apply jsstring_eqb_eq. reflexivity. }
    congruence.
  - cbn in H. apply andb_true_iff in H as [_ H]. apply IH. exact H.
Qed.

Lemma reference_libs_laws : BitcoinLibsLaws Reference.libs.
Proof.
  constructor; cbn [wordlist fromSeed node_parentFingerprint Reference.libs].
  - rewrite length_map, length_seq. reflexivity.
  - apply nodupb_NoDup. vm_compute. reflexivity.
  - intros w Hin Hsp.
    assert (H : forallb (fun w => forallb (fun c => negb (c =? 32)) w)
                  (List.map Reference.word (seq 0 2048)) = true) by (vm_compute; reflexivity).
    rewrite forallb_forall in H. specialize (H w Hin).
    rewrite forallb_forall in H. specialize (H 32 Hsp). discriminate.
  - intros seed net root H. destruct (length seed =? 64)%nat; [|discriminate].
    injection H as <-. reflexivity.
Qed.

Lemma hex_digit_ascii (n : Z) : Reference.is_ascii (hex_digit n) = true.
Proof.
  unfold hex_digit.
  assert (H : forallb Reference.is_ascii (0 :: str "0123456789abcdef") = true) by reflexivity.
  rewrite forallb_forall in H. apply H.
  destruct (nth_in_or_default (Z.to_nat n) (str "0123456789abcdef") 0) as [Hin| ->].
  - right. exact Hin.
  - left. reflexivity.
Qed.

Lemma encode_string_ascii (s : jsstring) :
  forallb Reference.is_ascii (Reference.encode_string s) = true.
Proof.
  induction s as [|c s IH]; [reflexivity|].
  unfold Reference.encode_string in *. cbn [flat_map Reference.hex4 List.app forallb].
  rewrite !hex_digit_ascii, IH. reflexivity.
Qed.

Lemma stringify_ascii (wd : WalletData) :
  forallb Reference.is_ascii (Reference.stringify wd) = true.
Proof.
  unfold Reference.stringify. cbn [join_with].
  destruct (network wd);
    repeat (rewrite forallb_app || cbn [forallb]);
    rewrite !encode_string_ascii; reflexivity.
Qed.

Lemma ascii_js_valid (s : jsstring) :
  forallb Reference.is_ascii s = true -> js_valid s = true.
Proof.
  unfold js_valid. induction s as [|c s IH]; [reflexivity|].
  cbn [forallb]. intros H. apply andb_true_iff in H as [Hc Hs].
  rewrite IH by assumption. rewrite andb_true_r.
  unfold Reference.is_ascii, code_unit in *. bool_to_Z.
  apply andb_true_iff. split; [apply Z.leb_le|apply Z.ltb_lt]; lia.
Qed.

Lemma ascii_isWellFormed (s : jsstring) :
  forallb Reference.is_ascii s = true -> isWellFormed s = true.
Proof.
  induction s as [|c s IH]; [reflexivity|].
  cbn [forallb]. intros H. apply andb_true_iff in H as [Hc Hs].
  rewrite isWellFormed_cons.
  unfold Reference.is_ascii in Hc. bool_to_Z.
  replace (is_high_surrogate c) with false
    by (symmetry; unfold is_high_surrogate; apply andb_false_iff; left; apply Z.leb_gt; lia).
  replace (is_low_surrogate c) with false
    by (symmetry; unfold is_low_surrogate; apply andb_false_iff; left; apply Z.leb_gt; lia).
  cbn [negb andb]. apply IH. exact Hs.
Qed.

Lemma unhex_hex_digit (n : Z) :
  0 <= n < 16 -> Reference.unhex_digit (hex_digit n) = n.
Proof.
  intros Hn.
  assert (H : forallb (fun n => Reference.unhex_digit (hex_digit n) =? n)
                (List.map Z.of_nat (seq 0 16)) = true) by reflexivity.
  apply Z.eqb_eq. apply (forallb_Z_range _ _ H). lia.
Qed.

Lemma unhex4_hex4 (c : Z) : code_unit c = true -> Reference.unhex4 (Reference.hex4 c) = c.
Proof.
  intros Hc. unfold code_unit in Hc. bool_to_Z.
  unfold Reference.unhex4, Reference.hex4. cbn [fold_left].
  rewrite !unhex_hex_digit by (apply Z.mod_pos_bound; lia). zlia.
Qed.

Lemma decode_encode_string (s : jsstring) :
  js_valid s = true -> Reference.decode_string (Reference.encode_string s) = s.
Proof.
  intros Hv. unfold Reference.decode_string, Reference.encode_string.
  rewrite flat_map_concat_map, groups_of_concat; [|lia|].
  - rewrite map_map. rewrite <- (map_id s) at 2.
    apply map_ext_in. intros c Hc. apply unhex4_hex4.
    unfold js_valid in Hv. rewrite forallb_forall in Hv. apply Hv. exact Hc.
  - apply List.Forall_forall. intros g Hg. apply in_map_iff in Hg as (c & <- & _).
    reflexivity.
Qed.

Lemma ascii_no_comma (s : jsstring) :
  forallb (fun c => negb (c =? 44)) s = true -> ~ In 44 s.
Proof.
  intros H Hin. rewrite forallb_forall in H. specialize (H 44 Hin). discriminate.
Qed.

Lemma hex_digit_no_comma (n : Z) : (hex_digit n =? 44) = false.
Proof.
  unfold hex_digit.
  assert (H : forallb (fun c => negb (c =? 44)) (0 :: str "0123456789abcdef") = true)
    by reflexivity.
  rewrite forallb_forall in H. apply negb_true_iff. apply H.
  destruct (nth_in_or_default (Z.to_nat n) (str "0123456789abcdef") 0) as [Hin| ->].
  - right. exact Hin.
  - left. reflexivity.
Qed.

Lemma encode_string_no_comma (s : jsstring) : ~ In 44 (Reference.encode_string s).
Proof.
  apply ascii_no_comma. induction s as [|c s IH]; [reflexivity|].
  unfold Reference.encode_string in *. cbn [flat_map Reference.hex4 List.app forallb].
  rewrite !hex_digit_no_comma, IH. reflexivity.
Qed.

Lemma reference_json_laws : JsonLaws Reference.json.
Proof.
  constructor; cbn [JSON_stringify JSON_parse Reference.json].
  - intros [m a p n] Hv. unfold wallet_valid in Hv. cbn [mnemonic address publicKey] in Hv.
    apply andb_true_iff in Hv as [Hv Hp]. apply andb_true_iff in Hv as [Hm Ha].
    unfold Reference.parse, Reference.stringify. cbn [mnemonic address publicKey network].
    rewrite split_on_join_with.
    + rewrite !decode_encode_string by assumption. destruct n; reflexivity.
    + discriminate.
    + repeat constructor; try apply encode_string_no_comma.
      destruct n; intros [H|[]]; discriminate.
  - intros wd. apply ascii_js_valid, stringify_ascii.
  - intros wd. eexists. reflexivity.
  - intros wd. apply ascii_isWellFormed, stringify_ascii.
Qed.

(** * More on envelopes *)

Lemma Buffer_toString_base64_inj (a b : list byte) :
  Buffer_toString_base64 a = Buffer_toString_base64 b -> a = b.
Proof.
  intros H. pose proof (Buffer_base64_roundtrip a) as Ha.
  rewrite H, Buffer_base64_roundtrip in Ha. congruence.
Qed.

Lemma Buffer_toString_base64_nonempty (b : byte) (bs : list byte) :
  Buffer_toString_base64 (b :: bs) <> [].
Proof.
  unfold Buffer_toString_base64. destruct bs as [|b2 [|b3 bs]]; discriminate.
Qed.

Lemma app_inj_length {A} (a a' b b' : list A) :
  length a = length a' -> a ++ b = a' ++ b' -> a = a' /\ b = b'.
Proof.
  revert a'. induction a as [|x a IH]; intros [|y a'] Hl H; try discriminate.
  - auto.
  - cbn in Hl, H. injection H as -> H. destruct (IH a' ltac:(lia) H) as [-> ->]. auto.
Qed.

Section Envelopes.
Context {wc : WebCrypto}.

(** Envelopes with different salt or nonce are different texts. *)
Lemma envelope_inj (data password : jsstring) (salt iv salt' iv' : list byte) :
  length salt = 16%nat -> length iv = 12%nat ->
  length salt' = 16%nat -> length iv' = 12%nat ->
  Buffer_toString_base64 (envelope_bytes data password salt iv)
  = Buffer_toString_base64 (envelope_bytes data password salt' iv') ->
  salt = salt' /\ iv = iv'.
Proof.
  intros Hs Hi Hs' Hi' H. apply Buffer_toString_base64_inj in H.
  unfold envelope_bytes in H.
  apply app_inj_length in H as [E1 H]; [|congruence].
  apply app_inj_length in H as [E2 _]; [|congruence]. auto.
Qed.

Lemma envelope_nonempty (data password : jsstring) (w : World) :
  Buffer_toString_base64 (envelope_bytes data password (seal_salt w) (seal_iv w)) <> [].
Proof. unfold envelope_bytes, seal_salt. cbn [seq List.map List.app]. apply Buffer_toString_base64_nonempty. Qed.

(** [decryptData] is a function of the text and the password. *)
Lemma decryptData_pure (env password : jsstring) (w1 w2 : World) :
  fst (decryptData env password w1) = fst (decryptData env password w2)
  /\ snd (decryptData env password w1) = w1.
Proof.
  destruct (decryptData_cases env password w1) as (c1 & E1 & H1).
  destruct (decryptData_cases env password w2) as (c2 & E2 & H2).
  assert (c1 = c2) by congruence. subst c2.
  cbv zeta in H1, H2. rewrite H1, H2. auto.
Qed.

End Envelopes.

(** * The claims *)

(** ** C1 *)

(** C1, as amended: for every plaintext string that is well formed (no
    unpaired surrogate) and does not start with U+FEFF, every password
    and every state of the CSPRNG, [encryptData] returns an envelope and
    [decryptData] of that envelope under the same password returns the
    plaintext exactly. *)
Theorem decryptData_encryptData {wc : WebCrypto} {laws : WebCryptoLaws wc}
    (P W : jsstring) (w w' : World) :
  js_valid P = true -> isWellFormed P = true -> starts_with_BOM P = false ->
  exists env,
    encryptData P W w = (Ok env, drawn 28 w)
    /\ decryptData env W w' = (Ok P, w').
Proof.
  intros Hv Hw Hb. eexists. split; [apply encryptData_eq|].
  rewrite decryptData_envelope by reflexivity.
  rewrite TextDecoder_TextEncoder by assumption. reflexivity.
Qed.

Lemma decryptData_encryptData_witness :
  exists env,
    encryptData (wc := Reference.crypto)
      (str "recovery phrase") (str "correcthorsebattery") Reference.world0
    = (Ok env, drawn 28 Reference.world0)
    /\ decryptData (wc := Reference.crypto) env (str "correcthorsebattery")
         Reference.world0
       = (Ok (str "recovery phrase"), Reference.world0).
Proof.
  apply (decryptData_encryptData (laws := reference_crypto_laws)); reflexivity.
Defined.

(** What opening returns for any plaintext: the plaintext read through
    the encoder and the decoder. *)
Lemma decryptData_encryptData_text {wc : WebCrypto} {laws : WebCryptoLaws wc}
    (P W : jsstring) (w w' : World) :
  exists env,
    encryptData P W w = (Ok env, drawn 28 w)
    /\ decryptData env W w' = (Ok (TextDecoder_decode (TextEncoder_encode P)), w').
Proof.
  eexists. split; [apply encryptData_eq|]. apply decryptData_envelope; reflexivity.
Qed.

(** C1 fails on the code: a plaintext that is one U+FEFF comes back as
    the empty string, and an unpaired surrogate comes back as U+FFFD. *)
Lemma decryptData_encryptData_counterexample :
  (exists env,
     encryptData (wc := Reference.crypto) [0xFEFF] (str "pw") Reference.world0
     = (Ok env, drawn 28 Reference.world0)
     /\ decryptData (wc := Reference.crypto) env (str "pw") Reference.world0
        = (Ok [], Reference.world0))
  /\ (exists env,
        encryptData (wc := Reference.crypto) [0xD800] (str "pw") Reference.world0
        = (Ok env, drawn 28 Reference.world0)
        /\ decryptData (wc := Reference.crypto) env (str "pw") Reference.world0
           = (Ok [0xFFFD], Reference.world0)).
Proof.
  split.
  - exact (decryptData_encryptData_text (laws := reference_crypto_laws)
             [0xFEFF] (str "pw") Reference.world0 Reference.world0).
  - exact (decryptData_encryptData_text (laws := reference_crypto_laws)
             [0xD800] (str "pw") Reference.world0 Reference.world0).
Qed.

(** ** C4 *)

(** C4: for every plaintext, password and state of the CSPRNG, the
    envelope [encryptData] returns is the base64 text of salt (the
    first 16 bytes drawn), nonce (the next 12), AES-GCM ciphertext and
    its 16-byte tag, in that order, and the text decodes to these bytes. *)
Theorem encryptData_wire_format {wc : WebCrypto} {laws : WebCryptoLaws wc}
    (data password : jsstring) (w : World) :
  exists salt nonce ciphertext tag,
    encryptData data password w
    = (Ok (Buffer_toString_base64 (salt ++ nonce ++ ciphertext ++ tag)), drawn 28 w)
    /\ salt = List.map (csprng w) (seq 0 16) /\ length salt = 16%nat
    /\ nonce = List.map (csprng w) (seq 16 12) /\ length nonce = 12%nat
    /\ ciphertext = GCTR (derived_key password salt) nonce (TextEncoder_encode data)
    /\ length ciphertext = length (TextEncoder_encode data)
    /\ tag = GTAG (derived_key password salt) nonce ciphertext
    /\ length tag = 16%nat
    /\ Buffer_from_base64 (Buffer_toString_base64 (salt ++ nonce ++ ciphertext ++ tag))
       = Some (salt ++ nonce ++ ciphertext ++ tag).
Proof.
  exists (seal_salt w), (seal_iv w).
  exists (GCTR (derived_key password (seal_salt w)) (seal_iv w) (TextEncoder_encode data)).
  exists (GTAG (derived_key password (seal_salt w)) (seal_iv w)
            (GCTR (derived_key password (seal_salt w)) (seal_iv w) (TextEncoder_encode data))).
  repeat split; try reflexivity.
  - apply encryptData_eq.
  - apply GCTR_length.
  - apply GTAG_length.
  - apply Buffer_base64_roundtrip.
Qed.

Lemma encryptData_wire_format_witness :
  exists salt nonce ciphertext tag,
    encryptData (wc := Reference.crypto) (str "{}") (str "password") Reference.world0
    = (Ok (Buffer_toString_base64 (salt ++ nonce ++ ciphertext ++ tag)),
       drawn 28 Reference.world0)
    /\ salt = List.map (csprng Reference.world0) (seq 0 16) /\ length salt = 16%nat
    /\ nonce = List.map (csprng Reference.world0) (seq 16 12) /\ length nonce = 12%nat
    /\ ciphertext = GCTR (WebCrypto := Reference.crypto)
                      (derived_key (wc := Reference.crypto) (str "password") salt) nonce
                      (TextEncoder_encode (str "{}"))
    /\ length ciphertext = length (TextEncoder_encode (str "{}"))
    /\ tag = GTAG (WebCrypto := Reference.crypto)
               (derived_key (wc := Reference.crypto) (str "password") salt) nonce ciphertext
    /\ length tag = 16%nat
    /\ Buffer_from_base64 (Buffer_toString_base64 (salt ++ nonce ++ ciphertext ++ tag))
       = Some (salt ++ nonce ++ ciphertext ++ tag).
Proof.
  exact (encryptData_wire_format (laws := reference_crypto_laws)
           (str "{}") (str "password") Reference.world0).
Defined.

(** ** C5 *)

(** C5, as amended: [decryptData] splits the decoded envelope at fixed
    offsets (salt = bytes 0-15, nonce = bytes 16-27, ciphertext and tag
    = the rest).  It fails with an OperationError, returning no text
    and leaving the world as it was, whenever the decoded envelope has
    fewer than 44 bytes or its last 16 bytes are not the AES-GCM tag of
    the ciphertext under the key derived from the given password and
    the envelope's salt.  It returns a text only when that tag check
    passes, and the text is then the decryption of the whole
    ciphertext.  (A wrong password or a changed envelope is rejected
    exactly when it makes this check fail.) *)
Theorem decryptData_fails_closed {wc : WebCrypto} (env password : jsstring) (w : World) :
  exists combined,
    Buffer_from_base64 env = Some combined
    /\ let salt := slice combined 0 16 in
       let nonce := slice combined 16 28 in
       let data := slice_from combined 28 in
       let key := derived_key password salt in
       let ciphertext := firstn (length data - 16) data in
       let tag := skipn (length data - 16) data in
       ((length combined < 44)%nat ->
          decryptData env password w = (Throw OperationError, w))
       /\ (tag <> GTAG key nonce ciphertext ->
             decryptData env password w = (Throw OperationError, w))
       /\ (forall text w', decryptData env password w = (Ok text, w') ->
             w' = w /\ (44 <= length combined)%nat /\ tag = GTAG key nonce ciphertext
             /\ text = TextDecoder_decode (GCTR key nonce ciphertext))
       /\ (forall e w', decryptData env password w = (Throw e, w') ->
             e = OperationError /\ w' = w).
Proof.
  destruct (decryptData_cases env password w) as (combined & E & H).
  exists combined. split; [exact E|]. cbv zeta in *. rewrite H. clear H.
  set (data := slice_from combined 28).
  set (key := derived_key password (slice combined 0 16)).
  set (nonce := slice combined 16 28).
  destruct (length combined <? 44)%nat eqn:E44.
  - apply Nat.ltb_lt in E44. repeat split; intros; try congruence; lia.
  - apply Nat.ltb_ge in E44.
    destruct (bytes_eqb _ _) eqn:Et.
    + apply bytes_eqb_eq in Et. repeat split; intros; try congruence; try lia.
    + assert (Hne : skipn (length data - 16) data
                    <> GTAG key nonce (firstn (length data - 16) data)).
      { intros Heq. rewrite Heq, bytes_eqb_refl in Et. discriminate. }
      repeat split; intros; try congruence; lia.
Qed.

(** C5 fails on the code: the envelope sealed under [hunter2] opens
    under [hunter2] followed by U+0000, a different password, and
    returns the plaintext. *)
Lemma decryptData_wrong_password_counterexample :
  (exists env,
     encryptData (wc := Reference.crypto) (str "secret") (str "hunter2") Reference.world0
     = (Ok env, drawn 28 Reference.world0)
     /\ decryptData (wc := Reference.crypto) env (str "hunter2" ++ [0]) Reference.world0
        = (Ok (str "secret"), Reference.world0))
  /\ str "hunter2" ++ [0] <> str "hunter2".
Proof.
  split; [|discriminate].
  apply (decryptData_NUL_password (laws := reference_crypto_laws)
           (str "secret") (str "hunter2") Reference.world0 Reference.world0).
  vm_compute. lia.
Qed.

(** ** C8 *)

(** C8: a call of [encryptData] draws its salt and nonce from the
    CSPRNG, a second call draws the next 28 bytes, and when the two
    draws differ the two envelopes of the same plaintext and password
    differ; [decryptData] answers the same for the same envelope and
    password in every world, and changes nothing. *)
Theorem encryptData_fresh {wc : WebCrypto} (data password : jsstring) (w : World) :
  (seal_salt w, seal_iv w) <> (seal_salt (drawn 28 w), seal_iv (drawn 28 w)) ->
  exists e1 e2,
    encryptData data password w = (Ok e1, drawn 28 w)
    /\ encryptData data password (drawn 28 w) = (Ok e2, drawn 56 w)
    /\ seal_salt (drawn 28 w) = List.map (csprng w) (seq 28 16)
    /\ seal_iv (drawn 28 w) = List.map (csprng w) (seq 44 12)
    /\ e1 <> e2
    /\ forall env pw w1 w2,
         fst (decryptData env pw w1) = fst (decryptData env pw w2)
         /\ snd (decryptData env pw w1) = w1.
Proof.
  intros Hfresh. do 2 eexists.
  split; [apply encryptData_eq|]. split; [rewrite encryptData_eq; reflexivity|].
  split; [reflexivity|]. split; [reflexivity|]. split.
  - intros Heq. apply envelope_inj in Heq as [E1 E2]; try reflexivity.
    apply Hfresh. congruence.
  - intros env pw w1 w2. apply decryptData_pure.
Qed.

Lemma encryptData_fresh_witness :
  exists e1 e2,
    encryptData (wc := Reference.crypto) (str "{}") (str "password") Reference.world0
    = (Ok e1, drawn 28 Reference.world0)
    /\ encryptData (wc := Reference.crypto) (str "{}") (str "password")
         (drawn 28 Reference.world0)
       = (Ok e2, drawn 56 Reference.world0)
    /\ seal_salt (drawn 28 Reference.world0)
       = List.map (csprng Reference.world0) (seq 28 16)
    /\ seal_iv (drawn 28 Reference.world0)
       = List.map (csprng Reference.world0) (seq 44 12)
    /\ e1 <> e2
    /\ forall env pw w1 w2,
         fst (decryptData (wc := Reference.crypto) env pw w1)
         = fst (decryptData (wc := Reference.crypto) env pw w2)
         /\ snd (decryptData (wc := Reference.crypto) env pw w1) = w1.
Proof.
  apply (encryptData_fresh (wc := Reference.crypto)). vm_compute. discriminate.
Defined.

(** ** C2 *)

(** C2, as amended: [createWallet] does not validate the mnemonic.  For
    every string that fails [validateMnemonic], it derives the seed and
    returns a record carrying that string whenever the master node can
    be built from the seed and the address can be encoded. *)
Theorem createWallet_accepts_invalid {wc : WebCrypto} {bl : BitcoinLibs}
    {laws : BitcoinLibsLaws bl}
    (m : jsstring) (net : option Network) (w : World) (root : HDNode) (a : jsstring) :
  validateMnemonic m = false ->
  fromSeed (mnemonicToSeed m) (network_params (network_or_default net)) = Ok root ->
  p2wpkh_address (node_publicKey (bip84_child root (network_or_default net)))
    (network_params (network_or_default net)) = Some a ->
  a <> [] ->
  createWallet m net w
  = (Ok (mkWalletData m a
           (Buffer_toString_hex (node_publicKey (bip84_child root (network_or_default net))))
           (network_or_default net)), w).
Proof.
  intros _ Hroot Haddr Hne. rewrite createWallet_eq. cbv zeta.
  rewrite Hroot, derivePath_wallet_path by (eapply fromSeed_master; exact Hroot).
  rewrite Haddr. destruct a as [|c a]; [congruence|reflexivity].
Qed.

Lemma createWallet_accepts_invalid_witness :
  createWallet (bl := Reference.libs) (str "not a mnemonic") None Reference.world0
  = (Ok (mkWalletData (str "not a mnemonic")
           (str "bc1q020000000054000000000000000000000000000000000000000000000000000000")
           (Buffer_toString_hex
              (node_publicKey (BitcoinLibs := Reference.libs)
                 (bip84_child (bl := Reference.libs) [] bitcoin)))
           bitcoin), Reference.world0).
Proof.
  apply (createWallet_accepts_invalid (wc := Reference.crypto) (laws := reference_libs_laws)
           (str "not a mnemonic") None Reference.world0 []).
  - vm_compute. reflexivity.
  - vm_compute. reflexivity.
  - vm_compute. reflexivity.
  - discriminate.
Defined.

(** C2 fails on the code: a string that fails [validateMnemonic] gets a
    wallet record. *)
Lemma createWallet_invalid_counterexample :
  validateMnemonic (wc := Reference.crypto) (bl := Reference.libs) (str "not a mnemonic")
  = false
  /\ exists rec,
       createWallet (bl := Reference.libs) (str "not a mnemonic") None Reference.world0
       = (Ok rec, Reference.world0)
       /\ mnemonic rec = str "not a mnemonic".
Proof.
  split; [vm_compute; reflexivity|].
  eexists. split; [vm_compute; reflexivity|reflexivity].
Qed.

(** ** C3 *)

(** C3, as amended: [createWallet] derives the terminal keypair by
    walking m/84'/coin'/0'/0/0 from the master node -- three hardened
    steps (purpose 84, coin type 0 for main and 1 for test, account 0)
    followed by two non-hardened steps (external chain 0, index 0) --
    and the record's public key and address are those of that node. *)
Theorem createWallet_walks_bip84 {bl : BitcoinLibs} {laws : BitcoinLibsLaws bl}
    (m : jsstring) (net : Network) (w : World) (root : HDNode) :
  fromSeed (mnemonicToSeed m) (network_params net) = Ok root ->
  parse_path (wallet_path net)
  = Some (true, [Hardened 84; Hardened (coin_type net); Hardened 0; Normal 0; Normal 0])
  /\ derivePath root (wallet_path net)
     = Ok (derive (derive (derive (derive (derive root (84 + HIGHEST_BIT))
                                          (coin_type net + HIGHEST_BIT))
                                  (0 + HIGHEST_BIT)) 0) 0)
  /\ createWallet m (Some net) w
     = (match p2wpkh_address (node_publicKey (bip84_child root net)) (network_params net) with
        | None | Some [] => Throw (Error (str "Failed to generate address"))
        | Some a =>
            Ok (mkWalletData m a (Buffer_toString_hex (node_publicKey (bip84_child root net)))
                  net)
        end, w).
Proof.
  intros Hroot. split; [apply parse_wallet_path|].
  assert (Hd : derivePath root (wallet_path net) = Ok (bip84_child root net))
    by (apply derivePath_wallet_path; eapply fromSeed_master; exact Hroot).
  split; [exact Hd|].
  rewrite createWallet_eq. cbv zeta. cbn [network_or_default].
  rewrite Hroot, Hd. reflexivity.
Qed.

Lemma createWallet_walks_bip84_witness :
  parse_path (wallet_path testnet)
  = Some (true, [Hardened 84; Hardened (coin_type testnet); Hardened 0; Normal 0; Normal 0])
  /\ derivePath (bl := Reference.libs) [] (wallet_path testnet)
     = Ok (derive (BitcoinLibs := Reference.libs)
             (derive (BitcoinLibs := Reference.libs)
                (derive (BitcoinLibs := Reference.libs)
                   (derive (BitcoinLibs := Reference.libs)
                      (derive (BitcoinLibs := Reference.libs) [] (84 + HIGHEST_BIT))
                      (coin_type testnet + HIGHEST_BIT))
                   (0 + HIGHEST_BIT)) 0) 0)
  /\ createWallet (bl := Reference.libs) (str "abandon") (Some testnet) Reference.world0
     = (match p2wpkh_address (BitcoinLibs := Reference.libs)
                (node_publicKey (BitcoinLibs := Reference.libs)
                   (bip84_child (bl := Reference.libs) [] testnet))
                (network_params testnet) with
        | None | Some [] => Throw (Error (str "Failed to generate address"))
        | Some a =>
            Ok (mkWalletData (str "abandon") a
                  (Buffer_toString_hex
                     (node_publicKey (BitcoinLibs := Reference.libs)
                        (bip84_child (bl := Reference.libs) [] testnet)))
                  testnet)
        end, Reference.world0).
Proof.
  apply (createWallet_walks_bip84 (laws := reference_libs_laws)
           (str "abandon") testnet Reference.world0 []).
  vm_compute. reflexivity.
Defined.

(** C3 fails on the code: the path of the mainnet wallet has five
    steps, of which three are hardened. *)
Lemma wallet_path_counterexample :
  parse_path (wallet_path bitcoin)
  = Some (true, [Hardened 84; Hardened 0; Hardened 0; Normal 0; Normal 0])
  /\ option_map (fun p => length (List.filter is_hardened (snd p)))
       (parse_path (wallet_path bitcoin)) = Some 3%nat
  /\ option_map (fun p => length (snd p)) (parse_path (wallet_path bitcoin)) = Some 5%nat.
Proof. repeat split; vm_compute; reflexivity. Qed.

(** ** C6 *)

(** C6: [createWallet] is deterministic.  Two calls with the same
    mnemonic and network give the same answer whatever the state of the
    world (storage, CSPRNG, component), so two records have identical
    address and publicKey fields; and the call changes nothing. *)
Theorem createWallet_deterministic {bl : BitcoinLibs}
    (M : jsstring) (net : option Network) (w1 w2 : World) :
  fst (createWallet M net w1) = fst (createWallet M net w2)
  /\ snd (createWallet M net w1) = w1
  /\ forall r1 r2,
       fst (createWallet M net w1) = Ok r1 -> fst (createWallet M net w2) = Ok r2 ->
       address r1 = address r2 /\ publicKey r1 = publicKey r2.
Proof.
  rewrite !createWallet_eq. cbn [fst snd]. repeat split; congruence.
Qed.

(** ** C10 *)

(** C10: the record [createWallet] returns carries the input mnemonic
    verbatim in its mnemonic field and the network it was called with,
    an omitted network being ['bitcoin']. *)
Theorem createWallet_keeps_mnemonic {bl : BitcoinLibs}
    (m : jsstring) (n : option Network) (w w' : World) (rec : WalletData) :
  createWallet m n w = (Ok rec, w') ->
  mnemonic rec = m
  /\ network rec = match n with Some n' => n' | None => bitcoin end
  /\ createWallet m None w = createWallet m (Some bitcoin) w.
Proof.
  intros H. rewrite createWallet_eq in H. cbv zeta in H.
  split; [|split].
  - destruct (fromSeed _ _); [|discriminate].
    destruct (derivePath _ _); [|discriminate].
    destruct (p2wpkh_address _ _) as [[|c0 s0]|]; try discriminate.
    injection H as <- _. reflexivity.
  - destruct (fromSeed _ _); [|discriminate].
    destruct (derivePath _ _); [|discriminate].
    destruct (p2wpkh_address _ _) as [[|c0 s0]|]; try discriminate.
    injection H as <- _. destruct n; reflexivity.
  - rewrite !createWallet_eq. reflexivity.
Qed.

Lemma createWallet_keeps_mnemonic_witness :
  mnemonic (mkWalletData (str "Abandon  ABOUT")
              (str "bc1q020000000054000000000000000000000000000000000000000000000000000000")
              (str "020000000054000000000000000000000000000000000000000000000000000000")
              bitcoin) = str "Abandon  ABOUT"
  /\ network (mkWalletData (str "Abandon  ABOUT")
              (str "bc1q020000000054000000000000000000000000000000000000000000000000000000")
              (str "020000000054000000000000000000000000000000000000000000000000000000")
              bitcoin) = bitcoin
  /\ createWallet (bl := Reference.libs) (str "Abandon  ABOUT") None Reference.world0
     = createWallet (bl := Reference.libs) (str "Abandon  ABOUT") (Some bitcoin)
         Reference.world0.
Proof.
  apply (createWallet_keeps_mnemonic (bl := Reference.libs)
           (str "Abandon  ABOUT") None Reference.world0 Reference.world0).
  vm_compute. reflexivity.
Defined.

(** ** C7 *)

(** C7: [generateMnemonic] draws 16 bytes (128 bits) from the CSPRNG,
    appends the 4 checksum bits of their hash, returns the 12 words of
    the 132 bits, and the phrase satisfies [validateMnemonic]. *)
Theorem generateMnemonic_valid {wc : WebCrypto} {bl : BitcoinLibs}
    {wcl : WebCryptoLaws wc} {bll : BitcoinLibsLaws bl} (w : World) :
  exists entropy phrase,
    generateMnemonic w = (Ok phrase, drawn 16 w)
    /\ entropy = List.map (csprng w) (seq 0 16)
    /\ length (bytesToBinary entropy) = 128%nat
    /\ length (deriveChecksumBits entropy) = 4%nat
    /\ phrase = entropyToMnemonic entropy
    /\ length (split_on 32 phrase) = 12%nat
    /\ validateMnemonic phrase = true.
Proof.
  exists (List.map (csprng w) (seq 0 16)), (entropyToMnemonic (List.map (csprng w) (seq 0 16))).
  assert (Hlen : length (List.map (csprng w) (seq 0 16)) = 16%nat) by reflexivity.
  destruct (entropyToMnemonic_valid _ Hlen) as [H12 Hvalid].
  split; [apply generateMnemonic_eq|]. split; [reflexivity|].
  split; [rewrite bytesToBinary_length, Hlen; reflexivity|].
  split; [apply deriveChecksumBits_length; exact Hlen|].
  split; [reflexivity|]. split; assumption.
Qed.

Lemma generateMnemonic_valid_witness :
  exists entropy phrase,
    generateMnemonic (wc := Reference.crypto) (bl := Reference.libs) Reference.world0
    = (Ok phrase, drawn 16 Reference.world0)
    /\ entropy = List.map (csprng Reference.world0) (seq 0 16)
    /\ length (bytesToBinary entropy) = 128%nat
    /\ length (deriveChecksumBits (wc := Reference.crypto) entropy) = 4%nat
    /\ phrase = entropyToMnemonic (wc := Reference.crypto) (bl := Reference.libs) entropy
    /\ length (split_on 32 phrase) = 12%nat
    /\ validateMnemonic (wc := Reference.crypto) (bl := Reference.libs) phrase = true.
Proof.
  exact (generateMnemonic_valid (wcl := reference_crypto_laws) (bll := reference_libs_laws)
           Reference.world0).
Defined.

(** ** C9 *)

Lemma Ok_inj {A} (a b : A) : Ok a = Ok b -> a = b.
Proof. intros H. injection H as H. exact H. Qed.

Section Unlock.
Context {wc : WebCrypto} {js : JsonLib}.

Lemma handleUnlock_stored (w : World) (saved : jsstring) :
  localStorage w !! storage_key = Some saved ->
  handleUnlock w
  = match saved with
    | [] => (Ok tt, w)
    | _ =>
        match fst (decryptData saved (password (component w)) w) with
        | Throw _ => (Ok tt, with_component w (unlock_failed (component w)))
        | Ok decrypted =>
            match JSON_parse decrypted with
            | None => (Ok tt, with_component w (unlock_failed (component w)))
            | Some walletData =>
                (Ok tt, with_component w (unlocked (component w) walletData))
            end
        end
    end.
Proof.
  intros Hs. rewrite handleUnlock_eq.
  change (localStorage w !! storage_key) with (localStorage w !! storage_key) in Hs.
  unfold jsstring in Hs. unfold jsstring. rewrite Hs. destruct saved; reflexivity.
Qed.

Context {wcl : WebCryptoLaws wc} {jsl : JsonLaws js}.

(** Unlocking over the envelope of a record, with a password that
    derives the sealing key. *)
Lemma handleUnlock_opens (w : World) (rec : WalletData) (pw : jsstring)
    (salt iv : list byte) :
  localStorage w !! storage_key
  = Some (Buffer_toString_base64 (envelope_bytes (JSON_stringify rec) pw salt iv)) ->
  length salt = 16%nat -> length iv = 12%nat ->
  derived_key (password (component w)) salt = derived_key pw salt ->
  wallet_valid rec = true ->
  handleUnlock w = (Ok tt, with_component w (unlocked (component w) rec)).
Proof.
  intros Hs Hsalt Hiv Hk Hv. rewrite (handleUnlock_stored w _ Hs).
  rewrite (decryptData_same_key _ pw (password (component w)) salt iv w Hsalt Hiv Hk).
  cbn [fst].
  destruct (JSON_stringify_brace rec) as [s Es].
  rewrite TextDecoder_TextEncoder;
    [ | apply JSON_stringify_valid | apply JSON_stringify_wellFormed
      | rewrite Es; reflexivity ].
  rewrite (JSON_parse_stringify rec Hv).
  destruct (Buffer_toString_base64 _) eqn:E; [|reflexivity].
  exfalso. unfold envelope_bytes in E. destruct salt as [|b salt]; [discriminate Hsalt|].
  rewrite <- app_comm_cons in E. exact (Buffer_toString_base64_nonempty _ _ E).
Qed.

End Unlock.

(** C9, as amended: when [decryptData] of the stored envelope under the
    typed password fails, or its text does not parse, [handleUnlock]
    shows the message [Senha incorreta] and leaves [appState], [wallet]
    and the storage as they were (a locked screen with no record stays
    one); when the stored envelope is what [encryptData] made of a
    record under the typed password, [handleUnlock] stores that record
    in [wallet], moves to [dashboard] and clears the message. *)
Theorem handleUnlock_outcomes {wc : WebCrypto} {js : JsonLib}
    {wcl : WebCryptoLaws wc} {jsl : JsonLaws js} (w : World) (saved : jsstring) :
  localStorage w !! storage_key = Some saved ->
  (saved <> [] ->
   (exists e, fst (decryptData saved (password (component w)) w) = Throw e)
   \/ (exists text, fst (decryptData saved (password (component w)) w) = Ok text
                    /\ JSON_parse text = None) ->
   exists w',
     handleUnlock w = (Ok tt, w')
     /\ appState (component w') = appState (component w)
     /\ wallet (component w') = wallet (component w)
     /\ error (component w') = msg_wrong_password
     /\ localStorage w' = localStorage w)
  /\ (forall rec w0,
        wallet_valid rec = true ->
        fst (encryptData (JSON_stringify rec) (password (component w)) w0) = Ok saved ->
        exists w',
          handleUnlock w = (Ok tt, w')
          /\ appState (component w') = dashboard
          /\ wallet (component w') = Some rec
          /\ error (component w') = []
          /\ localStorage w' = localStorage w).
Proof.
  intros Hs. split.
  - intros Hne Hfail. exists (with_component w (unlock_failed (component w))).
    split; [|repeat split].
    rewrite (handleUnlock_stored w saved Hs).
    destruct saved as [|c saved]; [congruence|].
    destruct Hfail as [[e He]|(text & Ht & Hp)].
    + rewrite He. reflexivity.
    + rewrite Ht, Hp. reflexivity.
  - intros rec w0 Hv Henc. rewrite encryptData_eq in Henc. cbn [fst] in Henc.
    apply Ok_inj in Henc. subst saved.
    exists (with_component w (unlocked (component w) rec)).
    split; [|repeat split].
    apply (handleUnlock_opens w rec (password (component w)) _ _ Hs);
      try reflexivity; assumption.
Qed.

Lemma handleUnlock_outcomes_witness :
  let w := Reference.locked_world Reference.sample_password in
  (Reference.sample_envelope <> [] ->
   (exists e, fst (decryptData (wc := Reference.crypto) Reference.sample_envelope
                     (password (component w)) w) = Throw e)
   \/ (exists text, fst (decryptData (wc := Reference.crypto) Reference.sample_envelope
                           (password (component w)) w) = Ok text
                    /\ JSON_parse (JsonLib := Reference.json) text = None) ->
   exists w',
     handleUnlock (wc := Reference.crypto) (js := Reference.json) w
     = (Ok tt, w')
     /\ appState (component w') = appState (component w)
     /\ wallet (component w') = wallet (component w)
     /\ error (component w') = msg_wrong_password
     /\ localStorage w' = localStorage w)
  /\ (forall rec w0,
        wallet_valid rec = true ->
        fst (encryptData (wc := Reference.crypto)
               (JSON_stringify (JsonLib := Reference.json) rec)
               (password (component w)) w0) = Ok Reference.sample_envelope ->
        exists w',
          handleUnlock (wc := Reference.crypto) (js := Reference.json) w
          = (Ok tt, w')
          /\ appState (component w') = dashboard
          /\ wallet (component w') = Some rec
          /\ error (component w') = []
          /\ localStorage w' = localStorage w).
Proof.
  apply (handleUnlock_outcomes (wcl := reference_crypto_laws) (jsl := reference_json_laws)
           (Reference.locked_world Reference.sample_password) Reference.sample_envelope).
  apply lookup_singleton_eq.
Defined.

(** The stored sample record is unlocked by its password. *)
Lemma handleUnlock_sample (typed : jsstring) :
  derived_key (wc := Reference.crypto) typed (seal_salt Reference.world0)
  = derived_key (wc := Reference.crypto) Reference.sample_password
      (seal_salt Reference.world0) ->
  handleUnlock (wc := Reference.crypto) (js := Reference.json)
    (Reference.locked_world typed)
  = (Ok tt, with_component (Reference.locked_world typed)
              (mkAppModel dashboard typed [] [] (Some Reference.sample_record) [])).
Proof.
  intros Hk.
  apply (handleUnlock_opens (wcl := reference_crypto_laws) (jsl := reference_json_laws)
           (Reference.locked_world typed) Reference.sample_record Reference.sample_password
           (seal_salt Reference.world0) (seal_iv Reference.world0)).
  - apply lookup_singleton_eq.
  - reflexivity.
  - reflexivity.
  - exact Hk.
  - vm_compute. reflexivity.
Qed.

(** C9 fails on the code: with the envelope sealed under
    [correcthorsebattery] in storage and that password followed by
    U+0000 typed in, a wrong password, [handleUnlock] puts the record in
    memory and moves to the dashboard. *)
Lemma handleUnlock_wrong_password_counterexample :
  encryptData (wc := Reference.crypto) (JSON_stringify (JsonLib := Reference.json)
                                          Reference.sample_record)
    Reference.sample_password Reference.world0
  = (Ok Reference.sample_envelope, drawn 28 Reference.world0)
  /\ Reference.sample_password ++ [0] <> Reference.sample_password
  /\ handleUnlock (wc := Reference.crypto) (js := Reference.json)
       (Reference.locked_world (Reference.sample_password ++ [0]))
     = (Ok tt,
        mkWorld (localStorage (Reference.locked_world (Reference.sample_password ++ [0])))
          Reference.counter
          (mkAppModel dashboard (Reference.sample_password ++ [0]) [] []
             (Some Reference.sample_record) [])).
Proof.
  split; [unfold Reference.sample_envelope; exact (encryptData_eq _ _ _)|]. split; [discriminate|].
  apply handleUnlock_sample. apply derived_key_NUL. vm_compute. lia.
Qed.

Section CreateHandler.
Context {wc : WebCrypto} {bl : BitcoinLibs} {js : JsonLib}.

Lemma handleCreateWallet_eq (w : World) :
  handleCreateWallet w
  = let a := component w in
    if negb (jsstring_eqb (password a) (confirmPassword a))
    then (Ok tt, with_component w (with_error a msg_mismatch))
    else if (length (password a) <? 8)%nat
    then (Ok tt, with_component w (with_error a msg_too_short))
    else
      match fst (createWallet (new_phrase w) None w) with
      | Ok rec =>
          (Ok tt, mkWorld (<[storage_key := new_envelope w rec]> (localStorage w))
                    (csprng (drawn 44 w)) (created a (new_phrase w) rec))
      | Throw _ =>
          (Ok tt, mkWorld (localStorage w) (csprng (drawn 16 w))
                    (create_failed a (new_phrase w)))
      end.
Proof.
  unfold handleCreateWallet, bind at 1, read_app. cbv beta iota zeta.
  destruct (negb (jsstring_eqb _ _)); [reflexivity|].
  destruct (length (password (component w)) <? 8)%nat; [reflexivity|].
  unfold try_catch, bind at 1. rewrite generateMnemonic_eq. cbv beta iota.
  fold (new_phrase w).
  unfold bind at 1, setMnemonic, set_app. cbv beta iota.
  unfold bind at 1. rewrite createWallet_eq.
  pose proof (createWallet_eq (new_phrase w) None w) as Ecw. rewrite Ecw. cbn [fst].
  cbv zeta.
  destruct (fromSeed _ _) as [root|e]; [|reflexivity].
  destruct (derivePath _ _) as [child|e]; [|reflexivity].
  destruct (p2wpkh_address _ _) as [[|c adr]|]; try reflexivity.
  unfold bind at 1, setWallet, set_app. cbv beta iota.
  unfold bind at 1. rewrite encryptData_eq. cbv beta iota.
  unfold bind at 1, localStorage_setItem. cbv beta iota.
  unfold setAppState, set_app, setError. cbv beta iota.
  reflexivity.
Qed.

End CreateHandler.

(** What a returned record is made of. *)
Lemma createWallet_Ok_inv {bl : BitcoinLibs} (m : jsstring) (n : option Network)
    (w w' : World) (rec : WalletData) :
  createWallet m n w = (Ok rec, w') ->
  exists root child a,
    fromSeed (mnemonicToSeed m) (network_params (network_or_default n)) = Ok root
    /\ derivePath root (wallet_path (network_or_default n)) = Ok child
    /\ p2wpkh_address (node_publicKey child) (network_params (network_or_default n)) = Some a
    /\ a <> []
    /\ rec = mkWalletData m a (Buffer_toString_hex (node_publicKey child))
               (network_or_default n)
    /\ w' = w.
Proof.
  rewrite createWallet_eq. cbv zeta. intros H.
  destruct (fromSeed _ _) as [root|e] eqn:Er; [|discriminate].
  destruct (derivePath _ _) as [child|e] eqn:Ec; [|discriminate].
  destruct (p2wpkh_address _ _) as [[|c a]|] eqn:Ea; try discriminate.
  exists root, child, (c :: a). injection H as Hrec Hw.
  repeat split; try reflexivity; try discriminate; try (symmetry; assumption); assumption.
Qed.

(** * The component's handlers *)

(** X1: when the two password fields differ, or the password has fewer
    than 8 code units, [handleCreateWallet] only shows a message -- the
    mismatch message when the fields differ, whatever the length: no
    randomness is drawn, nothing is stored, and the screen, the wallet
    and the mnemonic cell stay as they were. *)
Theorem handleCreateWallet_rejects {wc : WebCrypto} {bl : BitcoinLibs} {js : JsonLib}
    (w : World) :
  password (component w) <> confirmPassword (component w)
  \/ (length (password (component w)) < 8)%nat ->
  exists w',
    handleCreateWallet w = (Ok tt, w')
    /\ error (component w')
       = (if jsstring_eqb (password (component w)) (confirmPassword (component w))
          then msg_too_short else msg_mismatch)
    /\ localStorage w' = localStorage w
    /\ csprng w' = csprng w
    /\ appState (component w') = appState (component w)
    /\ wallet (component w') = wallet (component w)
    /\ mnemonicCell (component w') = mnemonicCell (component w).
Proof.
  intros H. rewrite handleCreateWallet_eq. cbv zeta.
  destruct (jsstring_eqb (password (component w)) (confirmPassword (component w))) eqn:E.
  - cbn [negb]. apply jsstring_eqb_eq in E.
    destruct H as [H|H]; [congruence|].
    replace (length (password (component w)) <? 8)%nat with true
      by (symmetry; apply Nat.ltb_lt; exact H).
    eexists. split; [reflexivity|]. repeat split.
  - cbn [negb]. eexists. split; [reflexivity|]. repeat split.
Qed.

Lemma handleCreateWallet_rejects_witness :
  exists w',
    handleCreateWallet (wc := Reference.crypto) (bl := Reference.libs) (js := Reference.json)
      (onboarding_world (str "hunter2") (str "hunter2"))
    = (Ok tt, w')
    /\ error (component w')
       = (if jsstring_eqb (password (component (onboarding_world (str "hunter2") (str "hunter2"))))
               (confirmPassword (component (onboarding_world (str "hunter2") (str "hunter2"))))
          then msg_too_short else msg_mismatch)
    /\ localStorage w' = localStorage (onboarding_world (str "hunter2") (str "hunter2"))
    /\ csprng w' = csprng (onboarding_world (str "hunter2") (str "hunter2"))
    /\ appState (component w')
       = appState (component (onboarding_world (str "hunter2") (str "hunter2")))
    /\ wallet (component w')
       = wallet (component (onboarding_world (str "hunter2") (str "hunter2")))
    /\ mnemonicCell (component w')
       = mnemonicCell (component (onboarding_world (str "hunter2") (str "hunter2"))).
Proof.
  apply (handleCreateWallet_rejects (wc := Reference.crypto) (bl := Reference.libs)
           (js := Reference.json) (onboarding_world (str "hunter2") (str "hunter2"))).
  right. vm_compute. lia.
Defined.

(** X2: with equal password fields of at least 8 code units, and a
    phrase for which [createWallet] returns a record, [handleCreateWallet]
    stores under [bitguard_wallet] the envelope of the record's JSON
    text sealed under the password (replacing what was stored there and
    touching no other key), puts the record and its phrase in the wallet
    and mnemonic cells, moves to the [create] screen, leaves the message
    as it was, and has drawn 44 bytes: 16 of entropy, 16 of salt, 12 of
    nonce. *)
Theorem handleCreateWallet_success {wc : WebCrypto} {bl : BitcoinLibs} {js : JsonLib}
    (w : World) (rec : WalletData) :
  password (component w) = confirmPassword (component w) ->
  (8 <= length (password (component w)))%nat ->
  fst (createWallet (new_phrase w) None w) = Ok rec ->
  exists w',
    handleCreateWallet w = (Ok tt, w')
    /\ localStorage w' !! storage_key = Some (new_envelope w rec)
    /\ (forall k, k <> storage_key -> localStorage w' !! k = localStorage w !! k)
    /\ appState (component w') = create
    /\ wallet (component w') = Some rec
    /\ mnemonicCell (component w') = new_phrase w
    /\ mnemonic rec = new_phrase w
    /\ error (component w') = error (component w)
    /\ csprng w' = (fun i => csprng w (44 + i)%nat).
Proof.
  intros Heq Hlen Hcw. rewrite handleCreateWallet_eq. cbv zeta.
  replace (jsstring_eqb (password (component w)) (confirmPassword (component w))) with true
    by (symmetry; apply jsstring_eqb_eq; exact Heq).
  replace (length (password (component w)) <? 8)%nat with false
    by (symmetry; apply Nat.ltb_ge; exact Hlen).
  cbn [negb]. rewrite Hcw.
  eexists. split; [reflexivity|]. cbn [localStorage component csprng created appState wallet
                                        mnemonicCell error drawn].
  split; [apply lookup_insert_eq|].
  split; [intros k Hk; apply lookup_insert_ne; congruence|].
  repeat split.
  destruct (createWallet (new_phrase w) None w) as [r w1] eqn:E. cbn [fst] in Hcw. subst r.
  destruct (createWallet_Ok_inv _ _ _ _ _ E) as (root & child & a & _ & _ & _ & _ & -> & _).
  reflexivity.
Qed.

Lemma handleCreateWallet_success_witness :
  exists w',
    handleCreateWallet (wc := Reference.crypto) (bl := Reference.libs) (js := Reference.json)
      (onboarding_world Reference.sample_password Reference.sample_password)
    = (Ok tt, w')
    /\ localStorage w' !! storage_key
       = Some (new_envelope (wc := Reference.crypto) (js := Reference.json)
                 (onboarding_world Reference.sample_password Reference.sample_password)
                 (reference_record
                    (onboarding_world Reference.sample_password Reference.sample_password)))
    /\ (forall k, k <> storage_key ->
          localStorage w' !! k
          = localStorage (onboarding_world Reference.sample_password Reference.sample_password)
              !! k)
    /\ appState (component w') = create
    /\ wallet (component w')
       = Some (reference_record
                 (onboarding_world Reference.sample_password Reference.sample_password))
    /\ mnemonicCell (component w')
       = new_phrase (wc := Reference.crypto) (bl := Reference.libs)
           (onboarding_world Reference.sample_password Reference.sample_password)
    /\ mnemonic (reference_record
                   (onboarding_world Reference.sample_password Reference.sample_password))
       = new_phrase (wc := Reference.crypto) (bl := Reference.libs)
           (onboarding_world Reference.sample_password Reference.sample_password)
    /\ error (component w')
       = error (component (onboarding_world Reference.sample_password
                             Reference.sample_password))
    /\ csprng w'
       = (fun i => csprng (onboarding_world Reference.sample_password
                             Reference.sample_password) (44 + i)%nat).
Proof.
  apply (handleCreateWallet_success (wc := Reference.crypto) (bl := Reference.libs)
           (js := Reference.json)
           (onboarding_world Reference.sample_password Reference.sample_password)
           (reference_record
              (onboarding_world Reference.sample_password Reference.sample_password))).
  - reflexivity.
  - vm_compute. lia.
  - vm_compute. reflexivity.
Defined.

(** X3: when [createWallet] throws, [handleCreateWallet] shows
    [Erro ao criar carteira], stores nothing and keeps the screen and
    the wallet cell; the phrase it had generated stays in the mnemonic
    cell, and the 16 bytes of entropy are spent. *)
Theorem handleCreateWallet_failure {wc : WebCrypto} {bl : BitcoinLibs} {js : JsonLib}
    (w : World) (e : exn) :
  password (component w) = confirmPassword (component w) ->
  (8 <= length (password (component w)))%nat ->
  fst (createWallet (new_phrase w) None w) = Throw e ->
  exists w',
    handleCreateWallet w = (Ok tt, w')
    /\ error (component w') = msg_create_failed
    /\ localStorage w' = localStorage w
    /\ appState (component w') = appState (component w)
    /\ wallet (component w') = wallet (component w)
    /\ mnemonicCell (component w') = new_phrase w
    /\ csprng w' = (fun i => csprng w (16 + i)%nat).
Proof.
  intros Heq Hlen Hcw. rewrite handleCreateWallet_eq. cbv zeta.
  replace (jsstring_eqb (password (component w)) (confirmPassword (component w))) with true
    by (symmetry; apply jsstring_eqb_eq; exact Heq).
  replace (length (password (component w)) <? 8)%nat with false
    by (symmetry; apply Nat.ltb_ge; exact Hlen).
  cbn [negb]. rewrite Hcw.
  eexists. split; [reflexivity|]. repeat split.
Qed.

Lemma handleCreateWallet_failure_witness :
  exists w',
    handleCreateWallet (wc := Reference.crypto) (bl := failing_libs) (js := Reference.json)
      (onboarding_world Reference.sample_password Reference.sample_password)
    = (Ok tt, w')
    /\ error (component w') = msg_create_failed
    /\ localStorage w'
       = localStorage (onboarding_world Reference.sample_password Reference.sample_password)
    /\ appState (component w')
       = appState (component (onboarding_world Reference.sample_password
                                Reference.sample_password))
    /\ wallet (component w')
       = wallet (component (onboarding_world Reference.sample_password
                              Reference.sample_password))
    /\ mnemonicCell (component w')
       = new_phrase (wc := Reference.crypto) (bl := failing_libs)
           (onboarding_world Reference.sample_password Reference.sample_password)
    /\ csprng w'
       = (fun i => csprng (onboarding_world Reference.sample_password
                             Reference.sample_password) (16 + i)%nat).
Proof.
  apply (handleCreateWallet_failure (wc := Reference.crypto) (bl := failing_libs)
           (js := Reference.json)
           (onboarding_world Reference.sample_password Reference.sample_password)
           TypeError).
  - reflexivity.
  - vm_compute. lia.
  - reflexivity.
Defined.

Section Sessions.
Context {wc : WebCrypto} {bl : BitcoinLibs} {js : JsonLib}.

(** The world a successful [handleCreateWallet] leaves. *)
Lemma handleCreateWallet_created (w : World) (rec : WalletData) :
  password (component w) = confirmPassword (component w) ->
  (8 <= length (password (component w)))%nat ->
  fst (createWallet (new_phrase w) None w) = Ok rec ->
  handleCreateWallet w
  = (Ok tt, mkWorld (<[storage_key := new_envelope w rec]> (localStorage w))
              (csprng (drawn 44 w)) (created (component w) (new_phrase w) rec)).
Proof.
  intros Heq Hlen Hcw. rewrite handleCreateWallet_eq. cbv zeta.
  replace (jsstring_eqb (password (component w)) (confirmPassword (component w))) with true
    by (symmetry; apply jsstring_eqb_eq; exact Heq).
  replace (length (password (component w)) <? 8)%nat with false
    by (symmetry; apply Nat.ltb_ge; exact Hlen).
  cbn [negb]. rewrite Hcw. reflexivity.
Qed.

Lemma new_envelope_nonempty (w : World) (rec : WalletData) : new_envelope w rec <> [].
Proof. unfold new_envelope. apply envelope_nonempty. Qed.

Lemma onMount_stored (w : World) (saved : jsstring) :
  localStorage w !! storage_key = Some saved -> saved <> [] ->
  onMount w
  = (Ok tt, with_component w
              (mkAppModel locked (password (component w)) (confirmPassword (component w))
                 (mnemonicCell (component w)) (wallet (component w)) (error (component w)))).
Proof.
  intros Hs Hne. unfold onMount, bind, localStorage_getItem. cbv beta iota.
  unfold jsstring in Hs. unfold jsstring. rewrite Hs.
  destruct saved as [|c saved]; [congruence|]. reflexivity.
Qed.

Lemma onMount_nothing (w : World) :
  localStorage w !! storage_key = None -> onMount w = (Ok tt, w).
Proof.
  intros Hs. unfold onMount, bind, localStorage_getItem. cbv beta iota.
  unfold jsstring in Hs. unfold jsstring. rewrite Hs. reflexivity.
Qed.

Lemma handleUnlock_nothing (w : World) :
  localStorage w !! storage_key = None -> handleUnlock w = (Ok tt, w).
Proof.
  intros Hs. rewrite handleUnlock_eq.
  unfold jsstring in Hs. unfold jsstring. rewrite Hs. reflexivity.
Qed.

End Sessions.

(** X5: after a successful [handleCreateWallet], [handleLogout] empties
    the wallet cell and the password field and shows the locked screen
    over the stored envelope, but the master password is still held by
    the confirmation field's cell and the recovery phrase by the
    mnemonic cell. *)
Theorem handleLogout_keeps_secrets {wc : WebCrypto} {bl : BitcoinLibs} {js : JsonLib}
    (w : World) (rec : WalletData) :
  password (component w) = confirmPassword (component w) ->
  (8 <= length (password (component w)))%nat ->
  fst (createWallet (new_phrase w) None w) = Ok rec ->
  exists w',
    (handleCreateWallet ;;; handleLogout) w = (Ok tt, w')
    /\ appState (component w') = locked
    /\ wallet (component w') = None
    /\ password (component w') = []
    /\ confirmPassword (component w') = password (component w)
    /\ mnemonicCell (component w') = new_phrase w
    /\ localStorage w' !! storage_key = Some (new_envelope w rec).
Proof.
  intros Heq Hlen Hcw. unfold bind at 1.
  rewrite (handleCreateWallet_created w rec Heq Hlen Hcw).
  eexists. split; [reflexivity|].
  cbn [component localStorage appState wallet password confirmPassword mnemonicCell created].
  repeat split; try (symmetry; exact Heq). apply lookup_insert_eq.
Qed.

Lemma handleLogout_keeps_secrets_witness :
  exists w',
    (handleCreateWallet (wc := Reference.crypto) (bl := Reference.libs) (js := Reference.json)
     ;;; handleLogout)
      (onboarding_world Reference.sample_password Reference.sample_password)
    = (Ok tt, w')
    /\ appState (component w') = locked
    /\ wallet (component w') = None
    /\ password (component w') = []
    /\ confirmPassword (component w')
       = password (component (onboarding_world Reference.sample_password
                                Reference.sample_password))
    /\ mnemonicCell (component w')
       = new_phrase (wc := Reference.crypto) (bl := Reference.libs)
           (onboarding_world Reference.sample_password Reference.sample_password)
    /\ localStorage w' !! storage_key
       = Some (new_envelope (wc := Reference.crypto) (js := Reference.json)
                 (onboarding_world Reference.sample_password Reference.sample_password)
                 (reference_record
                    (onboarding_world Reference.sample_password Reference.sample_password))).
Proof.
  apply (handleLogout_keeps_secrets (wc := Reference.crypto) (bl := Reference.libs)
           (js := Reference.json)
           (onboarding_world Reference.sample_password Reference.sample_password)
           (reference_record
              (onboarding_world Reference.sample_password Reference.sample_password))).
  - reflexivity.
  - vm_compute. lia.
  - vm_compute. reflexivity.
Defined.

(** X6: after a successful [handleCreateWallet], a reload of the page
    finds the stored envelope and starts on the locked screen, with no
    wallet, phrase or password in the component. *)
Theorem restart_after_create_is_locked {wc : WebCrypto} {bl : BitcoinLibs} {js : JsonLib}
    (w : World) (rec : WalletData) :
  password (component w) = confirmPassword (component w) ->
  (8 <= length (password (component w)))%nat ->
  fst (createWallet (new_phrase w) None w) = Ok rec ->
  exists w1 w2,
    handleCreateWallet w = (Ok tt, w1)
    /\ onMount (restart w1) = (Ok tt, w2)
    /\ component w2 = mkAppModel locked [] [] [] None []
    /\ localStorage w2 = localStorage w1.
Proof.
  intros Heq Hlen Hcw. do 2 eexists.
  split; [apply (handleCreateWallet_created w rec Heq Hlen Hcw)|].
  split.
  - apply (onMount_stored _ (new_envelope w rec)).
    + apply lookup_insert_eq.
    + apply new_envelope_nonempty.
  - split; reflexivity.
Qed.

Lemma restart_after_create_is_locked_witness :
  exists w1 w2,
    handleCreateWallet (wc := Reference.crypto) (bl := Reference.libs) (js := Reference.json)
      (onboarding_world Reference.sample_password Reference.sample_password)
    = (Ok tt, w1)
    /\ onMount (restart w1) = (Ok tt, w2)
    /\ component w2 = mkAppModel locked [] [] [] None []
    /\ localStorage w2 = localStorage w1.
Proof.
  apply (restart_after_create_is_locked (wc := Reference.crypto) (bl := Reference.libs)
           (js := Reference.json)
           (onboarding_world Reference.sample_password Reference.sample_password)
           (reference_record
              (onboarding_world Reference.sample_password Reference.sample_password))).
  - reflexivity.
  - vm_compute. lia.
  - vm_compute. reflexivity.
Defined.

(** X7: the wipe button removes the stored envelope and nothing else
    from the storage and shows the onboarding screen; after it the
    unlock button does nothing (no message either), and a reload stays
    on the onboarding screen. *)
Theorem wipe_forgets_wallet {wc : WebCrypto} {js : JsonLib} (w : World) :
  exists w',
    wipe w = (Ok tt, w')
    /\ localStorage w' !! storage_key = None
    /\ (forall k, k <> storage_key -> localStorage w' !! k = localStorage w !! k)
    /\ appState (component w') = onboarding
    /\ handleUnlock w' = (Ok tt, w')
    /\ onMount (restart w') = (Ok tt, restart w').
Proof.
  eexists. split; [reflexivity|].
  cbn [localStorage component appState].
  split; [apply lookup_delete_eq|].
  split; [intros k Hk; apply lookup_delete_ne; congruence|].
  split; [reflexivity|].
  split.
  - apply handleUnlock_nothing. apply lookup_delete_eq.
  - apply onMount_nothing. apply lookup_delete_eq.
Qed.

(** X4: create a wallet, log out, type the same password on the locked
    screen and unlock: the dashboard opens with the record made at
    creation, hence with the same address and public key, and the
    message is cleared. *)
Theorem create_logout_unlock {wc : WebCrypto} {bl : BitcoinLibs} {js : JsonLib}
    {wcl : WebCryptoLaws wc} {jsl : JsonLaws js} (w : World) (rec : WalletData) :
  password (component w) = confirmPassword (component w) ->
  (8 <= length (password (component w)))%nat ->
  fst (createWallet (new_phrase w) None w) = Ok rec ->
  wallet_valid rec = true ->
  exists w',
    (handleCreateWallet ;;; handleLogout ;;; type_and_unlock (password (component w))) w
    = (Ok tt, w')
    /\ appState (component w') = dashboard
    /\ wallet (component w') = Some rec
    /\ error (component w') = []
    /\ localStorage w' !! storage_key = Some (new_envelope w rec).
Proof.
  intros Heq Hlen Hcw Hv. unfold bind at 1.
  rewrite (handleCreateWallet_created w rec Heq Hlen Hcw).
  unfold bind at 1.
  assert (El : forall w0, handleLogout w0
                 = (Ok tt, with_component w0
                             (mkAppModel locked [] (confirmPassword (component w0))
                                (mnemonicCell (component w0)) None (error (component w0)))))
    by reflexivity.
  rewrite El. unfold type_and_unlock, bind at 1.
  assert (Ep : forall v w0, setPassword v w0
                 = (Ok tt, with_component w0
                             (mkAppModel (appState (component w0)) v
                                (confirmPassword (component w0)) (mnemonicCell (component w0))
                                (wallet (component w0)) (error (component w0)))))
    by reflexivity.
  rewrite Ep.
  cbn [with_component component localStorage csprng appState confirmPassword mnemonicCell
       wallet error created].
  match goal with
  | |- exists w', handleUnlock ?w3 = _ /\ _ =>
      pose proof (handleUnlock_opens w3 rec (password (component w))
                    (seal_salt (drawn 16 w)) (seal_iv (drawn 16 w))) as Hu
  end.
  cbn [component localStorage password] in Hu.
  rewrite Hu; try reflexivity; try assumption.
  - eexists. split; [reflexivity|].
    cbn [with_component component localStorage unlocked appState wallet error].
    repeat split. apply lookup_insert_eq.
  - apply lookup_insert_eq.
Qed.

Lemma create_logout_unlock_witness :
  exists w',
    (handleCreateWallet (wc := Reference.crypto) (bl := Reference.libs) (js := Reference.json)
     ;;; handleLogout
     ;;; type_and_unlock (wc := Reference.crypto) (js := Reference.json)
           (password (component (onboarding_world Reference.sample_password
                                   Reference.sample_password))))
      (onboarding_world Reference.sample_password Reference.sample_password)
    = (Ok tt, w')
    /\ appState (component w') = dashboard
    /\ wallet (component w')
       = Some (reference_record
                 (onboarding_world Reference.sample_password Reference.sample_password))
    /\ error (component w') = []
    /\ localStorage w' !! storage_key
       = Some (new_envelope (wc := Reference.crypto) (js := Reference.json)
                 (onboarding_world Reference.sample_password Reference.sample_password)
                 (reference_record
                    (onboarding_world Reference.sample_password Reference.sample_password))).
Proof.
  apply (create_logout_unlock (wcl := reference_crypto_laws) (jsl := reference_json_laws)
           (bl := Reference.libs)
           (onboarding_world Reference.sample_password Reference.sample_password)
           (reference_record
              (onboarding_world Reference.sample_password Reference.sample_password))).
  - reflexivity.
  - vm_compute. lia.
  - vm_compute. reflexivity.
  - vm_compute. reflexivity.
Defined.

(** * More of the service *)

(** X8: an envelope whose last 16 bytes were changed in any way never
    opens: with the salt, nonce and ciphertext [encryptData] wrote and
    any other 16 bytes in place of the tag, [decryptData] under the
    sealing password throws an OperationError and returns no text. *)
Theorem decryptData_rejects_changed_tag {wc : WebCrypto} {laws : WebCryptoLaws wc}
    (data password : jsstring) (w w' : World) :
  exists salt nonce ciphertext tag,
    encryptData data password w
    = (Ok (Buffer_toString_base64 (salt ++ nonce ++ ciphertext ++ tag)), drawn 28 w)
    /\ forall tag',
         length tag' = 16%nat -> tag' <> tag ->
         decryptData (Buffer_toString_base64 (salt ++ nonce ++ ciphertext ++ tag'))
           password w'
         = (Throw OperationError, w').
Proof.
  exists (seal_salt w), (seal_iv w).
  exists (GCTR (derived_key password (seal_salt w)) (seal_iv w) (TextEncoder_encode data)).
  exists (GTAG (derived_key password (seal_salt w)) (seal_iv w)
            (GCTR (derived_key password (seal_salt w)) (seal_iv w) (TextEncoder_encode data))).
  split; [apply encryptData_eq|].
  intros tag' Hlen Hne.
  set (key := derived_key password (seal_salt w)) in *.
  set (c := GCTR key (seal_iv w) (TextEncoder_encode data)) in *.
  rewrite (decryptData_eq _ _ _ _ (Buffer_base64_roundtrip _)).
  destruct (envelope_slices (seal_salt w) (seal_iv w) (c ++ tag') eq_refl eq_refl)
    as (E1 & E2 & E3).
  cbv zeta. rewrite E1, E2, E3. fold key.
  rewrite length_app, Hlen.
  replace (length c + 16 <? 16)%nat with false by (symmetry; apply Nat.ltb_ge; lia).
  replace (length c + 16 - 16)%nat with (length c) by lia.
  rewrite skipn_app, skipn_all, Nat.sub_diag, skipn_O.
  rewrite firstn_app, firstn_all, Nat.sub_diag, firstn_O, app_nil_r. cbn [List.app].
  destruct (bytes_eqb tag' (GTAG key (seal_iv w) c)) eqn:E; [|reflexivity].
  apply bytes_eqb_eq in E. contradiction.
Qed.

Lemma decryptData_rejects_changed_tag_witness :
  exists salt nonce ciphertext tag,
    encryptData (wc := Reference.crypto) (str "{}") (str "password") Reference.world0
    = (Ok (Buffer_toString_base64 (salt ++ nonce ++ ciphertext ++ tag)),
       drawn 28 Reference.world0)
    /\ forall tag',
         length tag' = 16%nat -> tag' <> tag ->
         decryptData (wc := Reference.crypto)
           (Buffer_toString_base64 (salt ++ nonce ++ ciphertext ++ tag'))
           (str "password") Reference.world0
         = (Throw OperationError, Reference.world0).
Proof.
  exact (decryptData_rejects_changed_tag (laws := reference_crypto_laws)
           (str "{}") (str "password") Reference.world0 Reference.world0).
Defined.

(** X9: a password and the same password followed by U+0000 are one
    password to the service, when the password's UTF-8 form is shorter
    than the 64 bytes of an HMAC block: [encryptData] writes the same
    envelope for both, and [decryptData] answers the same for both on
    every text. *)
Theorem password_NUL_interchangeable {wc : WebCrypto}
    (data env password : jsstring) (w : World) :
  (length (TextEncoder_encode password) < 64)%nat ->
  encryptData data (password ++ [0]) w = encryptData data password w
  /\ decryptData env (password ++ [0]) w = decryptData env password w.
Proof.
  intros H. split.
  - rewrite !encryptData_eq. unfold envelope_bytes.
    rewrite derived_key_NUL by exact H. reflexivity.
  - destruct (Buffer_from_base64_total env) as [combined E].
    rewrite !(decryptData_eq _ _ _ _ E). cbv zeta.
    rewrite derived_key_NUL by exact H. reflexivity.
Qed.

Lemma password_NUL_interchangeable_witness :
  encryptData (wc := Reference.crypto) (str "{}") (str "hunter2" ++ [0]) Reference.world0
  = encryptData (wc := Reference.crypto) (str "{}") (str "hunter2") Reference.world0
  /\ decryptData (wc := Reference.crypto) (str "AAAA") (str "hunter2" ++ [0]) Reference.world0
     = decryptData (wc := Reference.crypto) (str "AAAA") (str "hunter2") Reference.world0.
Proof.
  apply (password_NUL_interchangeable (wc := Reference.crypto)).
  vm_compute. lia.
Defined.

(** * Sessions *)

Section SessionInvariant.
Context {wc : WebCrypto} {bl : BitcoinLibs} {js : JsonLib}.

Lemma handleCreateWallet_cases (w : World) :
  (exists msg, handleCreateWallet w = (Ok tt, with_component w (with_error (component w) msg)))
  \/ (handleCreateWallet w
      = (Ok tt, mkWorld (localStorage w) (csprng (drawn 16 w))
                  (create_failed (component w) (new_phrase w))))
  \/ (exists rec,
        handleCreateWallet w
        = (Ok tt, mkWorld (<[storage_key := new_envelope w rec]> (localStorage w))
                    (csprng (drawn 44 w)) (created (component w) (new_phrase w) rec))).
Proof.
  rewrite handleCreateWallet_eq. cbv zeta.
  destruct (negb _); [left; eexists; reflexivity|].
  destruct (_ <? _)%nat; [left; eexists; reflexivity|].
  destruct (fst (createWallet _ _ _)) as [rec|e].
  - right; right. exists rec. reflexivity.
  - right; left. reflexivity.
Qed.


Lemma handleUnlock_stays (w : World) :
  handleUnlock w = (Ok tt, w)
  \/ handleUnlock w = (Ok tt, with_component w (unlock_failed (component w)))
  \/ (has_envelope w = true
      /\ exists rec, handleUnlock w = (Ok tt, with_component w (unlocked (component w) rec))).
Proof.
  rewrite handleUnlock_eq. unfold has_envelope.
  unfold jsstring.
  match goal with
  | |- context [match ?o with Some _ => _ | None => _ end] =>
      destruct o as [[|c saved]|]; auto
  end.
  match goal with
  | |- context [match ?o with Ok _ => _ | Throw _ => _ end] =>
      destruct o as [text|e]; auto
  end.
  destruct (JSON_parse text) as [rec|]; auto.
  right; right. split; [reflexivity|]. exists rec. reflexivity.
Qed.

Lemma has_envelope_insert (w : World) (v : jsstring) (rng : nat -> byte) (a : AppModel) :
  v <> [] -> has_envelope (mkWorld (<[storage_key := v]> (localStorage w)) rng a) = true.
Proof.
  intros Hv. unfold has_envelope. cbn [localStorage].
  rewrite lookup_insert_eq. destruct v; [congruence|reflexivity].
Qed.

Lemma has_envelope_delete (w : World) (rng : nat -> byte) (a : AppModel) :
  has_envelope (mkWorld (delete storage_key (localStorage w)) rng a) = false.
Proof.
  unfold has_envelope. cbn [localStorage]. rewrite lookup_delete_eq. reflexivity.
Qed.

Lemma onMount_empty (w : World) :
  localStorage w !! storage_key = Some [] -> onMount w = (Ok tt, w).
Proof.
  intros Hs. unfold onMount, bind, localStorage_getItem. cbv beta iota.
  unfold jsstring in Hs. unfold jsstring. rewrite Hs. reflexivity.
Qed.

Lemma session_invariant_loaded (w : World) : session_invariant (snd (fire PageLoaded w)).
Proof.
  unfold fire, session_invariant.
  destruct (localStorage w !! storage_key) as [[|c saved]|] eqn:E.
  - assert (Hh : has_envelope w = false)
      by (unfold has_envelope; unfold jsstring in *; rewrite E; reflexivity).
    rewrite onMount_empty by exact E. cbn [snd].
    change (has_envelope (restart w)) with (has_envelope w). rewrite Hh.
    repeat split; discriminate.
  - assert (Hh : has_envelope w = true)
      by (unfold has_envelope; unfold jsstring in *; rewrite E; reflexivity).
    rewrite (onMount_stored _ (c :: saved)) by (exact E || discriminate). cbn [snd].
    change (has_envelope (with_component (restart w) _)) with (has_envelope w). rewrite Hh.
    repeat split; discriminate.
  - assert (Hh : has_envelope w = false)
      by (unfold has_envelope; unfold jsstring in *; rewrite E; reflexivity).
    rewrite onMount_nothing by exact E. cbn [snd].
    change (has_envelope (restart w)) with (has_envelope w). rewrite Hh.
    repeat split; discriminate.
Qed.

Lemma session_invariant_step (e : Event) (w : World) :
  session_invariant w -> offered (component w) e = true ->
  session_invariant (snd (fire e w)).
Proof.
  intros (Hs & Hl & Hc) He.
  destruct e; try exact (session_invariant_loaded w).
  all: destruct w as [ls rng [st pw cf mn wl er]]; cbn in He, Hs, Hl, Hc.
  all: destruct st; try discriminate He.
  all: try (cbn; unfold session_invariant, has_envelope in *; cbn in *;
            repeat split; solve [assumption | discriminate | auto]).
  - (* CreatePressed *)
    unfold fire.
    destruct (handleCreateWallet_cases (mkWorld ls rng (mkAppModel onboarding pw cf mn wl er)))
      as [[msg E] | [E | [rec E]]]; rewrite E; cbn [snd].
    + unfold session_invariant, has_envelope in *. cbn in *.
      repeat split; solve [assumption | discriminate].
    + unfold session_invariant, has_envelope in *. cbn in *.
      repeat split; solve [assumption | discriminate].
    + unfold session_invariant. rewrite has_envelope_insert by apply new_envelope_nonempty.
      cbn. repeat split; discriminate.
  - (* UnlockPressed *)
    unfold fire.
    destruct (handleUnlock_stays (mkWorld ls rng (mkAppModel locked pw cf mn wl er)))
      as [E | [E | [Hh [rec E]]]]; rewrite E; cbn [snd].
    + split; [exact Hs | split; [exact Hl | exact Hc]].
    + unfold session_invariant, has_envelope in *. cbn in *.
      repeat split; solve [assumption | discriminate | auto].
    + unfold session_invariant, has_envelope in *. cbn in *.
      repeat split; solve [assumption | discriminate | auto].
  - (* WipePressed *)
    destruct confirmed.
    + unfold fire, wipe, bind, localStorage_removeItem, setAppState, set_app.
      cbv beta iota. cbn [snd localStorage csprng component].
      unfold session_invariant.
      rewrite (has_envelope_delete (mkWorld ls rng (mkAppModel locked pw cf mn wl er))).
      cbn [component appState wallet wallet_screen].
      repeat split; discriminate.
    + cbn. unfold session_invariant, has_envelope in *. cbn in *.
      repeat split; solve [assumption | discriminate | auto].
Qed.

Lemma play_invariant (events : list Event) (w w' : World) :
  session_invariant w -> play events w = Some w' -> session_invariant w'.
Proof.
  revert w. induction events as [|e rest IH]; intros w Hi Hp.
  - injection Hp as <-. exact Hi.
  - cbn [play] in Hp. destruct (offered (component w) e) eqn:He; [|discriminate].
    apply (IH _ (session_invariant_step e w Hi He) Hp).
Qed.

End SessionInvariant.

Section SessionSteps.
Context {wc : WebCrypto} {bl : BitcoinLibs} {js : JsonLib}.

Lemma play_cons (e : Event) (rest : list Event) (w w1 : World) :
  offered (component w) e = true -> fire e w = (Ok tt, w1) ->
  play (e :: rest) w = play rest w1.
Proof. intros He Hf. cbn [play]. rewrite He, Hf. reflexivity. Qed.

(** No handler writes another key of [localStorage]. *)
Lemma fire_other_keys (e : Event) (w : World) (k : jsstring) :
  k <> storage_key -> localStorage (snd (fire e w)) !! k = localStorage w !! k.
Proof.
  intros Hk. destruct e; try reflexivity.
  - (* PageLoaded *)
    unfold fire, onMount, bind, localStorage_getItem. cbv beta iota.
    match goal with
    | |- context [match ?o with Some _ => _ | None => _ end] =>
        destruct o as [[|c saved]|]; reflexivity
    end.
  - (* CreatePressed *)
    unfold fire.
    destruct (handleCreateWallet_cases w) as [[msg E] | [E | [rec E]]]; rewrite E;
      cbn [snd localStorage with_component]; try reflexivity.
    apply lookup_insert_ne. congruence.
  - (* UnlockPressed *)
    unfold fire.
    destruct (handleUnlock_stays w) as [E | [E | [_ [rec E]]]]; rewrite E; reflexivity.
  - (* WipePressed *)
    destruct confirmed; [|reflexivity].
    unfold fire, wipe, bind, localStorage_removeItem, setAppState, set_app.
    cbv beta iota. cbn [snd localStorage].
    apply lookup_delete_ne. congruence.
Qed.

End SessionSteps.

(** X10: between the events of a session that starts with a page load,
    [localStorage] holds a non-empty value under [bitguard_wallet]
    exactly while the state is [create], [locked] or [dashboard]; in
    [onboarding] and [import] it holds none, so [handleCreateWallet]
    never replaces a stored envelope. *)
Theorem screens_follow_storage {wc : WebCrypto} {bl : BitcoinLibs} {js : JsonLib}
    (events : list Event) (w0 w : World) :
  play (PageLoaded :: events) w0 = Some w ->
  has_envelope w = wallet_screen (appState (component w)).
Proof.
  intros Hp. cbn [play offered] in Hp.
  exact (proj1 (play_invariant events _ w (session_invariant_loaded w0) Hp)).
Qed.

(** X11: between the events of a session that starts with a page load,
    the locked screen never has a record in the wallet cell, and the
    state [create] always has one, so its screen is rendered. *)
Theorem locked_holds_no_record {wc : WebCrypto} {bl : BitcoinLibs} {js : JsonLib}
    (events : list Event) (w0 w : World) :
  play (PageLoaded :: events) w0 = Some w ->
  (appState (component w) = locked -> wallet (component w) = None)
  /\ (appState (component w) = create -> is_some (wallet (component w)) = true).
Proof.
  intros Hp. cbn [play offered] in Hp.
  destruct (play_invariant events _ w (session_invariant_loaded w0) Hp) as (_ & Hl & Hc).
  split; [exact Hl|]. intros Hs. specialize (Hc Hs).
  destruct (wallet (component w)); [reflexivity|congruence].
Qed.

(** X12: whatever the events of a session, every key of [localStorage]
    other than [bitguard_wallet] keeps its value or its absence. *)
Theorem play_keeps_other_keys {wc : WebCrypto} {bl : BitcoinLibs} {js : JsonLib}
    (events : list Event) (w w' : World) (k : jsstring) :
  play events w = Some w' -> k <> storage_key ->
  localStorage w' !! k = localStorage w !! k.
Proof.
  intros Hp Hk. revert w Hp. induction events as [|e rest IH]; intros w Hp.
  - injection Hp as <-. reflexivity.
  - cbn [play] in Hp. destruct (offered (component w) e); [|discriminate].
    rewrite (IH _ Hp). apply fire_other_keys. exact Hk.
Qed.

(** X13: the button 'Já tenho uma carteira' of the onboarding screen
    leads to the state [import], for which nothing is rendered: no
    control is offered there, and only a page load leaves it. *)
Theorem have_wallet_is_dead_end {wc : WebCrypto} {bl : BitcoinLibs} {js : JsonLib}
    (w : World) :
  appState (component w) = onboarding ->
  exists w',
    play [HaveWalletPressed] w = Some w'
    /\ appState (component w') = import
    /\ localStorage w' = localStorage w
    /\ forall e events w'',
         play (e :: events) w' = Some w'' -> e = PageLoaded.
Proof.
  intros Hs. cbn [play offered]. rewrite Hs.
  eexists. split; [reflexivity|]. cbn.
  repeat split. intros e events w'' Hp.
  destruct e; try discriminate Hp. reflexivity.
Qed.

(** The sample session plays to its end. *)
Lemma sample_session_plays :
  play (wc := Reference.crypto) (bl := Reference.libs) (js := Reference.json)
    sample_session Reference.world0
  = Some sample_session_end.
Proof.
  unfold sample_session.
  rewrite (play_cons _ _ _ (restart Reference.world0)) by reflexivity.
  rewrite (play_cons _ _ _
             (onboarding_world Reference.sample_password [])) by reflexivity.
  rewrite (play_cons _ _ _
             (onboarding_world Reference.sample_password Reference.sample_password))
    by reflexivity.
  set (w := onboarding_world Reference.sample_password Reference.sample_password).
  set (env := new_envelope (wc := Reference.crypto) (js := Reference.json) w
                (reference_record w)).
  set (phrase := new_phrase (wc := Reference.crypto) (bl := Reference.libs) w).
  rewrite (play_cons _ _ _
             (mkWorld (<[storage_key := env]> (localStorage w)) (csprng (drawn 44 w))
                (created (component w) phrase (reference_record w)))).
  2: reflexivity.
  2: { apply (handleCreateWallet_created w (reference_record w)).
       - reflexivity.
       - vm_compute. lia.
       - vm_compute. reflexivity. }
  rewrite (play_cons _ _ _
             (mkWorld (<[storage_key := env]> (localStorage w)) (csprng (drawn 44 w))
                (mkAppModel dashboard Reference.sample_password Reference.sample_password
                   phrase (Some (reference_record w)) []))) by reflexivity.
  rewrite (play_cons _ _ _ sample_session_end) by reflexivity.
  reflexivity.
Qed.

Lemma screens_follow_storage_witness :
  play (wc := Reference.crypto) (bl := Reference.libs) (js := Reference.json)
    sample_session Reference.world0
  = Some sample_session_end
  /\ has_envelope sample_session_end
     = wallet_screen (appState (component sample_session_end)).
Proof.
  split; [exact sample_session_plays|].
  exact (screens_follow_storage (wc := Reference.crypto) (bl := Reference.libs)
           (js := Reference.json) (tl sample_session) Reference.world0
           sample_session_end sample_session_plays).
Defined.

Lemma locked_holds_no_record_witness :
  play (wc := Reference.crypto) (bl := Reference.libs) (js := Reference.json)
    sample_session Reference.world0
  = Some sample_session_end
  /\ (appState (component sample_session_end) = locked ->
      wallet (component sample_session_end) = None)
  /\ (appState (component sample_session_end) = create ->
      is_some (wallet (component sample_session_end)) = true).
Proof.
  split; [exact sample_session_plays|].
  exact (locked_holds_no_record (wc := Reference.crypto) (bl := Reference.libs)
           (js := Reference.json) (tl sample_session) Reference.world0
           sample_session_end sample_session_plays).
Defined.

Lemma play_keeps_other_keys_witness :
  play (wc := Reference.crypto) (bl := Reference.libs) (js := Reference.json)
    sample_session Reference.world0
  = Some sample_session_end
  /\ str "theme" <> storage_key
  /\ localStorage sample_session_end !! str "theme"
     = localStorage Reference.world0 !! str "theme".
Proof.
  split; [exact sample_session_plays|].
  assert (Hk : str "theme" <> storage_key) by (vm_compute; discriminate).
  split; [exact Hk|].
  exact (play_keeps_other_keys (wc := Reference.crypto) (bl := Reference.libs)
           (js := Reference.json) sample_session Reference.world0
           sample_session_end (str "theme") sample_session_plays Hk).
Defined.

Lemma have_wallet_is_dead_end_witness :
  exists w',
    play (wc := Reference.crypto) (bl := Reference.libs) (js := Reference.json)
      [HaveWalletPressed] Reference.world0 = Some w'
    /\ appState (component w') = import
    /\ localStorage w' = localStorage Reference.world0
    /\ forall e events w'',
         play (wc := Reference.crypto) (bl := Reference.libs) (js := Reference.json)
           (e :: events) w' = Some w'' -> e = PageLoaded.
Proof.
  apply (have_wallet_is_dead_end (wc := Reference.crypto) (bl := Reference.libs)
           (js := Reference.json) Reference.world0).
  reflexivity.
Defined.

(** * More of the service: failures and encodings *)

Lemma failing_libs_laws : BitcoinLibsLaws failing_libs.
Proof.
  constructor.
  - exact (wordlist_length (BitcoinLibsLaws := reference_libs_laws)).
  - exact (wordlist_NoDup (BitcoinLibsLaws := reference_libs_laws)).
  - exact (wordlist_no_space (BitcoinLibsLaws := reference_libs_laws)).
  - intros seed net root H. discriminate H.
Qed.

(** X14: [createWallet] throws in two ways only, and changes nothing
    when it does: [bip32.fromSeed] threw and its exception is passed on,
    or the master node was built and no address, or an empty one, came
    back, and the error is 'Failed to generate address'.  Walking the
    path from the master node never throws. *)
Theorem createWallet_throws_only {bl : BitcoinLibs} {laws : BitcoinLibsLaws bl}
    (m : jsstring) (net : option Network) (w w' : World) (e : exn) :
  createWallet m net w = (Throw e, w') ->
  w' = w
  /\ (fromSeed (mnemonicToSeed m) (network_params (network_or_default net)) = Throw e
      \/ exists root,
           fromSeed (mnemonicToSeed m) (network_params (network_or_default net)) = Ok root
           /\ e = Error (str "Failed to generate address")
           /\ (p2wpkh_address (node_publicKey (bip84_child root (network_or_default net)))
                 (network_params (network_or_default net)) = None
               \/ p2wpkh_address (node_publicKey (bip84_child root (network_or_default net)))
                    (network_params (network_or_default net)) = Some [])).
Proof.
  rewrite createWallet_eq. cbv zeta. intros H.
  destruct (fromSeed _ _) as [root|e0] eqn:Er.
  - rewrite derivePath_wallet_path in H by (eapply fromSeed_master; exact Er).
    destruct (p2wpkh_address _ _) as [[|c a]|] eqn:Ea; try discriminate H.
    + injection H as <- <-. split; [reflexivity|]. right. exists root. auto.
    + injection H as <- <-. split; [reflexivity|]. right. exists root. auto.
  - injection H as <- <-. auto.
Qed.

Lemma createWallet_throws_only_witness :
  Reference.world0 = Reference.world0
  /\ (fromSeed (BitcoinLibs := failing_libs)
        (mnemonicToSeed (BitcoinLibs := failing_libs) (str "abandon"))
        (network_params bitcoin) = Throw TypeError
      \/ exists root,
           fromSeed (BitcoinLibs := failing_libs)
             (mnemonicToSeed (BitcoinLibs := failing_libs) (str "abandon"))
             (network_params bitcoin) = Ok root
           /\ TypeError = Error (str "Failed to generate address")
           /\ (p2wpkh_address (BitcoinLibs := failing_libs)
                 (node_publicKey (bip84_child root bitcoin)) (network_params bitcoin) = None
               \/ p2wpkh_address (BitcoinLibs := failing_libs)
                    (node_publicKey (bip84_child root bitcoin)) (network_params bitcoin)
                  = Some [])).
Proof.
  apply (createWallet_throws_only (laws := failing_libs_laws) (str "abandon") None
           Reference.world0 Reference.world0 TypeError).
  reflexivity.
Defined.

Lemma hex_digit_lower (n : Z) : 0 <= n < 16 -> is_lower_hex (hex_digit n) = true.
Proof.
  intros H. unfold hex_digit.
  assert (Hall : forallb is_lower_hex (str "0123456789abcdef") = true) by reflexivity.
  rewrite forallb_forall in Hall. apply Hall. apply List.nth_In.
  change (length (str "0123456789abcdef")) with 16%nat. lia.
Qed.

Lemma Buffer_toString_hex_length (bytes : list byte) :
  length (Buffer_toString_hex bytes) = (2 * length bytes)%nat.
Proof.
  unfold Buffer_toString_hex. induction bytes as [|b bytes IH]; [reflexivity|].
  cbn [flat_map List.app length]. rewrite IH. lia.
Qed.

Lemma Buffer_toString_hex_lower (bytes : list byte) :
  forallb is_lower_hex (Buffer_toString_hex bytes) = true.
Proof.
  unfold Buffer_toString_hex. induction bytes as [|b bytes IH]; [reflexivity|].
  cbn [flat_map List.app forallb]. rewrite IH.
  pose proof (b2z_range b) as Hb.
  rewrite !hex_digit_lower; [reflexivity| |].
  - change 0xF with (Z.ones 4). rewrite Z.land_ones by lia. apply Z.mod_pos_bound. lia.
  - rewrite Z.shiftr_div_pow2 by lia. change (2 ^ 4) with 16.
    split; [apply Z.div_pos; lia | apply Z.div_lt_upper_bound; lia].
Qed.

(** X15: the [publicKey] field of every record [createWallet] returns
    is written with the characters 0-9 and a-f only, two for each byte
    of the terminal node's public key, and the record carries the
    mnemonic it was given and the network asked for. *)
Theorem createWallet_publicKey_hex {bl : BitcoinLibs}
    (m : jsstring) (net : option Network) (w w' : World) (rec : WalletData) :
  createWallet m net w = (Ok rec, w') ->
  exists child : HDNode,
    length (publicKey rec) = (2 * length (node_publicKey child))%nat
    /\ forallb is_lower_hex (publicKey rec) = true
    /\ p2wpkh_address (node_publicKey child) (network_params (network_or_default net))
       = Some (address rec)
    /\ address rec <> []
    /\ mnemonic rec = m
    /\ network rec = network_or_default net.
Proof.
  intros H. apply createWallet_Ok_inv in H.
  destruct H as (root & child & a & _ & _ & Ha & Hne & -> & _).
  exists child. cbn [publicKey address mnemonic network].
  rewrite Buffer_toString_hex_length, Buffer_toString_hex_lower.
  repeat split; try reflexivity; assumption.
Qed.

Lemma createWallet_publicKey_hex_witness :
  exists child : HDNode (BitcoinLibs := Reference.libs),
    length (publicKey (reference_record Reference.world0))
    = (2 * length (node_publicKey (BitcoinLibs := Reference.libs) child))%nat
    /\ forallb is_lower_hex (publicKey (reference_record Reference.world0)) = true
    /\ p2wpkh_address (BitcoinLibs := Reference.libs)
         (node_publicKey (BitcoinLibs := Reference.libs) child)
         (network_params (network_or_default None))
       = Some (address (reference_record Reference.world0))
    /\ address (reference_record Reference.world0) <> []
    /\ mnemonic (reference_record Reference.world0)
       = new_phrase (wc := Reference.crypto) (bl := Reference.libs) Reference.world0
    /\ network (reference_record Reference.world0) = network_or_default None.
Proof.
  refine (createWallet_publicKey_hex (bl := Reference.libs)
            (new_phrase (wc := Reference.crypto) (bl := Reference.libs) Reference.world0)
            None Reference.world0 Reference.world0 (reference_record Reference.world0) _).
  rewrite createWallet_eq. reflexivity.
Defined.

Lemma before_pad_app (s1 s2 : jsstring) :
  before_pad (s1 ++ s2)
  = if forallb (fun c => negb (c =? b64_pad)) s1 then s1 ++ before_pad s2 else before_pad s1.
Proof.
  induction s1 as [|c s1 IH]; [reflexivity|].
  cbn [List.app before_pad forallb]. destruct (c =? b64_pad); [reflexivity|].
  cbn [negb andb]. rewrite IH. destruct (forallb _ s1); reflexivity.
Qed.

Lemma base64clean_skips (s1 s2 : jsstring) (c : Z) :
  b64_char c = false -> c <> b64_pad ->
  base64clean (s1 ++ c :: s2) = base64clean (s1 ++ s2).
Proof.
  intros Hc Hp. unfold base64clean. rewrite !before_pad_app.
  destruct (forallb _ s1); [|reflexivity].
  cbn [before_pad]. replace (c =? b64_pad) with false by (symmetry; apply Z.eqb_neq; exact Hp).
  rewrite !List.filter_app. cbn [List.filter]. rewrite Hc. reflexivity.
Qed.

(** X16: [decryptData] does not see characters outside the base64
    alphabet: an envelope with a line break, a space or any other
    character that is neither of [A-Za-z0-9+/-_] nor ['='] inserted
    anywhere gives the same answer as the envelope without it. *)
Theorem decryptData_skips_foreign_characters {wc : WebCrypto}
    (s1 s2 password : jsstring) (c : Z) (w : World) :
  b64_char c = false -> c <> b64_pad ->
  decryptData (s1 ++ c :: s2) password w = decryptData (s1 ++ s2) password w.
Proof.
  intros Hc Hp.
  destruct (Buffer_from_base64_total (s1 ++ s2)) as [combined E].
  assert (E' : Buffer_from_base64 (s1 ++ c :: s2) = Some combined).
  { unfold Buffer_from_base64 in *. rewrite base64clean_skips by assumption. exact E. }
  exact (eq_trans (decryptData_eq _ password _ w E')
           (eq_sym (decryptData_eq _ password _ w E))).
Qed.

Lemma decryptData_skips_foreign_characters_witness :
  decryptData (wc := Reference.crypto) (str "AAAA" ++ 10 :: str "AAAA") (str "password")
    Reference.world0
  = decryptData (wc := Reference.crypto) (str "AAAA" ++ str "AAAA") (str "password")
      Reference.world0.
Proof.
  refine (decryptData_skips_foreign_characters (wc := Reference.crypto)
            (str "AAAA") (str "AAAA") (str "password") 10 Reference.world0 _ _).
  - reflexivity.
  - vm_compute. discriminate.
Defined.

(** X17: a wallet created on the onboarding screen survives a reload:
    after the reload the page is locked with empty cells, and typing
    the creation password and pressing unlock opens the dashboard with
    the record made at creation, read back from [localStorage]. *)
Theorem create_reload_unlock {wc : WebCrypto} {bl : BitcoinLibs} {js : JsonLib}
    {wcl : WebCryptoLaws wc} {jsl : JsonLaws js} (w : World) (rec : WalletData) :
  appState (component w) = onboarding ->
  password (component w) = confirmPassword (component w) ->
  (8 <= length (password (component w)))%nat ->
  fst (createWallet (new_phrase w) None w) = Ok rec ->
  wallet_valid rec = true ->
  play [CreatePressed; PageLoaded; PasswordTyped (password (component w)); UnlockPressed] w
  = Some (mkWorld (<[storage_key := new_envelope w rec]> (localStorage w))
            (csprng (drawn 44 w))
            (mkAppModel dashboard (password (component w)) [] [] (Some rec) [])).
Proof.
  intros Hs Heq Hlen Hcw Hv.
  assert (Ho : offered (component w) CreatePressed = true)
    by (cbn [offered]; rewrite Hs; reflexivity).
  rewrite (play_cons _ _ _ _ Ho (handleCreateWallet_created w rec Heq Hlen Hcw)).
  set (w1 := mkWorld _ _ _).
  assert (E1 : fire PageLoaded w1
               = (Ok tt, mkWorld (localStorage w1) (csprng w1)
                           (mkAppModel locked [] [] [] None []))).
  { unfold fire. rewrite (onMount_stored (restart w1) (new_envelope w rec)).
    - reflexivity.
    - apply lookup_insert_eq.
    - apply new_envelope_nonempty. }
  rewrite (play_cons PageLoaded _ w1 _ eq_refl E1).
  set (w2 := mkWorld (localStorage w1) (csprng w1) (mkAppModel locked [] [] [] None [])).
  rewrite (play_cons (PasswordTyped (password (component w))) _ w2
             (mkWorld (localStorage w1) (csprng w1)
                (mkAppModel locked (password (component w)) [] [] None []))
             eq_refl eq_refl).
  set (w3 := mkWorld (localStorage w1) (csprng w1)
               (mkAppModel locked (password (component w)) [] [] None [])).
  assert (E3 : fire UnlockPressed w3
               = (Ok tt, with_component w3 (unlocked (component w3) rec))).
  { unfold fire.
    apply (handleUnlock_opens w3 rec (password (component w))
             (seal_salt (drawn 16 w)) (seal_iv (drawn 16 w))).
    - apply lookup_insert_eq.
    - reflexivity.
    - reflexivity.
    - reflexivity.
    - exact Hv. }
  rewrite (play_cons UnlockPressed _ w3 _ eq_refl E3).
  reflexivity.
Qed.

Lemma create_reload_unlock_witness :
  play (wc := Reference.crypto) (bl := Reference.libs) (js := Reference.json)
    [CreatePressed; PageLoaded; PasswordTyped Reference.sample_password; UnlockPressed]
    (onboarding_world Reference.sample_password Reference.sample_password)
  = Some (mkWorld
            (<[storage_key :=
                 new_envelope (wc := Reference.crypto) (js := Reference.json)
                   (onboarding_world Reference.sample_password Reference.sample_password)
                   (reference_record
                      (onboarding_world Reference.sample_password
                         Reference.sample_password))]> ∅)
            (csprng (drawn 44 (onboarding_world Reference.sample_password
                                 Reference.sample_password)))
            (mkAppModel dashboard Reference.sample_password [] []
               (Some (reference_record
                        (onboarding_world Reference.sample_password
                           Reference.sample_password))) [])).
Proof.
  refine (create_reload_unlock (wcl := reference_crypto_laws) (jsl := reference_json_laws)
            (bl := Reference.libs)
            (onboarding_world Reference.sample_password Reference.sample_password)
            (reference_record
               (onboarding_world Reference.sample_password Reference.sample_password))
            _ _ _ _ _).
  - reflexivity.
  - reflexivity.
  - vm_compute. lia.
  - vm_compute. reflexivity.
  - vm_compute. reflexivity.
Defined.
